(** * anu-qrng-go: a shallow embedding of [qrng.go] and its properties

    The client of the ANU quantum random number service is modelled
    function by function.  Go's [int] is the 64-bit two's complement
    integer of the usual targets (amd64, arm64), written as [Z] with its
    wrap-around spelled out.  The HTTP transport, URL parsing and the JSON
    decoder are library code: they are the fields of a [World] record, and
    the requests handed to [client.Do] are threaded through every call as
    an explicit log. *)

From stdpp Require Import base strings gmap list pretty.
From Stdlib Require Import ZArith Lia Ascii.

Local Open Scope Z_scope.

(** ** Go's [int] *)

Module GoInt.

Definition bits : Z := 64.
Definition min_int : Z := - 2 ^ 63.
Definition max_int : Z := 2 ^ 63 - 1.

(** A value of type [int]. *)
Definition in_range (z : Z) : Prop := min_int <= z <= max_int.

(** Two's complement wrap-around of an exact result. *)
Definition wrap (z : Z) : Z := (z + 2 ^ 63) mod 2 ^ 64 - 2 ^ 63.

Definition add (a b : Z) : Z := wrap (a + b).
Definition sub (a b : Z) : Z := wrap (a - b).

(** [a << n]: a negative count is a run-time panic ([None]); a count of
    at least the width shifts every bit out. *)
Definition shl_by (a n : Z) : Z :=
  if bits <=? n then 0 else wrap (Z.shiftl a n).

Definition shl (a n : Z) : option Z :=
  if n <? 0 then None else Some (shl_by a n).

(** [a >> n] on a signed operand is the arithmetic shift. *)
Definition shr (a n : Z) : Z := Z.shiftr a n.

(** [a / b] truncates towards zero. *)
Definition div (a b : Z) : Z := Z.quot a b.

(** The conversions [uint8(v)] and [uint16(v)] keep the low bits. *)
Definition uint8 (v : Z) : Z := v mod 2 ^ 8.
Definition uint16 (v : Z) : Z := v mod 2 ^ 16.

End GoInt.

(** ** Constants and errors *)

Definition maxUint8Length : Z := 1024.
Definition maxUint16Length : Z := 1024.
Definition maxBits : Z := maxUint8Length * 8.

(** The five package-level error variables are values with an identity of
    their own; [errors_New] and [fmt_Errorf] are the errors built on the
    spot, the latter with the operand of its [%w] verb when it has one. *)
Inductive error : Type :=
  | ErrInvalidRange
  | ErrRangeTooLarge
  | ErrMissingAPIKey
  | ErrInvalidHexType
  | ErrInvalidBlockSize
  | errors_New (text : string)
  | fmt_Errorf (text : string)
  | fmt_Errorf_w (text : string) (wrapped : error).

(** [err.Error()] *)
Definition error_text (e : error) : string :=
  match e with
  | ErrInvalidRange => "min cannot be greater than max"
  | ErrRangeTooLarge => "range size exceeds maximum supported value"
  | ErrMissingAPIKey => "API key required for this endpoint"
  | ErrInvalidHexType => "invalid hex type, must be hex8 or hex16"
  | ErrInvalidBlockSize => "block size must be between 1-10"
  | errors_New t => t
  | fmt_Errorf t => t
  | fmt_Errorf_w t _ => t
  end.

#[global] Instance error_eq_dec : EqDecision error.
Proof. solve_decision. Defined.

(** [errors.Is(err, target)]: [err] or something it wraps is [target]. *)
Fixpoint errors_Is (err target : error) : bool :=
  if decide (err = target) then true
  else match err with
       | fmt_Errorf_w _ inner => errors_Is inner target
       | _ => false
       end.

(** [strconv.Itoa] and the [%d] verb: signed decimal. *)
Definition Itoa (z : Z) : string := pretty z.

(** ** Client, envelope and transport *)

Record http_Client : Type := { Timeout : Z }.

Definition defaultTimeout : Z := 10 * 1000000000.
Definition http_DefaultClient : http_Client := {| Timeout := 0 |}.

Record QRNGClient : Type := {
  APIEndpoint : string;
  HTTPClient : option http_Client;
  APIKey : string;
  useAPIKey : bool
}.

Definition NewClient : QRNGClient :=
  {| APIEndpoint := "https://qrng.anu.edu.au/API/jsonI.php";
     HTTPClient := Some {| Timeout := defaultTimeout |};
     APIKey := "";
     useAPIKey := false |}.

Definition NewClientWithAPIKey (apiKey : string) : QRNGClient :=
  {| APIEndpoint := "https://api.quantumnumbers.anu.edu.au";
     HTTPClient := Some {| Timeout := defaultTimeout |};
     APIKey := apiKey;
     useAPIKey := true |}.

Definition requiresAPIKey (c : QRNGClient) : bool := useAPIKey c.

Record QRNGResponse : Type := {
  Type_ : string;
  Length : Z;
  Success : bool;
  Data : list Z;
  CompletionTime : string;
  Seed : string;
  Refresh : bool;
  Error : string;
  Info : list string
}.

(** [url.Values] and [http.Header] are maps from a name to its values.
    Header names are case-insensitive on the wire; the name is kept here
    as the source writes it. *)
Definition values_Add (m : gmap string (list string)) (k v : string)
  : gmap string (list string) :=
  <[k := default [] (m !! k) ++ [v]]> m.

(** The request built by [http.NewRequestWithContext]: the URL is the
    endpoint, a question mark and the encoded query, kept in two parts. *)
Record http_Request : Type := {
  Method : string;
  Endpoint : string;
  Query : gmap string (list string);
  Header : gmap string (list string)
}.

Record http_Response : Type := {
  StatusCode : Z;
  Body : error + string      (* what [io.ReadAll(resp.Body)] gives *)
}.

Definition http_StatusOK : Z := 200.

(** What the client cannot decide by itself: whether the URL parses, what
    the service answers to a request (given the client used and the
    requests made before it), and how a body decodes as JSON. *)
Record World : Type := {
  http_NewRequest : string -> gmap string (list string) -> option error;
  client_Do : http_Client -> list http_Request -> http_Request
              -> error + http_Response;
  json_Unmarshal : string -> error + QRNGResponse
}.

(** A Go result pair [(value, err)] with the requests sent so far. *)
Definition ret (A : Type) : Type := (A * option error) * list http_Request.

Definition HasPrefix (s p : string) : bool := String.prefix p s.

(** ** [doRequest] *)

Definition doRequest (w : World) (c : QRNGClient)
    (length : Z) (dataType : string) (blockSize : Z)
    (sent : list http_Request) : ret (option QRNGResponse) :=
  if requiresAPIKey c && bool_decide (APIKey c = "") then
    ((None, Some ErrMissingAPIKey), sent)
  else
    let params : gmap string (list string) :=
      <["length" := [Itoa length]]> (<["type" := [dataType]]> ∅) in
    let params :=
      if HasPrefix dataType "hex" && (0 <? blockSize)
      then values_Add params "size" (Itoa blockSize)
      else params in
    match http_NewRequest w (APIEndpoint c) params with
    | Some err =>
        ((None, Some (fmt_Errorf_w
                        ("request creation failed: " +:+ error_text err) err)),
         sent)
    | None =>
        let req := {| Method := "GET";
                      Endpoint := APIEndpoint c;
                      Query := params;
                      Header := if requiresAPIKey c
                                then values_Add ∅ "x-api-key" (APIKey c)
                                else ∅ |} in
        let client := match HTTPClient c with
                      | None => http_DefaultClient
                      | Some cl => cl
                      end in
        let sent' := sent ++ [req] in
        match client_Do w client sent req with
        | inl err =>
            ((None, Some (fmt_Errorf_w
                            ("request failed: " +:+ error_text err) err)),
             sent')
        | inr resp =>
            if negb (StatusCode resp =? http_StatusOK) then
              match Body resp with
              | inl errRead =>
                  ((None, Some (fmt_Errorf_w
                      ("unexpected status code " +:+ Itoa (StatusCode resp)
                       +:+ ": error reading body: " +:+ error_text errRead)
                      errRead)), sent')
              | inr errBody =>
                  ((None, Some (fmt_Errorf
                      ("unexpected status code " +:+ Itoa (StatusCode resp)
                       +:+ ": " +:+ errBody))), sent')
              end
            else
              match Body resp with
              | inl err =>
                  ((None, Some (fmt_Errorf_w
                      ("failed reading response: " +:+ error_text err) err)),
                   sent')
              | inr body =>
                  match json_Unmarshal w body with
                  | inl err =>
                      ((None, Some (fmt_Errorf_w
                          ("json parse error: " +:+ error_text err) err)),
                       sent')
                  | inr qr =>
                      if negb (Success qr) then
                        if negb (bool_decide (Error qr = "")) then
                          ((None, Some (fmt_Errorf
                                          ("api error: " +:+ Error qr))),
                           sent')
                        else
                          ((None, Some (errors_New "api request failed")),
                           sent')
                      else if Z.of_nat (List.length (Data qr)) <? length then
                        ((None, Some (fmt_Errorf
                            ("insufficient data: expected " +:+ Itoa length
                             +:+ ", got "
                             +:+ Itoa (Z.of_nat (List.length (Data qr)))))),
                         sent')
                      else ((Some qr, None), sent')
                  end
              end
        end
    end.

(** ** Bits *)

(** The inner loop of [extractBits], [for i := 7; i >= 0; i--], over the
    remaining values of [i]: [inl] is the [return bits] taken inside the
    loop, [inr] the slice carried on to the next byte.  The slice starts
    empty; [make([]int, 0, numBits)] only reserves its capacity, and
    [numBits] is at least 1 at the one call. *)
Fixpoint extractBits_byte (idx : list Z) (byteVal : Z) (bits : list Z)
    (numBits : Z) : list Z + list Z :=
  match idx with
  | [] => inr bits
  | i :: idx' =>
      let bits := bits ++ [Z.land (GoInt.shr byteVal i) 1] in
      if Z.of_nat (List.length bits) =? numBits then inl bits
      else extractBits_byte idx' byteVal bits numBits
  end.

Fixpoint extractBits_from (data : list Z) (bits : list Z) (numBits : Z)
    : list Z :=
  match data with
  | [] => bits
  | byteVal :: data' =>
      match extractBits_byte [7; 6; 5; 4; 3; 2; 1; 0] byteVal bits numBits with
      | inl bits => bits
      | inr bits => extractBits_from data' bits numBits
      end
  end.

Definition extractBits (data : list Z) (numBits : Z) : list Z :=
  extractBits_from data [] numBits.

Definition GetRandomBits (w : World) (c : QRNGClient) (numBits : Z)
    (sent : list http_Request) : ret (list Z) :=
  if (numBits <? 1) || (maxBits <? numBits) then
    (([], Some (fmt_Errorf
                  ("numBits must be between 1 and " +:+ Itoa maxBits))), sent)
  else
    let requiredBytes := GoInt.div (GoInt.add numBits 7) 8 in
    match doRequest w c requiredBytes "uint8" 0 sent with
    | ((_, Some err), sent') => (([], Some err), sent')
    | ((Some qr, None), sent') => ((extractBits (Data qr) numBits, None), sent')
    | ((None, None), sent') => (([], None), sent')   (* never: [doRequest_nil] *)
    end.

(** ** Bytes and 16-bit words *)

(** The loop [for i, v := range data { result[i] = f(v) }] of the three
    reshaping functions, from index [i] on. *)
Fixpoint assign_each {A : Type} (f : Z -> A) (i : nat) (data : list Z)
    (result : list A) : list A :=
  match data with
  | [] => result
  | v :: data' => assign_each f (S i) data' (<[i := f v]> result)
  end.

Definition convertUint8 (data : list Z) : list Z :=
  assign_each GoInt.uint8 0 data (replicate (List.length data) 0).

Definition GetRandomUint8 (w : World) (c : QRNGClient) (numBytes : Z)
    (sent : list http_Request) : ret (list Z) :=
  if (numBytes <? 1) || (maxUint8Length <? numBytes) then
    (([], Some (fmt_Errorf
                  ("numBytes must be between 1 and " +:+ Itoa maxUint8Length))),
     sent)
  else
    match doRequest w c numBytes "uint8" 0 sent with
    | ((_, Some err), sent') => (([], Some err), sent')
    | ((Some qr, None), sent') => ((convertUint8 (Data qr), None), sent')
    | ((None, None), sent') => (([], None), sent')   (* never: [doRequest_nil] *)
    end.

Definition convertUint16 (data : list Z) : list Z :=
  assign_each GoInt.uint16 0 data (replicate (List.length data) 0).

Definition GetRandomUint16 (w : World) (c : QRNGClient) (numShorts : Z)
    (sent : list http_Request) : ret (list Z) :=
  if (numShorts <? 1) || (maxUint16Length <? numShorts) then
    (([], Some (fmt_Errorf
                  ("numShorts must be between 1 and "
                   +:+ Itoa maxUint16Length))),
     sent)
  else
    match doRequest w c numShorts "uint16" 0 sent with
    | ((_, Some err), sent') => (([], Some err), sent')
    | ((Some qr, None), sent') => ((convertUint16 (Data qr), None), sent')
    | ((None, None), sent') => (([], None), sent')   (* never: [doRequest_nil] *)
    end.

(** ** Hexadecimal strings *)

Definition ldigits : string := "0123456789abcdefx".

Definition digit (d : Z) : ascii :=
  default "0"%char (String.get (Z.to_nat d) ldigits).

(** The digit loop of [fmt]'s integer formatter in base 16, writing from
    the end of the buffer: [for u >= 16 { buf[i] = digits[u&0xF]; u >>= 4 }]
    and then the leading digit.  [u] is a [uint64], so sixteen rounds
    always reach the leading digit. *)
Fixpoint fmt_hex (rounds : nat) (u : Z) (buf : string) : string :=
  match rounds with
  | O => buf
  | S rounds' =>
      if 16 <=? u
      then fmt_hex rounds' (Z.shiftr u 4) (String (digit (Z.land u 15)) buf)
      else String (digit u) buf
  end.

Fixpoint repeat_char (n : nat) (a : ascii) : string :=
  match n with
  | O => ""
  | S n' => String a (repeat_char n' a)
  end.

Definition strlen (s : string) : Z := Z.of_nat (String.length s).

(** [fmt.Sprintf(format, v)] for an [int] [v] and the [format] that
    [fmt.Sprintf("%%0%dx", width)] builds.  A positive [width] reads as
    the zero flag and a width: lowercase digits of the magnitude, zeros on
    the left up to the width (one less after a minus sign), never cut.
    With [width = 0] the second zero is a flag too and nothing is padded;
    a negative [width] reads as the minus flag, which pads with spaces on
    the right. *)
Definition Sprintf_0x (width v : Z) : string :=
  let negative := v <? 0 in
  let prec := if 0 <? width
              then (if negative then width - 1 else width) else 0 in
  let ds := fmt_hex 16 (Z.abs v) "" in
  let ds := repeat_char (Z.to_nat (prec - strlen ds)) "0" +:+ ds in
  let s := if negative then String "-" ds else ds in
  if width <? 0 then s +:+ repeat_char (Z.to_nat (- width - strlen s)) " " else s.

Definition formatHex (data : list Z) (hexType : string) (blockSize : Z)
    : list string :=
  let result := replicate (List.length data) "" in
  let format := if bool_decide (hexType = "hex8")
                then Sprintf_0x (GoInt.wrap (blockSize * 2))
                else Sprintf_0x 4 in
  assign_each format 0 data result.

Definition GetRandomHex (w : World) (c : QRNGClient)
    (blockCount blockSize : Z) (hexType : string)
    (sent : list http_Request) : ret (list string) :=
  if negb (bool_decide (hexType = "hex8"))
     && negb (bool_decide (hexType = "hex16")) then
    (([], Some ErrInvalidHexType), sent)
  else if (blockSize <? 1) || (10 <? blockSize) then
    (([], Some ErrInvalidBlockSize), sent)
  else
    match doRequest w c blockCount hexType blockSize sent with
    | ((_, Some err), sent') => (([], Some err), sent')
    | ((Some qr, None), sent') =>
        ((formatHex (Data qr) hexType blockSize, None), sent')
    | ((None, None), sent') => (([], None), sent')   (* never: [doRequest_nil] *)
    end.

(** ** The bounded sampler *)

Fixpoint bytesToInt_from (result : Z) (bytes : list Z) : Z :=
  match bytes with
  | [] => result
  | b :: bytes' => bytesToInt_from (Z.lor (GoInt.shl_by result 8) b) bytes'
  end.

Definition bytesToInt (bytes : list Z) : Z := bytesToInt_from 0 bytes.

(** A run of code with loops the source does not bound: it returns, it
    panics, or it is still looping when the rounds granted are used up. *)
Inductive run (A : Type) : Type :=
  | Returns (a : A)
  | Panics
  | Looping.
Arguments Returns {A} a.
Arguments Panics {A}.
Arguments Looping {A}.

(** [for (1 << bitSize) < rangeSize { bitSize++ }] *)
Fixpoint bitSize_loop (rounds : nat) (bitSize rangeSize : Z) : run Z :=
  match rounds with
  | O => Looping
  | S rounds' =>
      match GoInt.shl 1 bitSize with
      | None => Panics
      | Some p =>
          if p <? rangeSize
          then bitSize_loop rounds' (GoInt.add bitSize 1) rangeSize
          else Returns bitSize
      end
  end.

(** The rejection loop [for { ... }]. *)
Fixpoint sample_loop (w : World) (c : QRNGClient) (rounds : nat)
    (min rangeSize requiredBytes mask : Z) (sent : list http_Request)
    : run (Z * option error) * list http_Request :=
  match rounds with
  | O => (Looping, sent)
  | S rounds' =>
      match GetRandomUint8 w c requiredBytes sent with
      | ((_, Some err), sent') => (Returns (0, Some err), sent')
      | ((randomBytes, None), sent') =>
          let randInt := Z.land (bytesToInt randomBytes) mask in
          if randInt <? rangeSize
          then (Returns (GoInt.add min randInt, None), sent')
          else sample_loop w c rounds' min rangeSize requiredBytes mask sent'
      end
  end.

(** [GetRandomNumber] from the check of [bitSize] on. *)
Definition GetRandomNumber_draw (w : World) (c : QRNGClient) (rounds : nat)
    (min rangeSize bitSize : Z) (sent : list http_Request)
    : run (Z * option error) * list http_Request :=
  if maxBits <? bitSize then
    (Returns (0, Some (fmt_Errorf_w
                         (error_text ErrRangeTooLarge
                          +:+ ": maximum supported bits is " +:+ Itoa maxBits)
                         ErrRangeTooLarge)), sent)
  else
    let requiredBytes := GoInt.div (GoInt.add bitSize 7) 8 in
    match GoInt.shl 1 bitSize with
    | None => (Panics, sent)
    | Some p =>
        let mask := GoInt.sub p 1 in
        sample_loop w c rounds min rangeSize requiredBytes mask sent
    end.

Definition rangeSize_of (min max : Z) : Z :=
  GoInt.add (GoInt.sub max min) 1.

Definition GetRandomNumber (w : World) (c : QRNGClient) (rounds : nat)
    (min max : Z) (sent : list http_Request)
    : run (Z * option error) * list http_Request :=
  if max <? min then (Returns (0, Some ErrInvalidRange), sent)
  else
    let rangeSize := rangeSize_of min max in
    if rangeSize <=? 0 then (Returns (0, Some ErrRangeTooLarge), sent)
    else
      match bitSize_loop rounds 1 rangeSize with
      | Looping => (Looping, sent)
      | Panics => (Panics, sent)
      | Returns bitSize =>
          GetRandomNumber_draw w c rounds min rangeSize bitSize sent
      end.

(** ** A service for the examples

    It answers every request with status 200 and a success envelope whose
    data is the given list, as the test servers of the repository do. *)

Definition envelope (ty : string) (data : list Z) : QRNGResponse :=
  {| Type_ := ty; Length := Z.of_nat (List.length data); Success := true;
     Data := data; CompletionTime := ""; Seed := ""; Refresh := false;
     Error := ""; Info := [] |}.

(** An envelope that reports a failure. *)
Definition failed_envelope (msg : string) (data : list Z) : QRNGResponse :=
  {| Type_ := "uint8"; Length := 0; Success := false; Data := data;
     CompletionTime := ""; Seed := ""; Refresh := false;
     Error := msg; Info := [] |}.

Definition serving (qr : QRNGResponse) : World :=
  {| http_NewRequest := fun _ _ => None;
     client_Do := fun _ _ _ =>
       inr {| StatusCode := 200; Body := inr "envelope" |};
     json_Unmarshal := fun _ => inr qr |}.

(** A service that hands out the envelopes of a list one per request, and
    [last] once the list is used up: the body of the [n]-th answer is [n]
    in decimal, and decoding looks it up. *)
Fixpoint decode_nth (qrs : list QRNGResponse) (i : nat) (body : string)
    (last : QRNGResponse) : QRNGResponse :=
  match qrs with
  | [] => last
  | qr :: qrs' =>
      if bool_decide (pretty i = body) then qr
      else decode_nth qrs' (S i) body last
  end.

Definition serving_each (qrs : list QRNGResponse) (last : QRNGResponse)
    : World :=
  {| http_NewRequest := fun _ _ => None;
     client_Do := fun _ sent _ =>
       inr {| StatusCode := 200; Body := inr (pretty (List.length sent)) |};
     json_Unmarshal := fun body => inr (decode_nth qrs 0 body last) |}.

(** ** Vocabulary of the statements *)

(** The request asks for [n] values of type [ty]. *)
Definition asks (n : Z) (ty : string) (req : http_Request) : Prop :=
  Query req !! "length" = Some [Itoa n] /\ Query req !! "type" = Some [ty].

(** The service answers the next request of a client that has sent [sent]
    with status 200 and a body that decodes to the envelope [qr]; the
    client holds the credential it needs and its endpoint parses. *)
Definition answers (w : World) (c : QRNGClient) (sent : list http_Request)
    (qr : QRNGResponse) : Prop :=
  (requiresAPIKey c = true -> APIKey c <> "") /\
  (forall q, http_NewRequest w (APIEndpoint c) q = None) /\
  exists body,
    (forall cl req, client_Do w cl sent req
                    = inr {| StatusCode := http_StatusOK; Body := inr body |}) /\
    json_Unmarshal w body = inr qr.

(** The service answered the request [req], made after [sent], with
    status 200 and a body that decodes to the envelope [qr]. *)
Definition decoded (w : World) (sent : list http_Request)
    (req : http_Request) (qr : QRNGResponse) : Prop :=
  exists cl resp body,
    client_Do w cl sent req = inr resp /\
    StatusCode resp = http_StatusOK /\
    Body resp = inr body /\
    json_Unmarshal w body = inr qr.

(** [b] is the least width, among those from [from] on, whose power of
    two covers [size]. *)
Definition least_width (from size b : Z) : Prop :=
  from <= b /\ size <= 2 ^ b /\
  forall k, from <= k -> size <= 2 ^ k -> b <= k.

(** [n] is the quotient [a / 8] rounded up. *)
Definition ceil8 (a n : Z) : Prop := 8 * (n - 1) < a <= 8 * n.

(** The eight bits of a byte, most significant first, and the unpacking of
    a byte sequence cut to its first [n] bits: the reading of the bit
    accessor's contract, to compare [extractBits] with. *)
Definition msb_first (byteVal : Z) : list Z :=
  map (fun i => Z.b2z (Z.testbit byteVal i)) [7; 6; 5; 4; 3; 2; 1; 0].

Definition unpack_bits (data : list Z) (n : Z) : list Z :=
  take (Z.to_nat n) (concat (map msb_first data)).

(** A lowercase hexadecimal digit and the number a string of them
    denotes. *)
Definition hex_value_of (a : ascii) : option Z :=
  let n := Z.of_nat (nat_of_ascii a) in
  if (48 <=? n) && (n <=? 57) then Some (n - 48)
  else if (97 <=? n) && (n <=? 102) then Some (n - 87)
  else None.

Fixpoint parse_hex_from (acc : Z) (s : string) : option Z :=
  match s with
  | EmptyString => Some acc
  | String a s' =>
      match hex_value_of a with
      | Some d => parse_hex_from (16 * acc + d) s'
      | None => None
      end
  end.

Definition parse_hex (s : string) : option Z := parse_hex_from 0 s.

(** ** The earlier client

    The repository also holds the client as it was before keys, 16-bit
    words and hexadecimal strings were added.  Its loops are written
    inline and its byte accessor checks every value it receives. *)

Module Legacy.

Record QRNGClient : Type := {
  APIEndpoint : string;
  HTTPClient : option http_Client
}.

Definition NewClient : QRNGClient :=
  {| APIEndpoint := "https://qrng.anu.edu.au/API/jsonI.php";
     HTTPClient := Some {| Timeout := 10 * 1000000000 |} |}.

Definition doRequest (w : World) (c : QRNGClient)
    (length : Z) (dataType : string)
    (sent : list http_Request) : ret (option QRNGResponse) :=
  let params := values_Add ∅ "length" (Itoa length) in
  let params := values_Add params "type" dataType in
  let client := match HTTPClient c with
                | None => http_DefaultClient
                | Some cl => cl
                end in
  match http_NewRequest w (APIEndpoint c) params with
  | Some err =>
      ((None, Some (fmt_Errorf_w
                      ("failed to create request: " +:+ error_text err) err)),
       sent)
  | None =>
      let req := {| Method := "GET"; Endpoint := APIEndpoint c;
                    Query := params; Header := ∅ |} in
      let sent' := sent ++ [req] in
      match client_Do w client sent req with
      | inl err =>
          ((None, Some (fmt_Errorf_w
                          ("request failed: " +:+ error_text err) err)),
           sent')
      | inr resp =>
          if negb (StatusCode resp =? http_StatusOK) then
            ((None, Some (fmt_Errorf
                            ("unexpected status code: "
                             +:+ Itoa (StatusCode resp)))), sent')
          else
            match Body resp with
            | inl err =>
                ((None, Some (fmt_Errorf_w
                    ("failed to read response body: " +:+ error_text err)
                    err)), sent')
            | inr body =>
                match json_Unmarshal w body with
                | inl err =>
                    ((None, Some (fmt_Errorf_w
                        ("failed to parse response: " +:+ error_text err)
                        err)), sent')
                | inr qr =>
                    if negb (Success qr) then
                      if negb (bool_decide (Error qr = "")) then
                        ((None, Some (fmt_Errorf
                                        ("api error: " +:+ Error qr))), sent')
                      else
                        ((None, Some (errors_New
                            "api request failed without specific error")),
                         sent')
                    else if Z.of_nat (List.length (Data qr)) <? length then
                      ((None, Some (fmt_Errorf
                          ("insufficient data returned: expected "
                           +:+ Itoa length +:+ ", got "
                           +:+ Itoa (Z.of_nat (List.length (Data qr)))))),
                       sent')
                    else ((Some qr, None), sent')
                end
            end
      end
  end.

(** The inner loop of [GetRandomBits] leaves by [break] once the slice
    holds [numBits] bits; the loop over the bytes tests the length again
    and leaves in the same way. *)
Fixpoint bits_of_byte (idx : list Z) (byteVal : Z) (bits : list Z)
    (numBits : Z) : list Z :=
  match idx with
  | [] => bits
  | i :: idx' =>
      let bit := Z.land (GoInt.shr byteVal i) 1 in
      let bits := bits ++ [bit] in
      if Z.of_nat (List.length bits) =? numBits then bits
      else bits_of_byte idx' byteVal bits numBits
  end.

Fixpoint bits_of_data (data : list Z) (bits : list Z) (numBits : Z)
    : list Z :=
  match data with
  | [] => bits
  | byteVal :: data' =>
      let bits := bits_of_byte [7; 6; 5; 4; 3; 2; 1; 0] byteVal bits numBits in
      if Z.of_nat (List.length bits) =? numBits then bits
      else bits_of_data data' bits numBits
  end.

Definition GetRandomBits (w : World) (c : QRNGClient) (numBits : Z)
    (sent : list http_Request) : ret (list Z) :=
  if (numBits <? 1) || (maxBits <? numBits) then
    (([], Some (fmt_Errorf
                  ("numBits must be between 1 and " +:+ Itoa maxBits))), sent)
  else
    let requiredBytes := GoInt.div (GoInt.add numBits 7) 8 in
    match doRequest w c requiredBytes "uint8" sent with
    | ((_, Some err), sent') => (([], Some err), sent')
    | ((Some qr, None), sent') =>
        ((bits_of_data (Data qr) [] numBits, None), sent')
    | ((None, None), sent') => (([], None), sent')
    end.

(** The loop of [GetRandomUint8]: a value outside 0..255 ends the call
    with an error that names the value and its index. *)
Fixpoint checked_bytes (i : nat) (data : list Z) (randomBytes : list Z)
    : error + list Z :=
  match data with
  | [] => inr randomBytes
  | val :: data' =>
      if (val <? 0) || (255 <? val) then
        inl (fmt_Errorf ("invalid byte value " +:+ Itoa val
                         +:+ " at index " +:+ Itoa (Z.of_nat i)))
      else checked_bytes (S i) data' (<[i := GoInt.uint8 val]> randomBytes)
  end.

Definition GetRandomUint8 (w : World) (c : QRNGClient) (numBytes : Z)
    (sent : list http_Request) : ret (list Z) :=
  if (numBytes <? 1) || (maxUint8Length <? numBytes) then
    (([], Some (fmt_Errorf
                  ("numBytes must be between 1 and " +:+ Itoa maxUint8Length))),
     sent)
  else
    match doRequest w c numBytes "uint8" sent with
    | ((_, Some err), sent') => (([], Some err), sent')
    | ((Some qr, None), sent') =>
        match checked_bytes 0 (Data qr)
                (replicate (List.length (Data qr)) 0) with
        | inl err => (([], Some err), sent')
        | inr randomBytes => ((randomBytes, None), sent')
        end
    | ((None, None), sent') => (([], None), sent')
    end.

(** [for _, b := range randomBytes { randInt = (randInt << 8) | int(b) }] *)
Fixpoint randInt_from (randInt : Z) (randomBytes : list Z) : Z :=
  match randomBytes with
  | [] => randInt
  | b :: rest => randInt_from (Z.lor (GoInt.shl_by randInt 8) b) rest
  end.

Fixpoint sample_loop (w : World) (c : QRNGClient) (rounds : nat)
    (min rangeSize requiredBytes mask : Z) (sent : list http_Request)
    : run (Z * option error) * list http_Request :=
  match rounds with
  | O => (Looping, sent)
  | S rounds' =>
      match GetRandomUint8 w c requiredBytes sent with
      | ((_, Some err), sent') => (Returns (0, Some err), sent')
      | ((randomBytes, None), sent') =>
          let randInt := Z.land (randInt_from 0 randomBytes) mask in
          if randInt <? rangeSize
          then (Returns (GoInt.add min randInt, None), sent')
          else sample_loop w c rounds' min rangeSize requiredBytes mask sent'
      end
  end.

Definition GetRandomNumber (w : World) (c : QRNGClient) (rounds : nat)
    (min max : Z) (sent : list http_Request)
    : run (Z * option error) * list http_Request :=
  if max <? min then (Returns (0, Some ErrInvalidRange), sent)
  else
    let rangeSize := rangeSize_of min max in
    if rangeSize <=? 0 then (Returns (0, Some ErrRangeTooLarge), sent)
    else
      match bitSize_loop rounds 1 rangeSize with
      | Looping => (Looping, sent)
      | Panics => (Panics, sent)
      | Returns bitSize =>
          if maxBits <? bitSize then
            (Returns (0, Some (fmt_Errorf_w
                (error_text ErrRangeTooLarge
                 +:+ ": maximum supported bits is " +:+ Itoa maxBits)
                ErrRangeTooLarge)), sent)
          else
            let requiredBytes := GoInt.div (GoInt.add bitSize 7) 8 in
            match GoInt.shl 1 bitSize with
            | None => (Panics, sent)
            | Some p =>
                let mask := GoInt.sub p 1 in
                sample_loop w c rounds min rangeSize requiredBytes mask sent
            end
      end.

End Legacy.

(** ** Further vocabulary *)

(** The number a byte sequence denotes, most significant byte first, and
    the [n] bytes that denote a number. *)
Definition be_value (bytes : list Z) : Z :=
  fold_left (fun acc b => 256 * acc + b) bytes 0.

Fixpoint be_bytes (n : nat) (r : Z) : list Z :=
  match n with
  | O => []
  | S n' => be_bytes n' (r / 256) ++ [r mod 256]
  end.

(** The number a bit sequence denotes, most significant bit first. *)
Definition bits_value (bits : list Z) : Z :=
  fold_left (fun acc b => 2 * acc + b) bits 0.

(** The service answers the request made after [n] others with the
    envelope [qr]. *)
Definition answers_nth (w : World) (c : QRNGClient) (n : nat)
    (qr : QRNGResponse) : Prop :=
  forall sent, List.length sent = n -> answers w c sent qr.

(** The reading of an envelope as a draw under a width [b]. *)
Definition draw_of (qr : QRNGResponse) (b : Z) : Z :=
  Z.land (bytesToInt (map GoInt.uint8 (Data qr))) (2 ^ b - 1).

(** The client holds the credential it needs and its endpoint parses, but
    the transport fails the request made after [sent] with [err]. *)
Definition transport_fails (w : World) (c : QRNGClient)
    (sent : list http_Request) (err : error) : Prop :=
  (requiresAPIKey c = true -> APIKey c <> "") /\
  (forall q, http_NewRequest w (APIEndpoint c) q = None) /\
  (forall cl req, client_Do w cl sent req = inl err).

(** The service answers the request made after [sent] with the status
    [code] and the body [body]. *)
Definition answers_status (w : World) (c : QRNGClient)
    (sent : list http_Request) (code : Z) (body : string) : Prop :=
  (requiresAPIKey c = true -> APIKey c <> "") /\
  (forall q, http_NewRequest w (APIEndpoint c) q = None) /\
  (forall cl req, client_Do w cl sent req
                  = inr {| StatusCode := code; Body := inr body |}).

(** [answers] for the earlier client, which needs no credential. *)
Definition legacy_answers (w : World) (c : Legacy.QRNGClient)
    (sent : list http_Request) (qr : QRNGResponse) : Prop :=
  (forall q, http_NewRequest w (Legacy.APIEndpoint c) q = None) /\
  exists body,
    (forall cl req, client_Do w cl sent req
                    = inr {| StatusCode := http_StatusOK; Body := inr body |}) /\
    json_Unmarshal w body = inr qr.

(** A service that fails every request with [err], and one that answers
    every request with the status [code] and a body that would decode to
    [qr]. *)
Definition failing (err : error) : World :=
  {| http_NewRequest := fun _ _ => None;
     client_Do := fun _ _ _ => inl err;
     json_Unmarshal := fun _ => inl err |}.

Definition serving_status (code : Z) (qr : QRNGResponse) : World :=
  {| http_NewRequest := fun _ _ => None;
     client_Do := fun _ _ _ =>
       inr {| StatusCode := code; Body := inr "envelope" |};
     json_Unmarshal := fun _ => inr qr |}.

(** The request made after [n] others is answered with the success
    envelope [qr], which holds enough values for a draw of width [b]. *)
Definition draws_as (w : World) (c : QRNGClient) (b : Z) (n : nat)
    (qr : QRNGResponse) : Prop :=
  answers_nth w c n qr /\ Success qr = true /\
  (b + 7) / 8 <= Z.of_nat (List.length (Data qr)).

(** What [GetRandomHex] writes for a value [v] under a width: never fewer
    characters than the width; for a non-negative [v] lowercase digits
    that denote [v], exactly [width] of them when [v] is below
    [16^width] and more when it is not; for a negative [v] a minus sign
    and digits that denote its magnitude. *)
Definition written_in_hex (width v : Z) (s : string) : Prop :=
  width <= strlen s /\
  (0 <= v -> parse_hex s = Some v) /\
  (0 <= v < 16 ^ width -> strlen s = width) /\
  (16 ^ width <= v -> width < strlen s) /\
  (v < 0 -> exists digits,
      s = String "-" digits /\ parse_hex digits = Some (- v)).

(** * Properties *)

(** ** Arithmetic of [int] *)

Section GoIntFacts.

Import GoInt.

Lemma wrap_in_range (z : Z) : in_range (wrap z).
Proof.
  unfold in_range, wrap, min_int, max_int.
  pose proof (Z.mod_pos_bound (z + 2 ^ 63) (2 ^ 64) eq_refl). lia.
Qed.

Lemma wrap_exact (z : Z) : in_range z -> wrap z = z.
Proof.
  unfold in_range, wrap, min_int, max_int. intros Hz.
  rewrite Z.mod_small; lia.
Qed.

(** Wrapping an intermediate result does not change the wrapped sum. *)
Lemma wrap_add_wrap (a b : Z) : wrap (wrap a + b) = wrap (a + b).
Proof.
  unfold wrap.
  replace ((a + 2 ^ 63) mod 2 ^ 64 - 2 ^ 63 + b + 2 ^ 63)
    with ((a + 2 ^ 63) mod 2 ^ 64 + b) by lia.
  rewrite Z.add_mod_idemp_l by discriminate.
  do 2 f_equal. lia.
Qed.

Lemma pow2_le_62 (s : Z) : 0 <= s <= 62 -> 1 <= 2 ^ s <= 2 ^ 62.
Proof.
  intros Hs. split.
  - pose proof (Z.pow_pos_nonneg 2 s). lia.
  - apply Z.pow_le_mono_r; lia.
Qed.

(** [1 << s] in the three regions of a non-negative count. *)
Lemma shl_1_small (s : Z) : 0 <= s <= 62 -> shl 1 s = Some (2 ^ s).
Proof.
  intros Hs. unfold shl, shl_by, bits.
  destruct (Z.ltb_spec s 0); [lia|].
  destruct (Z.leb_spec 64 s); [lia|].
  rewrite Z.shiftl_1_l, wrap_exact; [done|].
  pose proof (pow2_le_62 s Hs).
  unfold in_range, min_int, max_int. change (2 ^ 63) with (2 * 2 ^ 62). lia.
Qed.

Lemma shl_1_large (s : Z) : 63 <= s -> exists p, shl 1 s = Some p /\ p <= 0.
Proof.
  intros Hs. unfold shl, shl_by, bits.
  destruct (Z.ltb_spec s 0); [lia|].
  destruct (Z.leb_spec 64 s).
  - exists 0. split; [done | lia].
  - assert (s = 63) as -> by lia. eexists. split; [done|]. by vm_compute.
Qed.

Lemma shl_negative (a s : Z) : s < 0 -> shl a s = None.
Proof. intros Hs. unfold shl. destruct (Z.ltb_spec s 0); [done | lia]. Qed.

(** With [min <= max] a positive [rangeSize] is the exact size. *)
Lemma rangeSize_of_exact (min max : Z) :
  in_range min -> in_range max -> min <= max ->
  0 < rangeSize_of min max ->
  rangeSize_of min max = max - min + 1.
Proof.
  unfold rangeSize_of, add, sub. intros Hmin Hmax Hle.
  rewrite wrap_add_wrap.
  unfold in_range, min_int, max_int, wrap in *. intros Hpos.
  destruct (Z.le_gt_cases (2 ^ 63) (max - min + 1)) as [Hbig|Hsmall].
  - exfalso.
    destruct (Z.eq_dec (max - min + 1) (2 ^ 64)) as [E|E].
    + rewrite E in Hpos. vm_compute in Hpos. discriminate.
    + replace (max - min + 1 + 2 ^ 63)
        with ((max - min + 1 - 2 ^ 63) + 1 * 2 ^ 64) in Hpos by lia.
      rewrite Z.mod_add in Hpos by discriminate.
      rewrite Z.mod_small in Hpos; lia.
  - rewrite Z.mod_small; lia.
Qed.

(** The subtraction overflows exactly when the wrapped size is not
    positive. *)
Lemma rangeSize_of_overflow (min max : Z) :
  in_range min -> in_range max -> min <= max ->
  rangeSize_of min max <= 0 <-> max_int < max - min + 1.
Proof.
  intros Hmin Hmax Hle. split.
  - intros Hnp.
    destruct (Z.lt_ge_cases max_int (max - min + 1)) as [|Hfit]; [done|].
    assert (in_range (max - min + 1)) as Hr
      by (unfold in_range, min_int, max_int in *; lia).
    unfold rangeSize_of, add, sub in Hnp.
    rewrite wrap_add_wrap, (wrap_exact _ Hr) in Hnp. lia.
  - intros Hbig.
    destruct (Z.le_gt_cases (rangeSize_of min max) 0) as [|Hpos]; [done|].
    pose proof (rangeSize_of_exact min max Hmin Hmax Hle Hpos) as E.
    pose proof (wrap_in_range (wrap (max - min) + 1)) as Hr.
    unfold rangeSize_of, add, sub in E. rewrite E in Hr.
    unfold in_range in Hr. lia.
Qed.

End GoIntFacts.

(** ** The bit width loop *)

Section BitSize.

Import GoInt.

Lemma bitSize_next (b : Z) :
  in_range b -> b < max_int -> add b 1 = b + 1.
Proof.
  intros Hb Hlt. unfold add. apply wrap_exact.
  unfold in_range, min_int, max_int in *. lia.
Qed.

Lemma bitSize_next_last : add max_int 1 = min_int.
Proof. by vm_compute. Qed.

(** What the loop returns: it never moves below where it started, the
    power of two reached covers the range, and no width passed on the
    way did. *)
Lemma bitSize_loop_returns (rounds : nat) (start rangeSize b : Z) :
  0 <= start -> in_range start -> 0 < rangeSize ->
  bitSize_loop rounds start rangeSize = Returns b ->
  start <= b <= 62 /\ rangeSize <= 2 ^ b /\
  (forall k, start <= k < b -> 2 ^ k < rangeSize).
Proof.
  revert start. induction rounds as [|rounds IH]; intros start H0 Hr Hpos;
    cbn [bitSize_loop]; [discriminate|].
  destruct (Z.le_gt_cases start 62) as [Hsmall|Hlarge].
  - rewrite shl_1_small by lia.
    destruct (Z.ltb_spec (2 ^ start) rangeSize) as [Hlt|Hge].
    + assert (start < max_int) as Hmax by (unfold max_int; lia).
      rewrite (bitSize_next start Hr Hmax). intros Hret.
      apply IH in Hret; [|lia| |done].
      * destruct Hret as (Hb & Hcover & Hmin). repeat split; try lia.
        intros k Hk. destruct (Z.eq_dec k start) as [->|]; [done|].
        apply Hmin. lia.
      * unfold in_range, min_int, max_int in *. lia.
    + intros [= <-]. repeat split; try lia.
  - destruct (shl_1_large start) as (p & -> & Hp); [lia|].
    destruct (Z.ltb_spec p rangeSize) as [_|]; [|lia].
    destruct (Z.eq_dec start max_int) as [->|Hne].
    + rewrite bitSize_next_last. destruct rounds; cbn [bitSize_loop].
      * discriminate.
      * rewrite shl_negative by (by vm_compute). discriminate.
    + assert (start < max_int) as Hmax by (unfold in_range in Hr; lia).
      rewrite (bitSize_next start Hr Hmax). intros Hret.
      apply IH in Hret; [lia|lia| |done].
      unfold in_range, min_int, max_int in *. lia.
Qed.

(** Up to [2^62] the loop finds its width within 62 rounds. *)
Lemma bitSize_loop_finds (rounds : nat) (start rangeSize : Z) :
  0 <= start <= 62 -> rangeSize <= 2 ^ 62 ->
  (62 - start < Z.of_nat rounds) ->
  exists b, bitSize_loop rounds start rangeSize = Returns b.
Proof.
  revert start. induction rounds as [|rounds IH]; intros start Hs Hrs Hn;
    [lia|].
  cbn [bitSize_loop]. rewrite shl_1_small by lia.
  destruct (Z.ltb_spec (2 ^ start) rangeSize) as [Hlt|Hge]; [|by eexists].
  assert (start <> 62) by (intros ->; lia).
  rewrite bitSize_next.
  - apply IH; lia.
  - unfold in_range, min_int, max_int. lia.
  - unfold max_int. lia.
Qed.

(** Above [2^62] no power of two that fits an [int] covers the range:
    [1 << 63] is negative and every further shift is zero, so the loop
    never returns (it spins until [bitSize] itself overflows, where the
    negative shift count panics). *)
Lemma bitSize_loop_spins (rounds : nat) (start rangeSize b : Z) :
  in_range start -> 2 ^ 62 < rangeSize ->
  bitSize_loop rounds start rangeSize <> Returns b.
Proof.
  revert start. induction rounds as [|rounds IH]; intros start Hr Hbig;
    cbn [bitSize_loop]; [discriminate|].
  destruct (Z.lt_ge_cases start 0) as [Hneg|Hnn].
  { rewrite shl_negative by done. discriminate. }
  assert (exists p, shl 1 start = Some p /\ p < rangeSize)
    as (p & -> & Hp).
  { destruct (Z.le_gt_cases start 62).
    - exists (2 ^ start). split; [apply shl_1_small; lia|].
      pose proof (pow2_le_62 start). lia.
    - destruct (shl_1_large start) as (p & E & Hp0); [lia|].
      exists p. split; [done|]. lia. }
  destruct (Z.ltb_spec p rangeSize); [|lia].
  apply IH; [apply wrap_in_range | done].
Qed.

End BitSize.

(** ** Reshaping loops and the round trip *)

Lemma assign_each_app {A : Type} (f : Z -> A) (d : A) (filled : list A)
    (data : list Z) :
  assign_each f (List.length filled) data
    (filled ++ replicate (List.length data) d) = filled ++ map f data.
Proof.
  revert filled. induction data as [|v data IH]; intros filled.
  { reflexivity. }
  cbn [assign_each List.length replicate map].
  replace (<[List.length filled := f v]>
             (filled ++ d :: replicate (List.length data) d))
    with ((filled ++ [f v]) ++ replicate (List.length data) d).
  - replace (S (List.length filled)) with (List.length (filled ++ [f v]))
      by (rewrite length_app; cbn; lia).
    rewrite IH, <- app_assoc. reflexivity.
  - rewrite insert_app_r_alt by lia.
    rewrite Nat.sub_diag, <- app_assoc. reflexivity.
Qed.

(** The indexed loop fills the slice with the images, in order. *)
Lemma assign_each_map {A : Type} (f : Z -> A) (d : A) (data : list Z) :
  assign_each f 0 data (replicate (List.length data) d) = map f data.
Proof. exact (assign_each_app f d [] data). Qed.

Lemma convertUint8_map (data : list Z) :
  convertUint8 data = map GoInt.uint8 data.
Proof. apply assign_each_map. Qed.

Lemma convertUint16_map (data : list Z) :
  convertUint16 data = map GoInt.uint16 data.
Proof. apply assign_each_map. Qed.

Lemma formatHex_map (data : list Z) (hexType : string) (blockSize : Z) :
  formatHex data hexType blockSize =
  map (if bool_decide (hexType = "hex8")
       then Sprintf_0x (GoInt.wrap (blockSize * 2)) else Sprintf_0x 4) data.
Proof. apply assign_each_map. Qed.

(** [doRequest] returns an envelope or an error, never both and never
    neither; it hands at most one request to the transport. *)
Lemma doRequest_cases (w : World) (c : QRNGClient) (length : Z)
    (dataType : string) (blockSize : Z) (sent : list http_Request) :
  exists sent',
    (sent' = sent \/ exists req, sent' = sent ++ [req]) /\
    ((exists err, doRequest w c length dataType blockSize sent
                  = ((None, Some err), sent')) \/
     (exists qr, doRequest w c length dataType blockSize sent
                 = ((Some qr, None), sent') /\
                 Success qr = true /\
                 length <= Z.of_nat (List.length (Data qr)))).
Proof.
  unfold doRequest.
  destruct (requiresAPIKey c && bool_decide (APIKey c = "")); [by eauto 7|].
  destruct (http_NewRequest w _ _); [by eauto 7|].
  destruct (client_Do w _ _ _) as [err|resp]; [by eauto 8|].
  destruct (negb (StatusCode resp =? http_StatusOK)).
  { destruct (Body resp); by eauto 8. }
  destruct (Body resp) as [err|body]; [by eauto 8|].
  destruct (json_Unmarshal w body) as [err|qr]; [by eauto 8|].
  destruct (Success qr) eqn:Hs; cbn [negb].
  - destruct (Z.ltb_spec (Z.of_nat (List.length (Data qr))) length).
    + by eauto 8.
    + eexists. split; [right; by eexists|]. right. exists qr. done.
  - destruct (negb (bool_decide (Error qr = ""))); by eauto 8.
Qed.

Lemma doRequest_nil (w : World) (c : QRNGClient) (length : Z)
    (dataType : string) (blockSize : Z) (sent sent' : list http_Request) :
  doRequest w c length dataType blockSize sent <> ((None, None), sent').
Proof.
  destruct (doRequest_cases w c length dataType blockSize sent)
    as (s & _ & [(err & ->)|(qr & -> & _)]); congruence.
Qed.

(** ** The sampler stays within its bounds *)

(** A successful return of the rejection loop is [min] plus a masked draw
    that passed the test against [rangeSize]. *)
Lemma sample_loop_returns (w : World) (c : QRNGClient) (rounds : nat)
    (min rangeSize requiredBytes mask : Z) (sent sent' : list http_Request)
    (v : Z) :
  sample_loop w c rounds min rangeSize requiredBytes mask sent
    = (Returns (v, None), sent') ->
  exists draw, v = GoInt.add min (Z.land draw mask) /\
               Z.land draw mask < rangeSize.
Proof.
  revert sent. induction rounds as [|rounds IH]; intros sent;
    cbn [sample_loop]; [discriminate|].
  destruct (GetRandomUint8 w c requiredBytes sent) as [[bytes [err|]] s].
  - discriminate.
  - destruct (Z.ltb_spec (Z.land (bytesToInt bytes) mask) rangeSize).
    + intros [= <- <-]. by eexists.
    + apply IH.
Qed.

(** C1. Whenever [GetRandomNumber min max] with [min <= max] returns
    without an error, the value lies in [[min, max]], whatever the service
    sent and however many draws were rejected; and with [min = 0],
    [max = 255] and the byte 127 from the service the result is 127. *)
Theorem GetRandomNumber_within_bounds :
  (forall (w : World) (c : QRNGClient) (rounds : nat) (min max : Z)
          (sent sent' : list http_Request) (v : Z),
      GoInt.in_range min -> GoInt.in_range max -> min <= max ->
      GetRandomNumber w c rounds min max sent = (Returns (v, None), sent') ->
      min <= v <= max) /\
  (forall rounds : nat, (8 <= rounds)%nat ->
      (GetRandomNumber (serving (envelope "uint8" [127])) NewClient
         rounds 0 255 []).1 = Returns (127, None)).
Proof.
  split.
  - intros w c rounds min max sent sent' v Hmin Hmax Hle.
    unfold GetRandomNumber.
    destruct (Z.ltb_spec max min); [lia|].
    destruct (Z.leb_spec (rangeSize_of min max) 0) as [|Hpos]; [discriminate|].
    pose proof (rangeSize_of_exact min max Hmin Hmax Hle Hpos) as Hsize.
    destruct (bitSize_loop rounds 1 (rangeSize_of min max)) as [b| |] eqn:Hb;
      [|discriminate..].
    apply bitSize_loop_returns in Hb as (Hb & _ & _);
      [|lia|by vm_compute|done].
    unfold GetRandomNumber_draw.
    destruct (maxBits <? b); [discriminate|].
    rewrite shl_1_small by lia.
    intros Hret. apply sample_loop_returns in Hret as (draw & -> & Hlt).
    assert (0 <= Z.land draw (GoInt.sub (2 ^ b) 1)) as Hnn.
    { apply Z.land_nonneg. right. unfold GoInt.sub.
      pose proof (pow2_le_62 b ltac:(lia)).
      rewrite wrap_exact; [lia|].
      unfold GoInt.in_range, GoInt.min_int, GoInt.max_int.
      change (2 ^ 63) with (2 * 2 ^ 62). lia. }
    unfold GoInt.add. rewrite wrap_exact; [lia|].
    unfold GoInt.in_range in *. lia.
  - intros rounds Hr.
    do 8 (destruct rounds as [|rounds]; [lia|]). reflexivity.
Qed.

(** A draw that is rejected costs one more request: for [[1, 100]] the
    width is 7; the first byte 127 reads as 127 and is discarded, the
    second answer [[5, 9]] reads as [1289 & 127 = 9] and gives 10. *)
Example GetRandomNumber_rejects_then_accepts :
  let run := GetRandomNumber
               (serving_each [envelope "uint8" [127]; envelope "uint8" [5; 9]]
                             (envelope "uint8" [0]))
               NewClient 62 1 100 [] in
  run.1 = Returns (10, None) /\ List.length run.2 = 2%nat.
Proof. split; reflexivity. Qed.

Lemma GetRandomNumber_within_bounds_byte_127 :
  (GetRandomNumber (serving (envelope "uint8" [127])) NewClient 8 0 255 []).1
    = Returns (127, None) /\ 0 <= 127 <= 255.
Proof.
  split; [reflexivity|].
  destruct (GetRandomNumber (serving (envelope "uint8" [127])) NewClient
              8 0 255 []) as [r s] eqn:E.
  assert (r = Returns (127, None)) as ->
    by (change r with (r, s).1; rewrite <- E; reflexivity).
  refine (proj1 GetRandomNumber_within_bounds _ _ _ _ _ _ _ _ _ _ _ E);
    (by vm_compute) || lia.
Defined.

(** ** What is put on the wire *)

Lemma values_Add_fresh (k v : string) :
  values_Add ∅ k v = {[k := [v]]}.
Proof. unfold values_Add. by rewrite lookup_empty. Qed.

Lemma query_asks (length : Z) (dataType : string) (blockSize : Z)
    (method endpoint : string) (header : gmap string (list string)) :
  asks length dataType
    {| Method := method; Endpoint := endpoint;
       Query :=
         if HasPrefix dataType "hex" && (0 <? blockSize)
         then values_Add (<["length" := [Itoa length]]>
                            (<["type" := [dataType]]> ∅))
                         "size" (Itoa blockSize)
         else <["length" := [Itoa length]]> (<["type" := [dataType]]> ∅);
       Header := header |}.
Proof.
  unfold asks, values_Add. cbn [Query].
  destruct (HasPrefix dataType "hex" && (0 <? blockSize));
    split; by simplify_map_eq.
Qed.

(** Every call of [doRequest] leaves the log as it was or adds the one
    request it built: a request for [length] values of [dataType], with the
    credential header exactly when the client requires a key. *)
Lemma doRequest_sent (w : World) (c : QRNGClient) (length : Z)
    (dataType : string) (blockSize : Z) (sent : list http_Request) :
  (doRequest w c length dataType blockSize sent).2 = sent \/
  exists req,
    (doRequest w c length dataType blockSize sent).2 = sent ++ [req] /\
    asks length dataType req /\
    Header req = (if requiresAPIKey c
                  then {["x-api-key" := [APIKey c]]} else ∅).
Proof.
  unfold doRequest. cbv zeta.
  destruct (requiresAPIKey c && bool_decide (APIKey c = "")); [by left|].
  destruct (http_NewRequest w _ _); [by left|].
  match goal with
  | |- context [client_Do w _ sent ?r] => set (req := r)
  end.
  right. exists req. split; [|split; [apply query_asks|]].
  - destruct (client_Do w _ sent req); [reflexivity|].
    repeat case_match; reflexivity.
  - cbn [Header req]. destruct (requiresAPIKey c); [|done].
    apply values_Add_fresh.
Qed.

(** When the service answers with an envelope, [doRequest] sends its one
    request and its result is decided by the envelope alone. *)
Lemma doRequest_answered (w : World) (c : QRNGClient) (length : Z)
    (dataType : string) (blockSize : Z) (sent : list http_Request)
    (qr : QRNGResponse) :
  answers w c sent qr ->
  exists req,
    asks length dataType req /\
    Header req = (if requiresAPIKey c
                  then {["x-api-key" := [APIKey c]]} else ∅) /\
    doRequest w c length dataType blockSize sent =
      (if negb (Success qr) then
         if negb (bool_decide (Error qr = ""))
         then (None, Some (fmt_Errorf ("api error: " +:+ Error qr)))
         else (None, Some (errors_New "api request failed"))
       else if Z.of_nat (List.length (Data qr)) <? length then
         (None, Some (fmt_Errorf
                        ("insufficient data: expected " +:+ Itoa length
                         +:+ ", got "
                         +:+ Itoa (Z.of_nat (List.length (Data qr))))))
       else (Some qr, None),
       sent ++ [req]).
Proof.
  intros (Hkey & Hurl & body & Hdo & Hjson).
  unfold doRequest.
  assert (requiresAPIKey c && bool_decide (APIKey c = "") = false) as ->.
  { destruct (requiresAPIKey c); [|done]. cbn.
    apply bool_decide_eq_false. by apply Hkey. }
  cbv zeta. rewrite Hurl, Hdo. cbn [StatusCode Body].
  rewrite Z.eqb_refl. cbn [negb]. rewrite Hjson.
  match goal with
  | |- context [sent ++ [?r]] => set (req := r)
  end.
  exists req. split; [apply query_asks|]. split.
  - cbn [Header req]. destruct (requiresAPIKey c); [|done].
    apply values_Add_fresh.
  - repeat case_match; reflexivity.
Qed.

Lemma serving_answers (qr : QRNGResponse) (c : QRNGClient)
    (sent : list http_Request) :
  (requiresAPIKey c = true -> APIKey c <> "") ->
  answers (serving qr) c sent qr.
Proof.
  intros Hkey. split; [done|]. split; [done|].
  exists "envelope". by split.
Qed.

Lemma GetRandomUint8_sent (w : World) (c : QRNGClient) (numBytes : Z)
    (sent : list http_Request) :
  (GetRandomUint8 w c numBytes sent).2 = sent \/
  exists req, (GetRandomUint8 w c numBytes sent).2 = sent ++ [req] /\
              asks numBytes "uint8" req.
Proof.
  unfold GetRandomUint8.
  destruct ((numBytes <? 1) || (maxUint8Length <? numBytes)); [by left|].
  destruct (doRequest_sent w c numBytes "uint8" 0 sent)
    as [E|(req & E & Hasks & _)];
    [left | right; exists req; split; [|done]];
    destruct (doRequest w c numBytes "uint8" 0 sent) as [[[qr|] [err|]] s];
    exact E.
Qed.

(** Every request of the rejection loop asks for [requiredBytes] bytes. *)
Lemma sample_loop_sent (w : World) (c : QRNGClient) (rounds : nat)
    (min rangeSize requiredBytes mask : Z) (sent : list http_Request) :
  exists new,
    (sample_loop w c rounds min rangeSize requiredBytes mask sent).2
      = sent ++ new /\
    Forall (asks requiredBytes "uint8") new.
Proof.
  revert sent. induction rounds as [|rounds IH]; intros sent;
    cbn [sample_loop].
  { exists []. by rewrite app_nil_r. }
  assert (exists one, (GetRandomUint8 w c requiredBytes sent).2 = sent ++ one
                      /\ Forall (asks requiredBytes "uint8") one)
    as (one & Hone & Hasks).
  { destruct (GetRandomUint8_sent w c requiredBytes sent)
      as [E|(req & E & Hreq)].
    - exists []. by rewrite app_nil_r.
    - exists [req]. split; [done|]. by constructor. }
  destruct (GetRandomUint8 w c requiredBytes sent) as [[bytes [err|]] s];
    cbn [snd] in Hone; subst s.
  - by exists one.
  - destruct (Z.land (bytesToInt bytes) mask <? rangeSize); [by exists one|].
    destruct (IH (sent ++ one)) as (more & -> & Hmore).
    exists (one ++ more). split; [by rewrite app_assoc|].
    by apply Forall_app.
Qed.

(** ** The bit width *)

Lemma requiredBytes_ceil8 (b : Z) :
  1 <= b <= 8192 ->
  GoInt.div (GoInt.add b 7) 8 = (b + 7) / 8 /\ ceil8 b ((b + 7) / 8).
Proof.
  intros Hb. unfold GoInt.div, GoInt.add, ceil8.
  rewrite wrap_exact by (unfold GoInt.in_range, GoInt.min_int, GoInt.max_int; lia).
  rewrite Z.quot_div_nonneg by lia.
  split; [done|].
  pose proof (Z.div_mod (b + 7) 8 ltac:(lia)).
  pose proof (Z.mod_pos_bound (b + 7) 8 ltac:(lia)). lia.
Qed.

(** With a range of at most [2^62] values the width loop returns within
    62 rounds, and [GetRandomNumber] is the rejection loop on that width:
    [(b + 7) / 8] bytes per draw under the mask [2^b - 1]. *)
Lemma GetRandomNumber_draws (w : World) (c : QRNGClient)
    (rounds : nat) (min max : Z) (sent : list http_Request) :
  GoInt.in_range min -> GoInt.in_range max -> min <= max ->
  max - min + 1 <= 2 ^ 62 -> (62 <= rounds)%nat ->
  exists b,
    bitSize_loop rounds 1 (rangeSize_of min max) = Returns b /\
    1 <= b <= 62 /\ max - min + 1 <= 2 ^ b /\
    (forall k, 1 <= k < b -> 2 ^ k < max - min + 1) /\
    GetRandomNumber w c rounds min max sent
      = sample_loop w c rounds min (max - min + 1)
          ((b + 7) / 8) (2 ^ b - 1) sent.
Proof.
  intros Hmin Hmax Hle Hsize Hrounds.
  assert (GoInt.in_range (max - min + 1)) as Hr.
  { unfold GoInt.in_range, GoInt.min_int, GoInt.max_int.
    change (2 ^ 63) with (2 * 2 ^ 62). lia. }
  assert (rangeSize_of min max = max - min + 1) as Hexact.
  { unfold rangeSize_of, GoInt.add, GoInt.sub.
    by rewrite wrap_add_wrap, wrap_exact. }
  destruct (bitSize_loop_finds rounds 1 (rangeSize_of min max))
    as (b & Hb); [lia|lia|lia|].
  pose proof Hb as Hspec.
  apply bitSize_loop_returns in Hspec as (Hrange & Hcover & Hleast);
    [|lia|by vm_compute|lia].
  rewrite Hexact in *.
  destruct (requiredBytes_ceil8 b ltac:(lia)) as (Hbytes & _).
  exists b. do 4 (split; [done|]).
  unfold GetRandomNumber. rewrite Hexact, Hb.
  destruct (Z.ltb_spec max min); [lia|].
  destruct (Z.leb_spec (max - min + 1) 0); [lia|].
  unfold GetRandomNumber_draw.
  destruct (Z.ltb_spec maxBits b) as [Hbig|_].
  { unfold maxBits, maxUint8Length in Hbig. lia. }
  rewrite shl_1_small, Hbytes by lia.
  unfold GoInt.sub. rewrite wrap_exact; [done|].
  pose proof (pow2_le_62 b ltac:(lia)).
  unfold GoInt.in_range, GoInt.min_int, GoInt.max_int.
  change (2 ^ 63) with (2 * 2 ^ 62). lia.
Qed.

(** C2, as the code has it.  For [min <= max] with a range of at most
    [2^62] values, [GetRandomNumber] computes the least width [b >= 1]
    whose power of two covers the range (so 1, not 0, for a range of one
    value), masks with [2^b - 1], and every draw asks for [ceil(b/8)]
    values of type [uint8]. *)
Theorem GetRandomNumber_bit_width (w : World) (c : QRNGClient)
    (rounds : nat) (min max : Z) (sent : list http_Request) :
  GoInt.in_range min -> GoInt.in_range max -> min <= max ->
  max - min + 1 <= 2 ^ 62 -> (62 <= rounds)%nat ->
  exists b n,
    bitSize_loop rounds 1 (rangeSize_of min max) = Returns b /\
    least_width 1 (max - min + 1) b /\
    ceil8 b n /\
    GetRandomNumber w c rounds min max sent
      = sample_loop w c rounds min (max - min + 1) n (2 ^ b - 1) sent /\
    exists new,
      (GetRandomNumber w c rounds min max sent).2 = sent ++ new /\
      Forall (asks n "uint8") new.
Proof.
  intros Hmin Hmax Hle Hsize Hrounds.
  destruct (GetRandomNumber_draws w c rounds min max sent
              Hmin Hmax Hle Hsize Hrounds)
    as (b & Hb & Hrange & Hcover & Hleast & Hrun).
  destruct (requiredBytes_ceil8 b ltac:(lia)) as (_ & Hceil).
  exists b, ((b + 7) / 8).
  split; [done|]. split; [|split; [done|split; [done|]]].
  - split; [lia|]. split; [done|]. intros k Hk Hcov.
    destruct (Z.le_gt_cases b k) as [|Hlt]; [done|].
    specialize (Hleast k ltac:(lia)). lia.
  - rewrite Hrun. apply sample_loop_sent.
Qed.

Lemma GetRandomNumber_bit_width_1_to_100 :
  exists b n,
    bitSize_loop 62 1 (rangeSize_of 1 100) = Returns b /\
    least_width 1 (100 - 1 + 1) b /\
    ceil8 b n /\
    GetRandomNumber (serving (envelope "uint8" [57])) NewClient 62 1 100 []
      = sample_loop (serving (envelope "uint8" [57])) NewClient 62 1
          (100 - 1 + 1) n (2 ^ b - 1) [] /\
    exists new,
      (GetRandomNumber (serving (envelope "uint8" [57])) NewClient
         62 1 100 []).2 = [] ++ new /\
      Forall (asks n "uint8") new.
Proof.
  apply (GetRandomNumber_bit_width (serving (envelope "uint8" [57]))
           NewClient 62 1 100 []); (by vm_compute) || lia.
Defined.

(** C2, as stated, fails for a range of one value: the loop starts at
    width 1 and returns it, although [2^0] already covers the range. *)
Lemma bitSize_of_one_value_not_least :
  rangeSize_of 0 0 = 1 /\
  (forall rounds b,
      bitSize_loop rounds 1 (rangeSize_of 0 0) = Returns b -> b = 1) /\
  bitSize_loop 1 1 (rangeSize_of 0 0) = Returns 1 /\
  least_width 0 (rangeSize_of 0 0) 0 /\
  ~ least_width 0 (rangeSize_of 0 0) 1.
Proof.
  split; [reflexivity|]. split; [|split; [reflexivity|split]].
  - intros [|rounds] b; [discriminate|]. by intros [= <-].
  - split; [lia|]. split; [by vm_compute|]. intros k Hk _. exact Hk.
  - intros (_ & _ & Hleast). specialize (Hleast 0 ltac:(lia)).
    assert (rangeSize_of 0 0 <= 2 ^ 0) as H by (by vm_compute).
    specialize (Hleast H). lia.
Qed.

(** Beyond [2^62] values the width loop never returns, so neither does
    [GetRandomNumber]: for instance for the range [[0, 2^62]]. *)
Lemma GetRandomNumber_spins_on_wide_ranges (w : World) (c : QRNGClient)
    (rounds : nat) (min max : Z) (sent : list http_Request)
    (r : Z * option error) (sent' : list http_Request) :
  GoInt.in_range min -> GoInt.in_range max -> min <= max ->
  2 ^ 62 < max - min + 1 <= GoInt.max_int ->
  GetRandomNumber w c rounds min max sent <> (Returns r, sent').
Proof.
  intros Hmin Hmax Hle Hsize.
  assert (rangeSize_of min max = max - min + 1) as Hexact.
  { unfold rangeSize_of, GoInt.add, GoInt.sub.
    rewrite wrap_add_wrap, wrap_exact; [done|].
    unfold GoInt.in_range, GoInt.min_int, GoInt.max_int in *. lia. }
  unfold GetRandomNumber. rewrite Hexact.
  destruct (Z.ltb_spec max min); [lia|].
  destruct (Z.leb_spec (max - min + 1) 0); [lia|].
  destruct (bitSize_loop rounds 1 (max - min + 1)) as [b| |] eqn:Hb;
    [|discriminate..].
  exfalso. revert Hb. apply bitSize_loop_spins; [by vm_compute | lia].
Qed.

(** ** Ranges that are refused *)

(** The check of [bitSize] against [maxBits] never fires: a width the
    loop returns is at most 62. *)
Lemma bitSize_check_unreachable (rounds : nat) (rangeSize b : Z) :
  0 < rangeSize ->
  bitSize_loop rounds 1 rangeSize = Returns b -> b <= 62 /\ b < maxBits.
Proof.
  intros Hpos Hb.
  apply bitSize_loop_returns in Hb as (Hb & _); [|lia|by vm_compute|done].
  unfold maxBits, maxUint8Length. lia.
Qed.

(** C3. [GetRandomNumber] returns the range error when [min > max], the
    range-too-large error when [max - min + 1] overflows to a value that
    is not positive, and, from the check of the width on, the (wrapped)
    range-too-large error for every width above 8192, also when that
    width is the one its own loop returned; each time at once, whatever
    the rounds granted, and with nothing handed to the transport. *)
Theorem GetRandomNumber_refused_ranges (w : World) (c : QRNGClient)
    (rounds : nat) (min max : Z) (sent : list http_Request) :
  (max < min ->
   GetRandomNumber w c rounds min max sent
     = (Returns (0, Some ErrInvalidRange), sent)) /\
  (GoInt.in_range min -> GoInt.in_range max -> min <= max ->
   GoInt.max_int < max - min + 1 ->
   rangeSize_of min max <= 0 /\
   GetRandomNumber w c rounds min max sent
     = (Returns (0, Some ErrRangeTooLarge), sent)) /\
  (forall rangeSize bitSize, maxBits < bitSize ->
   exists err,
     GetRandomNumber_draw w c rounds min rangeSize bitSize sent
       = (Returns (0, Some err), sent) /\
     errors_Is err ErrRangeTooLarge = true) /\
  (forall bitSize, min <= max -> 0 < rangeSize_of min max ->
   bitSize_loop rounds 1 (rangeSize_of min max) = Returns bitSize ->
   maxBits < bitSize ->
   exists err,
     GetRandomNumber w c rounds min max sent = (Returns (0, Some err), sent) /\
     errors_Is err ErrRangeTooLarge = true).
Proof.
  assert (forall rangeSize bitSize, maxBits < bitSize ->
          exists err,
            GetRandomNumber_draw w c rounds min rangeSize bitSize sent
              = (Returns (0, Some err), sent) /\
            errors_Is err ErrRangeTooLarge = true) as Hwidth.
  { intros rangeSize bitSize Hbig. unfold GetRandomNumber_draw.
    destruct (Z.ltb_spec maxBits bitSize); [|lia].
    eexists. split; reflexivity. }
  split; [|split; [|split; [exact Hwidth|]]]; cycle 2.
  { intros bitSize Hle Hpos Hloop Hbig. unfold GetRandomNumber.
    destruct (Z.ltb_spec max min); [lia|].
    destruct (Z.leb_spec (rangeSize_of min max) 0); [lia|].
    rewrite Hloop. by apply Hwidth. }
  - intros Hgt. unfold GetRandomNumber.
    destruct (Z.ltb_spec max min); [done | lia].
  - intros Hmin Hmax Hle Hbig.
    assert (rangeSize_of min max <= 0) as Hnp
      by (by apply rangeSize_of_overflow).
    split; [done|]. unfold GetRandomNumber.
    destruct (Z.ltb_spec max min); [lia|].
    destruct (Z.leb_spec (rangeSize_of min max) 0); [done | lia].
Qed.

Lemma GetRandomNumber_refused_ranges_examples :
  GetRandomNumber (serving (envelope "uint8" [127])) NewClient 0 10 5 []
    = (Returns (0, Some ErrInvalidRange), []) /\
  GetRandomNumber (serving (envelope "uint8" [127])) NewClient 0
      GoInt.min_int GoInt.max_int []
    = (Returns (0, Some ErrRangeTooLarge), []) /\
  exists err,
    GetRandomNumber_draw (serving (envelope "uint8" [127])) NewClient 0
        0 1 8193 []
      = (Returns (0, Some err), []) /\
    errors_Is err ErrRangeTooLarge = true.
Proof.
  pose proof (GetRandomNumber_refused_ranges
                (serving (envelope "uint8" [127])) NewClient 0 10 5 [])
    as (Hinv & _ & _).
  pose proof (GetRandomNumber_refused_ranges
                (serving (envelope "uint8" [127])) NewClient 0
                GoInt.min_int GoInt.max_int [])
    as (_ & Hbig & _).
  pose proof (GetRandomNumber_refused_ranges
                (serving (envelope "uint8" [127])) NewClient 0 0 0 [])
    as (_ & _ & Hwidth & _).
  split; [apply Hinv; lia|]. split.
  - apply Hbig; by vm_compute.
  - apply (Hwidth 1 8193). by vm_compute.
Defined.

(** ** Bits *)

Lemma bit_of_shift (v i : Z) :
  0 <= i -> Z.land (GoInt.shr v i) 1 = Z.b2z (Z.testbit v i).
Proof.
  intros Hi. unfold GoInt.shr.
  change 1 with (Z.ones 1). rewrite Z.land_ones by lia.
  change (2 ^ 1) with 2. rewrite <- Z.bit0_mod, Z.shiftr_spec by lia.
  done.
Qed.

Lemma msb_first_shifts (v : Z) :
  map (fun i => Z.land (GoInt.shr v i) 1) [7; 6; 5; 4; 3; 2; 1; 0]
  = msb_first v.
Proof.
  unfold msb_first. cbn [map]. by rewrite !bit_of_shift by lia.
Qed.

(** One byte: the inner loop either returns, with exactly [numBits] bits,
    or hands on all the bits it added, still short of [numBits]. *)
Lemma extractBits_byte_spec (idx : list Z) (v : Z) (bits : list Z) (n : Z) :
  Z.of_nat (List.length bits) < n ->
  match extractBits_byte idx v bits n with
  | inl r =>
      r = take (Z.to_nat n)
            (bits ++ map (fun i => Z.land (GoInt.shr v i) 1) idx) /\
      Z.of_nat (List.length r) = n
  | inr r =>
      r = bits ++ map (fun i => Z.land (GoInt.shr v i) 1) idx /\
      Z.of_nat (List.length r) < n
  end.
Proof.
  revert bits. induction idx as [|i idx IH]; intros bits Hlen;
    cbn [extractBits_byte map].
  { by rewrite app_nil_r. }
  destruct (Z.eqb_spec
              (Z.of_nat (List.length (bits ++ [Z.land (GoInt.shr v i) 1]))) n)
    as [Hfull|Hshort].
  - split; [|done].
    replace (bits ++ Z.land (GoInt.shr v i) 1
               :: map (fun i => Z.land (GoInt.shr v i) 1) idx)
      with ((bits ++ [Z.land (GoInt.shr v i) 1])
              ++ map (fun i => Z.land (GoInt.shr v i) 1) idx)
      by (by rewrite <- app_assoc).
    rewrite take_app_length'; [done | lia].
  - assert (Z.of_nat (List.length (bits ++ [Z.land (GoInt.shr v i) 1])) < n)
      as Hlen'.
    { rewrite length_app in *. cbn [List.length] in *. lia. }
    specialize (IH _ Hlen'). rewrite <- app_assoc in IH. exact IH.
Qed.

Lemma extractBits_from_spec (data : list Z) (bits : list Z) (n : Z) :
  Z.of_nat (List.length bits) < n ->
  extractBits_from data bits n
  = take (Z.to_nat n) (bits ++ concat (map msb_first data)).
Proof.
  revert bits. induction data as [|v data IH]; intros bits Hlen;
    cbn [extractBits_from map concat].
  { rewrite app_nil_r, take_ge; [done | lia]. }
  pose proof (extractBits_byte_spec [7; 6; 5; 4; 3; 2; 1; 0] v bits n Hlen)
    as Hbyte.
  rewrite msb_first_shifts in Hbyte.
  destruct (extractBits_byte _ v bits n) as [r|r].
  - destruct Hbyte as (-> & Hfull).
    rewrite app_assoc. symmetry. apply take_app_le.
    rewrite length_take in Hfull. lia.
  - destruct Hbyte as (-> & Hshort).
    rewrite IH by done. by rewrite app_assoc.
Qed.

(** [extractBits] is the unpacking, most significant bit first, cut to
    the first [numBits] bits. *)
Lemma extractBits_unpack (data : list Z) (n : Z) :
  1 <= n -> extractBits data n = unpack_bits data n.
Proof.
  intros Hn. unfold extractBits, unpack_bits.
  apply extractBits_from_spec. cbn. lia.
Qed.

Lemma length_unpacked (data : list Z) :
  List.length (concat (map msb_first data)) = (8 * List.length data)%nat.
Proof.
  induction data as [|v data IH]; [done|].
  cbn [map concat]. rewrite length_app, IH.
  unfold msb_first. cbn [map List.length]. lia.
Qed.

Lemma unpack_bits_length (data : list Z) (n : Z) :
  0 <= n <= 8 * Z.of_nat (List.length data) ->
  Z.of_nat (List.length (unpack_bits data n)) = n.
Proof.
  intros Hn. unfold unpack_bits.
  rewrite length_take, length_unpacked. lia.
Qed.

Lemma unpack_bits_binary (data : list Z) (n : Z) :
  Forall (fun b => b = 0 \/ b = 1) (unpack_bits data n).
Proof.
  unfold unpack_bits. apply Forall_take, Forall_concat, Forall_map.
  apply Forall_forall. intros v _. unfold msb_first.
  apply Forall_map, Forall_forall. intros i _.
  destruct (Z.testbit v i); cbn; lia.
Qed.

(** C4. For [n] from 1 to 8192 and a service that answers with at least
    [ceil(n/8)] values, [GetRandomBits n] asks for [ceil(n/8)] values of
    type [uint8] and returns the unpacking of the data, most significant
    bit first, cut to the first [n] bits: exactly [n] elements, each 0 or
    1.  The byte 255 gives eight ones and the byte 0 eight zeros. *)
Theorem GetRandomBits_unpacks_msb_first :
  (forall (w : World) (c : QRNGClient) (n : Z) (sent : list http_Request)
          (qr : QRNGResponse),
      1 <= n <= 8192 ->
      answers w c sent qr -> Success qr = true ->
      (exists k, ceil8 n k /\ k <= Z.of_nat (List.length (Data qr))) ->
      exists req k,
        ceil8 n k /\ asks k "uint8" req /\
        GetRandomBits w c n sent
          = ((unpack_bits (Data qr) n, None), sent ++ [req]) /\
        Z.of_nat (List.length (unpack_bits (Data qr) n)) = n /\
        Forall (fun b => b = 0 \/ b = 1) (unpack_bits (Data qr) n)) /\
  (GetRandomBits (serving (envelope "uint8" [255])) NewClient 8 []).1
    = ([1; 1; 1; 1; 1; 1; 1; 1], None) /\
  (GetRandomBits (serving (envelope "uint8" [0])) NewClient 8 []).1
    = ([0; 0; 0; 0; 0; 0; 0; 0], None).
Proof.
  split; [|split; reflexivity].
  intros w c n sent qr Hn Hans Hok (k & Hk & Hlen).
  destruct (requiredBytes_ceil8 n Hn) as (Hbytes & Hceil).
  assert (k = (n + 7) / 8) as -> by (unfold ceil8 in *; lia).
  destruct (doRequest_answered w c ((n + 7) / 8) "uint8" 0 sent qr Hans)
    as (req & Hasks & _ & Hdo).
  rewrite Hok in Hdo. cbn [negb] in Hdo.
  destruct (Z.ltb_spec (Z.of_nat (List.length (Data qr))) ((n + 7) / 8));
    [lia|].
  exists req, ((n + 7) / 8). split; [done|]. split; [done|]. split.
  - unfold GetRandomBits.
    destruct (Z.ltb_spec n 1); [lia|].
    destruct (Z.ltb_spec maxBits n) as [Hbig|_].
    { unfold maxBits, maxUint8Length in Hbig. lia. }
    cbn [orb]. rewrite Hbytes, Hdo, extractBits_unpack by lia. done.
  - split; [|apply unpack_bits_binary].
    apply unpack_bits_length. unfold ceil8 in Hceil. lia.
Qed.

Lemma GetRandomBits_unpacks_11_of_two_bytes :
  exists req k,
    ceil8 11 k /\ asks k "uint8" req /\
    GetRandomBits (serving (envelope "uint8" [165; 192; 7])) NewClient 11 []
      = (([1; 0; 1; 0; 0; 1; 0; 1; 1; 1; 0], None), [] ++ [req]) /\
    Z.of_nat (List.length (unpack_bits [165; 192; 7] 11)) = 11 /\
    Forall (fun b => b = 0 \/ b = 1) (unpack_bits [165; 192; 7] 11).
Proof.
  apply (proj1 GetRandomBits_unpacks_msb_first
           (serving (envelope "uint8" [165; 192; 7])) NewClient 11 []
           (envelope "uint8" [165; 192; 7])).
  - lia.
  - by apply serving_answers.
  - reflexivity.
  - exists 2. split; [unfold ceil8; lia | by vm_compute].
Defined.

(** ** Hexadecimal strings *)

Lemma strlen_app (s t : string) : strlen (s +:+ t) = strlen s + strlen t.
Proof.
  unfold strlen. induction s as [|a s IH]; [done|].
  change (String a s +:+ t) with (String a (s +:+ t)).
  cbn [String.length]. lia.
Qed.

Lemma strlen_repeat_char (n : nat) (a : ascii) :
  strlen (repeat_char n a) = Z.of_nat n.
Proof.
  unfold strlen. induction n as [|n IH]; [done|].
  cbn [repeat_char String.length]. lia.
Qed.

Lemma hex_value_of_digit (d : Z) :
  0 <= d < 16 -> hex_value_of (digit d) = Some d.
Proof.
  intros Hd.
  assert (d = 0 \/ d = 1 \/ d = 2 \/ d = 3 \/ d = 4 \/ d = 5 \/ d = 6 \/ d = 7
          \/ d = 8 \/ d = 9 \/ d = 10 \/ d = 11 \/ d = 12 \/ d = 13 \/ d = 14
          \/ d = 15) as Hcases by lia.
  repeat (destruct Hcases as [->|Hcases]; [reflexivity|]).
  by subst d.
Qed.

Lemma low_nibble (u : Z) :
  0 <= u -> 16 * Z.shiftr u 4 + Z.land u 15 = u /\ 0 <= Z.land u 15 < 16.
Proof.
  intros Hu. rewrite Z.shiftr_div_pow2 by lia.
  change 15 with (Z.ones 4). rewrite Z.land_ones by lia.
  change (2 ^ 4) with 16.
  pose proof (Z.div_mod u 16 ltac:(lia)).
  pose proof (Z.mod_pos_bound u 16 ltac:(lia)). lia.
Qed.

(** The digits written denote the number: reading them back from zero is
    reading the rest of the buffer from [u]. *)
Lemma parse_fmt_hex (rounds : nat) (u : Z) (buf : string) :
  0 <= u < 16 ^ Z.of_nat rounds ->
  parse_hex_from 0 (fmt_hex rounds u buf) = parse_hex_from u buf.
Proof.
  revert u buf. induction rounds as [|rounds IH]; intros u buf Hu.
  { cbn in Hu. assert (u = 0) as -> by lia. done. }
  cbn [fmt_hex]. rewrite Nat2Z.inj_succ, Z.pow_succ_r in Hu by lia.
  destruct (Z.leb_spec 16 u) as [Hbig|Hsmall].
  - destruct (low_nibble u ltac:(lia)) as (Hsplit & Hlow).
    rewrite IH.
    + cbn [parse_hex_from]. rewrite hex_value_of_digit by done.
      by rewrite Hsplit.
    + rewrite Z.shiftr_div_pow2 by lia. change (2 ^ 4) with 16. split.
      * apply Z.div_pos; lia.
      * apply Z.div_lt_upper_bound; lia.
  - cbn [parse_hex_from]. rewrite hex_value_of_digit by lia.
    by rewrite Z.mul_0_r, Z.add_0_l.
Qed.

(** A number below [16^k] takes at most [k] digits, and at least one. *)
Lemma strlen_fmt_hex (rounds k : nat) (u : Z) (buf : string) :
  (1 <= k <= rounds)%nat -> 0 <= u < 16 ^ Z.of_nat k ->
  strlen buf < strlen (fmt_hex rounds u buf) <= Z.of_nat k + strlen buf.
Proof.
  revert k u buf. induction rounds as [|rounds IH]; intros k u buf Hk Hu;
    [lia|].
  cbn [fmt_hex].
  destruct (Z.leb_spec 16 u) as [Hbig|Hsmall].
  - destruct k as [|[|k]]; [lia| cbn in Hu; lia |].
    rewrite Nat2Z.inj_succ, Z.pow_succ_r in Hu by lia.
    specialize (IH (S k) (Z.shiftr u 4) (String (digit (Z.land u 15)) buf)).
    unfold strlen in *. cbn [String.length] in IH.
    rewrite Z.shiftr_div_pow2 in IH by lia. change (2 ^ 4) with 16 in IH.
    assert (0 <= u / 16 < 16 ^ Z.of_nat (S k)) as Hq.
    { split; [apply Z.div_pos; lia | apply Z.div_lt_upper_bound; lia]. }
    specialize (IH ltac:(lia) Hq).
    rewrite Z.shiftr_div_pow2 by lia. change (2 ^ 4) with 16. lia.
  - unfold strlen. cbn [String.length]. lia.
Qed.

Lemma parse_zeros (n : nat) (s : string) :
  parse_hex_from 0 (repeat_char n "0" +:+ s) = parse_hex_from 0 s.
Proof.
  induction n as [|n IH]; [done|].
  change (repeat_char (S n) "0" +:+ s)
    with (String "0" (repeat_char n "0" +:+ s)).
  exact IH.
Qed.

(** A non-negative [int] below [16^width] is written with exactly [width]
    digits, and they denote it. *)
Lemma Sprintf_0x_exact (width v : Z) :
  1 <= width -> 0 <= v <= GoInt.max_int -> v < 16 ^ width ->
  strlen (Sprintf_0x width v) = width /\
  parse_hex (Sprintf_0x width v) = Some v.
Proof.
  intros Hw Hv Hfit. unfold Sprintf_0x, parse_hex.
  destruct (Z.ltb_spec v 0); [lia|].
  destruct (Z.ltb_spec 0 width); [|lia].
  destruct (Z.ltb_spec width 0); [lia|].
  rewrite Z.abs_eq by lia.
  assert (0 <= v < 16 ^ Z.of_nat 16) as H16.
  { unfold GoInt.max_int in Hv. change (16 ^ Z.of_nat 16) with (2 * 2 ^ 63).
    lia. }
  split.
  - rewrite strlen_app, strlen_repeat_char.
    set (k := Z.to_nat (Z.min width 16)).
    assert (0 <= v < 16 ^ Z.of_nat k) as Hk.
    { subst k. rewrite Z2Nat.id by lia.
      destruct (Z.min_spec width 16) as [[_ ->]|[_ ->]]; [lia|exact H16]. }
    pose proof (strlen_fmt_hex 16 k v "" ltac:(lia) Hk) as Hlen.
    change (strlen "") with 0 in Hlen. lia.
  - rewrite parse_zeros, parse_fmt_hex by exact H16. done.
Qed.

Lemma GetRandomHex_answered (w : World) (c : QRNGClient)
    (blockCount blockSize : Z) (hexType : string)
    (sent : list http_Request) (qr : QRNGResponse) :
  1 <= blockSize <= 10 -> hexType = "hex8" \/ hexType = "hex16" ->
  answers w c sent qr -> Success qr = true ->
  blockCount <= Z.of_nat (List.length (Data qr)) ->
  exists req,
    GetRandomHex w c blockCount blockSize hexType sent
    = ((map (Sprintf_0x (if bool_decide (hexType = "hex8")
                         then 2 * blockSize else 4)) (Data qr), None),
       sent ++ [req]).
Proof.
  intros Hsize Htype Hans Hok Hcount.
  destruct (doRequest_answered w c blockCount hexType blockSize sent qr Hans)
    as (req & _ & _ & Hdo).
  rewrite Hok in Hdo. cbn [negb] in Hdo.
  destruct (Z.ltb_spec (Z.of_nat (List.length (Data qr))) blockCount); [lia|].
  exists req. unfold GetRandomHex.
  assert (negb (bool_decide (hexType = "hex8"))
          && negb (bool_decide (hexType = "hex16")) = false) as ->
    by (destruct Htype as [->| ->]; reflexivity).
  destruct (Z.ltb_spec blockSize 1); [lia|].
  destruct (Z.ltb_spec 10 blockSize); [lia|].
  cbn [orb]. rewrite Hdo, formatHex_map.
  replace (GoInt.wrap (blockSize * 2)) with (2 * blockSize).
  - by destruct (bool_decide (hexType = "hex8")).
  - rewrite wrap_exact; [lia|].
    unfold GoInt.in_range, GoInt.min_int, GoInt.max_int. lia.
Qed.

Lemma strlen_cons (a : ascii) (s : string) :
  strlen (String a s) = 1 + strlen s.
Proof. unfold strlen. cbn [String.length]. lia. Qed.

Lemma abs_int_hex_digits (v : Z) :
  GoInt.in_range v -> 0 <= Z.abs v < 16 ^ Z.of_nat 16.
Proof.
  unfold GoInt.in_range, GoInt.min_int, GoInt.max_int.
  change (16 ^ Z.of_nat 16) with (2 * 2 ^ 63). lia.
Qed.

(** The width is a minimum for every [int], negative ones included: the
    sign takes the place of one zero. *)
Lemma Sprintf_0x_min_width (width v : Z) :
  1 <= width -> GoInt.in_range v -> width <= strlen (Sprintf_0x width v).
Proof.
  intros Hw Hv. unfold Sprintf_0x.
  destruct (Z.ltb_spec 0 width); [|lia].
  destruct (Z.ltb_spec width 0); [lia|].
  pose proof (strlen_fmt_hex 16 16 (Z.abs v) "" ltac:(lia)
                (abs_int_hex_digits v Hv)) as Hlen.
  change (strlen "") with 0 in Hlen.
  destruct (v <? 0).
  - rewrite strlen_cons, strlen_app, strlen_repeat_char. lia.
  - rewrite strlen_app, strlen_repeat_char. lia.
Qed.

(** The digits of a non-negative [int] denote it whatever the width. *)
Lemma Sprintf_0x_parse (width v : Z) :
  1 <= width -> 0 <= v <= GoInt.max_int ->
  parse_hex (Sprintf_0x width v) = Some v.
Proof.
  intros Hw Hv. unfold Sprintf_0x, parse_hex.
  destruct (Z.ltb_spec v 0); [lia|].
  destruct (Z.ltb_spec 0 width); [|lia].
  destruct (Z.ltb_spec width 0); [lia|].
  rewrite Z.abs_eq, parse_zeros, parse_fmt_hex; [done| |lia].
  unfold GoInt.max_int in Hv. change (16 ^ Z.of_nat 16) with (2 * 2 ^ 63).
  lia.
Qed.

(** Digits that parse denote a number below [16^n] for [n] digits. *)
Lemma parse_hex_from_bound (s : string) (acc v : Z) :
  0 <= acc -> parse_hex_from acc s = Some v ->
  acc * 16 ^ strlen s <= v < (acc + 1) * 16 ^ strlen s.
Proof.
  revert acc. induction s as [|a s IH]; intros acc Hacc;
    cbn [parse_hex_from].
  { intros [= <-]. change (strlen "") with 0. lia. }
  destruct (hex_value_of a) as [d|] eqn:Hd; [|discriminate].
  assert (0 <= d < 16) as Hdigit.
  { unfold hex_value_of in Hd.
    destruct ((48 <=? Z.of_nat (nat_of_ascii a))
              && (Z.of_nat (nat_of_ascii a) <=? 57)) eqn:H09.
    - injection Hd as <-.
      apply andb_true_iff in H09 as (?%Z.leb_le & ?%Z.leb_le). lia.
    - destruct ((97 <=? Z.of_nat (nat_of_ascii a))
                && (Z.of_nat (nat_of_ascii a) <=? 102)) eqn:Haf;
        [|discriminate].
      injection Hd as <-.
      apply andb_true_iff in Haf as (?%Z.leb_le & ?%Z.leb_le). lia. }
  intros Hv. apply IH in Hv; [|lia].
  rewrite strlen_cons.
  replace (1 + strlen s) with (Z.succ (strlen s)) by lia.
  rewrite Z.pow_succ_r by (unfold strlen; lia).
  pose proof (Z.pow_pos_nonneg 16 (strlen s) ltac:(lia)
                ltac:(unfold strlen; lia)). nia.
Qed.

(** A negative [int] is written as a minus sign and the digits of its
    magnitude. *)
Lemma Sprintf_0x_negative (width v : Z) :
  1 <= width -> GoInt.in_range v -> v < 0 ->
  exists digits,
    Sprintf_0x width v = String "-" digits /\
    parse_hex digits = Some (- v).
Proof.
  intros Hw Hv Hneg. unfold Sprintf_0x.
  destruct (Z.ltb_spec v 0); [|lia].
  destruct (Z.ltb_spec 0 width); [|lia].
  destruct (Z.ltb_spec width 0); [lia|].
  eexists. split; [reflexivity|]. unfold parse_hex.
  rewrite parse_zeros, parse_fmt_hex by (by apply abs_int_hex_digits).
  cbn [parse_hex_from]. f_equal. lia.
Qed.

(** Every [int] is written in full, on at least [width] characters. *)
Lemma Sprintf_0x_written (width v : Z) :
  1 <= width -> GoInt.in_range v ->
  written_in_hex width v (Sprintf_0x width v).
Proof.
  intros Hw Hv.
  assert (0 <= v -> parse_hex (Sprintf_0x width v) = Some v) as Hparse.
  { intros Hnn. apply Sprintf_0x_parse; [done|].
    unfold GoInt.in_range in Hv. lia. }
  split; [by apply Sprintf_0x_min_width|]. split; [done|].
  split; [|split].
  - intros Hfit. apply Sprintf_0x_exact; [done| |lia].
    unfold GoInt.in_range in Hv. lia.
  - intros Hbig.
    assert (0 <= v) as Hnn
      by (pose proof (Z.pow_pos_nonneg 16 width); lia).
    specialize (Hparse Hnn). unfold parse_hex in Hparse.
    apply parse_hex_from_bound in Hparse; [|lia].
    destruct (Z.lt_ge_cases width (strlen (Sprintf_0x width v)))
      as [|Hshort]; [done|].
    assert (16 ^ strlen (Sprintf_0x width v) <= 16 ^ width)
      by (apply Z.pow_le_mono_r; [lia | done]).
    lia.
  - intros Hneg. by apply Sprintf_0x_negative.
Qed.

(** C5, as the code has it.  The width is a minimum and nothing is cut:
    for every [int] the service sends, [GetRandomHex] writes a string of
    at least [width] characters, where [width] is [2 * blockSize] for
    [hex8] and 4 for [hex16]; a non-negative value is written in
    lowercase hexadecimal digits that denote it, exactly [width] of them
    when it is below [16^width] and more when it is not; a negative value
    is a minus sign and the digits of its magnitude.
    [GetRandomHex(2, 4, "hex16")] on the data [[32767, 65535]] returns
    [["7fff", "ffff"]]. *)
Theorem GetRandomHex_fixed_width :
  (forall (w : World) (c : QRNGClient) (blockCount blockSize : Z)
          (hexType : string) (sent : list http_Request) (qr : QRNGResponse)
          (width : Z),
      1 <= blockSize <= 10 ->
      (hexType = "hex8" /\ width = 2 * blockSize) \/
      (hexType = "hex16" /\ width = 4) ->
      answers w c sent qr -> Success qr = true ->
      blockCount <= Z.of_nat (List.length (Data qr)) ->
      Forall GoInt.in_range (Data qr) ->
      exists req out,
        GetRandomHex w c blockCount blockSize hexType sent
          = ((out, None), sent ++ [req]) /\
        Forall2 (written_in_hex width) (Data qr) out) /\
  (GetRandomHex (serving (envelope "hex16" [32767; 65535]))
     (NewClientWithAPIKey "---") 2 4 "hex16" []).1
    = (["7fff"; "ffff"], None).
Proof.
  split; [|reflexivity].
  intros w c blockCount blockSize hexType sent qr width Hsize Htype Hans Hok
    Hcount Hints.
  destruct (GetRandomHex_answered w c blockCount blockSize hexType sent qr)
    as (req & ->); [done| |done|done|done|].
  { destruct Htype as [[-> _]|[-> _]]; [by left | by right]. }
  eexists _, _. split; [reflexivity|].
  apply Forall2_fmap_r, Forall_Forall2_diag.
  eapply Forall_impl; [exact Hints|].
  intros v Hv. cbn.
  destruct Htype as [[-> ->]|[-> ->]].
  - rewrite bool_decide_eq_true_2 by done.
    apply Sprintf_0x_written; [lia | done].
  - rewrite bool_decide_eq_false_2 by done.
    apply Sprintf_0x_written; [lia | done].
Qed.

Lemma GetRandomHex_fixed_width_hex8_blocks :
  exists req out,
    GetRandomHex (serving (envelope "hex8" [0; 255; 43981; 1048576; -1]))
        (NewClientWithAPIKey "---") 3 2 "hex8" []
      = ((out, None), [] ++ [req]) /\
    Forall2 (written_in_hex 4) [0; 255; 43981; 1048576; -1] out.
Proof.
  apply (proj1 GetRandomHex_fixed_width
           (serving (envelope "hex8" [0; 255; 43981; 1048576; -1]))
           (NewClientWithAPIKey "---") 3 2 "hex8" []
           (envelope "hex8" [0; 255; 43981; 1048576; -1]) 4).
  - lia.
  - left. split; reflexivity.
  - apply serving_answers. intros _. discriminate.
  - reflexivity.
  - by vm_compute.
  - repeat constructor; by vm_compute.
Defined.

(** C5, as stated, fails on a value that needs more digits than the
    width: nothing is cut, so 65536 comes out of [hex16] with five digits
    and 256 out of [hex8] with block size 1 with three. *)
Lemma GetRandomHex_wider_than_width :
  (GetRandomHex (serving (envelope "hex16" [65536]))
     (NewClientWithAPIKey "---") 1 4 "hex16" []).1 = (["10000"], None) /\
  strlen "10000" <> 4 /\
  (GetRandomHex (serving (envelope "hex8" [256]))
     (NewClientWithAPIKey "---") 1 1 "hex8" []).1 = (["100"], None) /\
  strlen "100" <> 2 * 1.
Proof. repeat split; (reflexivity || by vm_compute). Qed.

(** ** Arguments refused before any request *)

(** C6, as the code has it.  An unrecognised type fails with the
    invalid-type error; a recognised type with a block size outside
    [[1, 10]] fails with the invalid-block-size error; both before
    anything is handed to the transport. *)
Theorem GetRandomHex_refused_arguments (w : World) (c : QRNGClient)
    (blockCount blockSize : Z) (hexType : string)
    (sent : list http_Request) :
  (hexType <> "hex8" /\ hexType <> "hex16" ->
   GetRandomHex w c blockCount blockSize hexType sent
     = (([], Some ErrInvalidHexType), sent)) /\
  (hexType = "hex8" \/ hexType = "hex16" ->
   blockSize < 1 \/ 10 < blockSize ->
   GetRandomHex w c blockCount blockSize hexType sent
     = (([], Some ErrInvalidBlockSize), sent)).
Proof.
  unfold GetRandomHex. split.
  - intros (H8 & H16).
    by rewrite !bool_decide_eq_false_2 by done.
  - intros Htype Hsize.
    assert (negb (bool_decide (hexType = "hex8"))
            && negb (bool_decide (hexType = "hex16")) = false) as ->
      by (destruct Htype as [->| ->]; reflexivity).
    destruct (Z.ltb_spec blockSize 1); [done|].
    destruct (Z.ltb_spec 10 blockSize); [done|lia].
Qed.

Lemma GetRandomHex_refused_arguments_examples :
  GetRandomHex (serving (envelope "hex8" [1])) (NewClientWithAPIKey "---")
      1 2 "hex32" []
    = (([], Some ErrInvalidHexType), []) /\
  GetRandomHex (serving (envelope "hex8" [1])) (NewClientWithAPIKey "---")
      1 11 "hex8" []
    = (([], Some ErrInvalidBlockSize), []).
Proof.
  split.
  - apply (GetRandomHex_refused_arguments
             (serving (envelope "hex8" [1])) (NewClientWithAPIKey "---")
             1 2 "hex32" []).
    split; discriminate.
  - apply (GetRandomHex_refused_arguments
             (serving (envelope "hex8" [1])) (NewClientWithAPIKey "---")
             1 11 "hex8" []); [by left | right; lia].
Defined.

(** C6, as stated, fails when both arguments are wrong: the type is
    checked first, so a block size of 11 with the type [hex32] gives the
    invalid-type error and not the invalid-block-size error. *)
Lemma GetRandomHex_type_checked_first :
  GetRandomHex (serving (envelope "hex8" [1])) (NewClientWithAPIKey "---")
      1 11 "hex32" []
    = (([], Some ErrInvalidHexType), []) /\
  ErrInvalidHexType <> ErrInvalidBlockSize /\
  errors_Is ErrInvalidHexType ErrInvalidBlockSize = false.
Proof. repeat split; (reflexivity || discriminate). Qed.

(** ** Credentials *)

Lemma sent_one_more (sent : list http_Request) (req : http_Request) :
  sent <> sent ++ [req].
Proof.
  intros E. apply (f_equal List.length) in E.
  rewrite length_app in E. cbn in E. lia.
Qed.

(** C7. A request through a client that requires a key fails with the
    missing-key error, before anything is handed to the transport, when
    the key is empty; with a key, the request handed over carries the
    header [x-api-key] with exactly that key; a client that requires no
    key attaches no header.  When the service answers, a request is indeed
    handed over; and [GetRandomUint16] on an authenticated client without
    a key fails in this way. *)
Theorem doRequest_api_key (w : World) (c : QRNGClient) (length : Z)
    (dataType : string) (blockSize : Z) (sent : list http_Request) :
  (requiresAPIKey c = true -> APIKey c = "" ->
   doRequest w c length dataType blockSize sent
     = ((None, Some ErrMissingAPIKey), sent)) /\
  (requiresAPIKey c = true -> APIKey c <> "" ->
   forall req,
     (doRequest w c length dataType blockSize sent).2 = sent ++ [req] ->
     Header req = {["x-api-key" := [APIKey c]]}) /\
  (requiresAPIKey c = false ->
   forall req,
     (doRequest w c length dataType blockSize sent).2 = sent ++ [req] ->
     Header req = ∅) /\
  (forall qr, answers w c sent qr ->
   exists req,
     (doRequest w c length dataType blockSize sent).2 = sent ++ [req]) /\
  (forall n, 1 <= n <= 1024 ->
   GetRandomUint16 w (NewClientWithAPIKey "") n sent
     = (([], Some ErrMissingAPIKey), sent)).
Proof.
  assert (forall req,
            (doRequest w c length dataType blockSize sent).2 = sent ++ [req] ->
            Header req = (if requiresAPIKey c
                          then {["x-api-key" := [APIKey c]]} else ∅))
    as Hheader.
  { intros req Hreq.
    destruct (doRequest_sent w c length dataType blockSize sent)
      as [E|(req' & E & _ & Hh)]; rewrite E in Hreq.
    - by apply sent_one_more in Hreq.
    - apply app_inv_head in Hreq. by injection Hreq as <-. }
  split; [|split; [|split; [|split]]].
  - intros Hreq Hkey. unfold doRequest. by rewrite Hreq, Hkey.
  - intros Hreq _ req Hsent. apply Hheader in Hsent. by rewrite Hreq in Hsent.
  - intros Hreq req Hsent. apply Hheader in Hsent. by rewrite Hreq in Hsent.
  - intros qr Hans.
    destruct (doRequest_answered w c length dataType blockSize sent qr Hans)
      as (req & _ & _ & ->).
    by exists req.
  - intros n Hn. unfold GetRandomUint16.
    destruct (Z.ltb_spec n 1); [lia|].
    destruct (Z.ltb_spec maxUint16Length n) as [Hbig|_].
    { unfold maxUint16Length in Hbig. lia. }
    reflexivity.
Qed.

Lemma doRequest_api_key_examples :
  doRequest (serving (envelope "uint16" [42])) (NewClientWithAPIKey "")
      1 "uint16" 0 []
    = ((None, Some ErrMissingAPIKey), []) /\
  (exists req,
      (doRequest (serving (envelope "uint16" [42])) (NewClientWithAPIKey "---")
         1 "uint16" 0 []).2 = [] ++ [req] /\
      Header req = {["x-api-key" := ["---"]]}) /\
  (exists req,
      (doRequest (serving (envelope "uint16" [42])) NewClient
         1 "uint16" 0 []).2 = [] ++ [req] /\
      Header req = ∅).
Proof.
  split; [|split].
  - by apply (doRequest_api_key (serving (envelope "uint16" [42]))
                (NewClientWithAPIKey "") 1 "uint16" 0 []).
  - pose proof (doRequest_api_key (serving (envelope "uint16" [42]))
                  (NewClientWithAPIKey "---") 1 "uint16" 0 [])
      as (_ & Hkey & _ & Hsends & _).
    destruct (Hsends (envelope "uint16" [42])) as (req & Hreq).
    { apply serving_answers. intros _. discriminate. }
    exists req. split; [exact Hreq|].
    apply Hkey; [reflexivity | discriminate | exact Hreq].
  - pose proof (doRequest_api_key (serving (envelope "uint16" [42]))
                  NewClient 1 "uint16" 0 [])
      as (_ & _ & Hlegacy & Hsends & _).
    destruct (Hsends (envelope "uint16" [42])) as (req & Hreq).
    { apply serving_answers. discriminate. }
    exists req. split; [exact Hreq|].
    apply Hlegacy; [reflexivity | exact Hreq].
Defined.

(** ** Envelopes *)

(** A successful [doRequest] handed one request to the transport, and the
    envelope it returns is what the answer decoded to: a success envelope
    with at least [length] values. *)
Lemma doRequest_success_inv (w : World) (c : QRNGClient) (length : Z)
    (dataType : string) (blockSize : Z) (sent sent' : list http_Request)
    (qr : QRNGResponse) :
  doRequest w c length dataType blockSize sent = ((Some qr, None), sent') ->
  exists req,
    sent' = sent ++ [req] /\ decoded w sent req qr /\
    Success qr = true /\ length <= Z.of_nat (List.length (Data qr)).
Proof.
  unfold doRequest. cbv zeta.
  destruct (requiresAPIKey c && bool_decide (APIKey c = "")); [discriminate|].
  destruct (http_NewRequest w _ _); [discriminate|].
  match goal with
  | |- context [client_Do w ?k sent ?r] => set (cl := k); set (req := r)
  end.
  destruct (client_Do w cl sent req) as [err|resp] eqn:Hdo; [discriminate|].
  destruct (Z.eqb_spec (StatusCode resp) http_StatusOK) as [Hstatus|];
    cbn [negb]; [|destruct (Body resp); discriminate].
  destruct (Body resp) as [err|body] eqn:Hbody; [discriminate|].
  destruct (json_Unmarshal w body) as [err|qr'] eqn:Hjson; [discriminate|].
  destruct (Success qr') eqn:Hok; cbn [negb];
    [|destruct (negb (bool_decide (Error qr' = ""))); discriminate].
  destruct (Z.ltb_spec (Z.of_nat (List.length (Data qr'))) length);
    [discriminate|].
  intros [= <- <-]. exists req. split; [done|]. split; [|done].
  by exists cl, resp, body.
Qed.

(** The three reshaping accessors on a success envelope with enough
    values: one request, no error, every value of the data reshaped. *)
Lemma GetRandomUint8_answered (w : World) (c : QRNGClient) (n : Z)
    (sent : list http_Request) (qr : QRNGResponse) :
  1 <= n <= 1024 -> answers w c sent qr -> Success qr = true ->
  n <= Z.of_nat (List.length (Data qr)) ->
  exists req,
    asks n "uint8" req /\
    GetRandomUint8 w c n sent
      = ((map GoInt.uint8 (Data qr), None), sent ++ [req]).
Proof.
  intros Hn Hans Hok Hlen.
  destruct (doRequest_answered w c n "uint8" 0 sent qr Hans)
    as (req & Hasks & _ & Hdo).
  rewrite Hok in Hdo. cbn [negb] in Hdo.
  destruct (Z.ltb_spec (Z.of_nat (List.length (Data qr))) n); [lia|].
  exists req. split; [done|]. unfold GetRandomUint8.
  destruct (Z.ltb_spec n 1); [lia|].
  destruct (Z.ltb_spec maxUint8Length n) as [Hbig|_].
  { unfold maxUint8Length in Hbig. lia. }
  cbn [orb]. by rewrite Hdo, convertUint8_map.
Qed.

Lemma GetRandomUint16_answered (w : World) (c : QRNGClient) (n : Z)
    (sent : list http_Request) (qr : QRNGResponse) :
  1 <= n <= 1024 -> answers w c sent qr -> Success qr = true ->
  n <= Z.of_nat (List.length (Data qr)) ->
  exists req,
    asks n "uint16" req /\
    GetRandomUint16 w c n sent
      = ((map GoInt.uint16 (Data qr), None), sent ++ [req]).
Proof.
  intros Hn Hans Hok Hlen.
  destruct (doRequest_answered w c n "uint16" 0 sent qr Hans)
    as (req & Hasks & _ & Hdo).
  rewrite Hok in Hdo. cbn [negb] in Hdo.
  destruct (Z.ltb_spec (Z.of_nat (List.length (Data qr))) n); [lia|].
  exists req. split; [done|]. unfold GetRandomUint16.
  destruct (Z.ltb_spec n 1); [lia|].
  destruct (Z.ltb_spec maxUint16Length n) as [Hbig|_].
  { unfold maxUint16Length in Hbig. lia. }
  cbn [orb]. by rewrite Hdo, convertUint16_map.
Qed.

(** An accessor that returns an error returns no data with it. *)
Lemma GetRandomBits_error (w : World) (c : QRNGClient) (n : Z)
    (sent : list http_Request) (out : list Z) (err : error) :
  (GetRandomBits w c n sent).1 = (out, Some err) -> out = [].
Proof.
  unfold GetRandomBits.
  destruct ((n <? 1) || (maxBits <? n)); [by intros [= <- _]|].
  destruct (doRequest w c _ "uint8" 0 sent) as [[[qr|] [e|]] s];
    by intros [= <-].
Qed.

Lemma GetRandomUint8_error (w : World) (c : QRNGClient) (n : Z)
    (sent : list http_Request) (out : list Z) (err : error) :
  (GetRandomUint8 w c n sent).1 = (out, Some err) -> out = [].
Proof.
  unfold GetRandomUint8.
  destruct ((n <? 1) || (maxUint8Length <? n)); [by intros [= <- _]|].
  destruct (doRequest w c _ "uint8" 0 sent) as [[[qr|] [e|]] s];
    by intros [= <-].
Qed.

Lemma GetRandomUint16_error (w : World) (c : QRNGClient) (n : Z)
    (sent : list http_Request) (out : list Z) (err : error) :
  (GetRandomUint16 w c n sent).1 = (out, Some err) -> out = [].
Proof.
  unfold GetRandomUint16.
  destruct ((n <? 1) || (maxUint16Length <? n)); [by intros [= <- _]|].
  destruct (doRequest w c _ "uint16" 0 sent) as [[[qr|] [e|]] s];
    by intros [= <-].
Qed.

Lemma GetRandomHex_error (w : World) (c : QRNGClient)
    (blockCount blockSize : Z) (hexType : string)
    (sent : list http_Request) (out : list string) (err : error) :
  (GetRandomHex w c blockCount blockSize hexType sent).1 = (out, Some err) ->
  out = [].
Proof.
  unfold GetRandomHex.
  destruct (negb (bool_decide (hexType = "hex8"))
            && negb (bool_decide (hexType = "hex16"))); [by intros [= <- _]|].
  destruct ((blockSize <? 1) || (10 <? blockSize)); [by intros [= <- _]|].
  destruct (doRequest w c _ hexType blockSize sent) as [[[qr|] [e|]] s];
    by intros [= <-].
Qed.

(** C8. When the answer decodes to an envelope whose success flag is
    false, [doRequest] fails with the error that carries the message of
    the envelope, or with the generic failure when that message is empty;
    when the data is shorter than the length asked for it fails whatever
    the flag, with the insufficient-data error if the flag is true.  And
    no call returns data together with an error: [doRequest] returns no
    envelope, the accessors an empty slice. *)
Theorem decode_failures :
  (forall (w : World) (c : QRNGClient) (length : Z) (dataType : string)
          (blockSize : Z) (sent : list http_Request) (qr : QRNGResponse),
      answers w c sent qr ->
      (Success qr = false -> Error qr <> "" ->
       (doRequest w c length dataType blockSize sent).1
         = (None, Some (fmt_Errorf ("api error: " +:+ Error qr)))) /\
      (Success qr = false -> Error qr = "" ->
       (doRequest w c length dataType blockSize sent).1
         = (None, Some (errors_New "api request failed"))) /\
      (Success qr = true -> Z.of_nat (List.length (Data qr)) < length ->
       (doRequest w c length dataType blockSize sent).1
         = (None, Some (fmt_Errorf
                          ("insufficient data: expected " +:+ Itoa length
                           +:+ ", got "
                           +:+ Itoa (Z.of_nat (List.length (Data qr))))))) /\
      (Z.of_nat (List.length (Data qr)) < length ->
       exists err,
         (doRequest w c length dataType blockSize sent).1
           = (None, Some err))) /\
  (forall (w : World) (c : QRNGClient) (length : Z) (dataType : string)
          (blockSize : Z) (sent : list http_Request)
          (v : option QRNGResponse) (err : error),
      (doRequest w c length dataType blockSize sent).1 = (v, Some err) ->
      v = None) /\
  (forall (w : World) (c : QRNGClient) (n : Z) (sent : list http_Request)
          (out : list Z) (err : error),
      ((GetRandomBits w c n sent).1 = (out, Some err) -> out = []) /\
      ((GetRandomUint8 w c n sent).1 = (out, Some err) -> out = []) /\
      ((GetRandomUint16 w c n sent).1 = (out, Some err) -> out = [])) /\
  (forall (w : World) (c : QRNGClient) (blockCount blockSize : Z)
          (hexType : string) (sent : list http_Request)
          (out : list string) (err : error),
      (GetRandomHex w c blockCount blockSize hexType sent).1
        = (out, Some err) -> out = []).
Proof.
  split; [|split; [|split]].
  - intros w c length dataType blockSize sent qr Hans.
    destruct (doRequest_answered w c length dataType blockSize sent qr Hans)
      as (req & _ & _ & ->). cbn [fst].
    split; [|split; [|split]].
    + intros -> Hmsg. cbn [negb]. by rewrite bool_decide_eq_false_2.
    + intros -> Hmsg. cbn [negb]. by rewrite bool_decide_eq_true_2.
    + intros -> Hshort. cbn [negb].
      destruct (Z.ltb_spec (Z.of_nat (List.length (Data qr))) length);
        [done | lia].
    + intros Hshort.
      destruct (Success qr); cbn [negb].
      * destruct (Z.ltb_spec (Z.of_nat (List.length (Data qr))) length);
          [by eexists | lia].
      * destruct (negb (bool_decide (Error qr = ""))); by eexists.
  - intros w c length dataType blockSize sent v err.
    destruct (doRequest_cases w c length dataType blockSize sent)
      as (s & _ & [(e & ->)|(qr & -> & _)]); by intros [= <-].
  - intros w c n sent out err. split; [|split].
    + apply GetRandomBits_error.
    + apply GetRandomUint8_error.
    + apply GetRandomUint16_error.
  - intros w c blockCount blockSize hexType sent out err.
    apply GetRandomHex_error.
Qed.

Lemma decode_failures_examples :
  (doRequest (serving (failed_envelope "quota exceeded" [7; 7]))
     NewClient 2 "uint8" 0 []).1
    = (None, Some (fmt_Errorf "api error: quota exceeded")) /\
  (doRequest (serving (failed_envelope "" [7; 7])) NewClient 2 "uint8" 0 []).1
    = (None, Some (errors_New "api request failed")) /\
  (doRequest (serving (envelope "uint8" [7; 7])) NewClient 3 "uint8" 0 []).1
    = (None, Some (fmt_Errorf "insufficient data: expected 3, got 2")) /\
  (exists err,
      (doRequest (serving (failed_envelope "" [7; 7]))
         NewClient 3 "uint8" 0 []).1 = (None, Some err)).
Proof.
  pose proof (proj1 decode_failures) as H.
  split; [|split; [|split]].
  - apply (H (serving (failed_envelope "quota exceeded" [7; 7])) NewClient
             2 "uint8" 0 [] (failed_envelope "quota exceeded" [7; 7]));
      [by apply serving_answers | reflexivity | discriminate].
  - apply (H (serving (failed_envelope "" [7; 7])) NewClient
             2 "uint8" 0 [] (failed_envelope "" [7; 7]));
      [by apply serving_answers | reflexivity | reflexivity].
  - apply (H (serving (envelope "uint8" [7; 7])) NewClient
             3 "uint8" 0 [] (envelope "uint8" [7; 7]));
      [by apply serving_answers | reflexivity | by vm_compute].
  - apply (H (serving (failed_envelope "" [7; 7])) NewClient
             3 "uint8" 0 [] (failed_envelope "" [7; 7]));
      [by apply serving_answers | by vm_compute].
Defined.

(** ** Values outside the target width *)

(** C9 does not hold of the code.  [convertUint8] and [convertUint16]
    keep the low 8 and 16 bits of every value and report nothing: on the
    data [[256]] [GetRandomUint8] returns [[0]] without an error, and so
    does [GetRandomUint16] on [[65536]]; a negative value wraps as well.
    Whatever the values of a success envelope, the result is their
    residues and the error is nil. *)
Theorem reshaping_truncates_silently :
  (GetRandomUint8 (serving (envelope "uint8" [256])) NewClient 1 []).1
    = ([0], None) /\
  (GetRandomUint16 (serving (envelope "uint16" [65536])) NewClient 1 []).1
    = ([0], None) /\
  (GetRandomUint8 (serving (envelope "uint8" [-1; 511])) NewClient 2 []).1
    = ([255; 255], None) /\
  (forall data, convertUint8 data = map (fun v => v mod 256) data) /\
  (forall data, convertUint16 data = map (fun v => v mod 65536) data) /\
  (forall (w : World) (c : QRNGClient) (n : Z) (sent : list http_Request)
          (qr : QRNGResponse),
      1 <= n <= 1024 -> answers w c sent qr -> Success qr = true ->
      n <= Z.of_nat (List.length (Data qr)) ->
      (GetRandomUint8 w c n sent).1
        = (map (fun v => v mod 256) (Data qr), None) /\
      (GetRandomUint16 w c n sent).1
        = (map (fun v => v mod 65536) (Data qr), None)).
Proof.
  split; [reflexivity|]. split; [reflexivity|]. split; [reflexivity|].
  split; [|split].
  - intros data. apply convertUint8_map.
  - intros data. apply convertUint16_map.
  - intros w c n sent qr Hn Hans Hok Hlen. split.
    + by destruct (GetRandomUint8_answered w c n sent qr Hn Hans Hok Hlen)
        as (req & _ & ->).
    + by destruct (GetRandomUint16_answered w c n sent qr Hn Hans Hok Hlen)
        as (req & _ & ->).
Qed.

(** ** As many results as values received *)

Lemma GetRandomUint8_success_inv (w : World) (c : QRNGClient) (n : Z)
    (sent sent' : list http_Request) (out : list Z) :
  GetRandomUint8 w c n sent = ((out, None), sent') ->
  exists req qr,
    sent' = sent ++ [req] /\ decoded w sent req qr /\
    n <= Z.of_nat (List.length (Data qr)) /\
    out = map GoInt.uint8 (Data qr).
Proof.
  unfold GetRandomUint8.
  destruct ((n <? 1) || (maxUint8Length <? n)); [discriminate|].
  destruct (doRequest w c n "uint8" 0 sent) as [[[qr|] [e|]] s] eqn:Hdo;
    try discriminate.
  - apply doRequest_success_inv in Hdo as (req & -> & Hdec & _ & Hlen).
    intros [= <- <-]. exists req, qr. by rewrite convertUint8_map.
  - by apply doRequest_nil in Hdo.
Qed.

Lemma GetRandomUint16_success_inv (w : World) (c : QRNGClient) (n : Z)
    (sent sent' : list http_Request) (out : list Z) :
  GetRandomUint16 w c n sent = ((out, None), sent') ->
  exists req qr,
    sent' = sent ++ [req] /\ decoded w sent req qr /\
    n <= Z.of_nat (List.length (Data qr)) /\
    out = map GoInt.uint16 (Data qr).
Proof.
  unfold GetRandomUint16.
  destruct ((n <? 1) || (maxUint16Length <? n)); [discriminate|].
  destruct (doRequest w c n "uint16" 0 sent) as [[[qr|] [e|]] s] eqn:Hdo;
    try discriminate.
  - apply doRequest_success_inv in Hdo as (req & -> & Hdec & _ & Hlen).
    intros [= <- <-]. exists req, qr. by rewrite convertUint16_map.
  - by apply doRequest_nil in Hdo.
Qed.

Lemma GetRandomHex_success_inv (w : World) (c : QRNGClient)
    (blockCount blockSize : Z) (hexType : string)
    (sent sent' : list http_Request) (out : list string) :
  GetRandomHex w c blockCount blockSize hexType sent = ((out, None), sent') ->
  exists req qr,
    sent' = sent ++ [req] /\ decoded w sent req qr /\
    blockCount <= Z.of_nat (List.length (Data qr)) /\
    out = formatHex (Data qr) hexType blockSize.
Proof.
  unfold GetRandomHex.
  destruct (negb (bool_decide (hexType = "hex8"))
            && negb (bool_decide (hexType = "hex16"))); [discriminate|].
  destruct ((blockSize <? 1) || (10 <? blockSize)); [discriminate|].
  destruct (doRequest w c blockCount hexType blockSize sent)
    as [[[qr|] [e|]] s] eqn:Hdo; try discriminate.
  - apply doRequest_success_inv in Hdo as (req & -> & Hdec & _ & Hlen).
    intros [= <- <-]. by exists req, qr.
  - by apply doRequest_nil in Hdo.
Qed.

(** C10. A successful [GetRandomUint8], [GetRandomUint16] or
    [GetRandomHex] returns as many elements as the data of the envelope
    the answer decoded to, which has at least the count asked for and may
    have more: asking for two values of a service that sends three gives
    three. *)
Theorem results_as_long_as_the_data :
  (forall (w : World) (c : QRNGClient) (n : Z)
          (sent sent' : list http_Request) (out : list Z),
      GetRandomUint8 w c n sent = ((out, None), sent') \/
      GetRandomUint16 w c n sent = ((out, None), sent') ->
      exists req qr,
        sent' = sent ++ [req] /\ decoded w sent req qr /\
        n <= Z.of_nat (List.length (Data qr)) /\
        List.length out = List.length (Data qr)) /\
  (forall (w : World) (c : QRNGClient) (blockCount blockSize : Z)
          (hexType : string) (sent sent' : list http_Request)
          (out : list string),
      GetRandomHex w c blockCount blockSize hexType sent
        = ((out, None), sent') ->
      exists req qr,
        sent' = sent ++ [req] /\ decoded w sent req qr /\
        blockCount <= Z.of_nat (List.length (Data qr)) /\
        List.length out = List.length (Data qr)) /\
  (GetRandomUint8 (serving (envelope "uint8" [1; 2; 3])) NewClient 2 []).1
    = ([1; 2; 3], None) /\
  (GetRandomUint16 (serving (envelope "uint16" [1; 2; 3])) NewClient 2 []).1
    = ([1; 2; 3], None) /\
  (GetRandomHex (serving (envelope "hex16" [1; 2; 3])) NewClient
     2 2 "hex16" []).1
    = (["0001"; "0002"; "0003"], None).
Proof.
  split; [|split; [|repeat split]].
  - intros w c n sent sent' out [H8|H16].
    + apply GetRandomUint8_success_inv in H8
        as (req & qr & -> & Hdec & Hlen & ->).
      exists req, qr. by rewrite length_map.
    + apply GetRandomUint16_success_inv in H16
        as (req & qr & -> & Hdec & Hlen & ->).
      exists req, qr. by rewrite length_map.
  - intros w c blockCount blockSize hexType sent sent' out Hhex.
    apply GetRandomHex_success_inv in Hhex
      as (req & qr & -> & Hdec & Hlen & ->).
    exists req, qr. by rewrite formatHex_map, length_map.
Qed.

Lemma results_as_long_as_the_data_three_for_two :
  exists req qr,
    (GetRandomUint8 (serving (envelope "uint8" [1; 2; 3])) NewClient 2 []).2
      = [] ++ [req] /\
    decoded (serving (envelope "uint8" [1; 2; 3])) [] req qr /\
    2 <= Z.of_nat (List.length (Data qr)) /\
    List.length [1; 2; 3] = List.length (Data qr).
Proof.
  destruct (GetRandomUint8 (serving (envelope "uint8" [1; 2; 3]))
              NewClient 2 []) as [[out err] s] eqn:E.
  assert ((out, err) = ([1; 2; 3], None)) as [= -> ->].
  { change (out, err) with ((out, err), s).1. rewrite <- E. reflexivity. }
  exact (proj1 results_as_long_as_the_data _ _ _ _ _ _ (or_introl E)).
Defined.

(** ** The sampler returns *)

(** The return path of the sampler is open for every range of at most
    [2^62] values: when the service answers the first draw with a success
    envelope of enough values whose masked reading is below the range
    size, [GetRandomNumber] returns [min] plus that reading after one
    request. *)
Lemma GetRandomNumber_accepts_first_draw (w : World) (c : QRNGClient)
    (rounds : nat) (min max : Z) (sent : list http_Request)
    (qr : QRNGResponse) (b : Z) :
  GoInt.in_range min -> GoInt.in_range max -> min <= max ->
  max - min + 1 <= 2 ^ 62 -> (62 <= rounds)%nat ->
  answers w c sent qr -> Success qr = true ->
  bitSize_loop rounds 1 (rangeSize_of min max) = Returns b ->
  (b + 7) / 8 <= Z.of_nat (List.length (Data qr)) ->
  Z.land (bytesToInt (map GoInt.uint8 (Data qr))) (2 ^ b - 1)
    < max - min + 1 ->
  exists req,
    GetRandomNumber w c rounds min max sent
    = (Returns (min + Z.land (bytesToInt (map GoInt.uint8 (Data qr)))
                             (2 ^ b - 1), None),
       sent ++ [req]).
Proof.
  intros Hmin Hmax Hle Hsize Hrounds Hans Hok Hb Hlen Hdraw.
  destruct (GetRandomNumber_draws w c rounds min max sent
              Hmin Hmax Hle Hsize Hrounds)
    as (b' & Hb' & Hrange & _ & _ & ->).
  rewrite Hb in Hb'. injection Hb' as <-.
  destruct rounds as [|rounds]; [lia|]. cbn [sample_loop].
  assert (1 <= (b + 7) / 8 <= 1024) as Hbytes.
  { pose proof (Z.div_mod (b + 7) 8 ltac:(lia)).
    pose proof (Z.mod_pos_bound (b + 7) 8 ltac:(lia)). lia. }
  destruct (GetRandomUint8_answered w c ((b + 7) / 8) sent qr
              Hbytes Hans Hok Hlen) as (req & _ & ->).
  exists req.
  destruct (Z.ltb_spec
              (Z.land (bytesToInt (map GoInt.uint8 (Data qr))) (2 ^ b - 1))
              (max - min + 1)); [|lia].
  unfold GoInt.add. rewrite wrap_exact; [done|].
  assert (0 <= Z.land (bytesToInt (map GoInt.uint8 (Data qr))) (2 ^ b - 1)).
  { apply Z.land_nonneg. right. pose proof (pow2_le_62 b ltac:(lia)). lia. }
  unfold GoInt.in_range in *. lia.
Qed.


(** * Further properties *)

(** ** Counts that are refused *)

(** X1. A count outside the accepted bounds is refused by the accessor
    itself: [GetRandomBits] outside 1..8192, [GetRandomUint8] and
    [GetRandomUint16] outside 1..1024, each with its own message, for
    every client (also one without the key it needs) and with nothing
    handed to the transport. *)
Theorem accessors_refuse_counts (w : World) (c : QRNGClient) (n : Z)
    (sent : list http_Request) :
  (n < 1 \/ 8192 < n ->
   GetRandomBits w c n sent
     = (([], Some (fmt_Errorf "numBits must be between 1 and 8192")), sent)) /\
  (n < 1 \/ 1024 < n ->
   GetRandomUint8 w c n sent
     = (([], Some (fmt_Errorf "numBytes must be between 1 and 1024")), sent) /\
   GetRandomUint16 w c n sent
     = (([], Some (fmt_Errorf "numShorts must be between 1 and 1024")), sent)).
Proof.
  split.
  - intros Hn. unfold GetRandomBits.
    assert ((n <? 1) || (maxBits <? n) = true) as ->; [|reflexivity].
    apply orb_true_iff. unfold maxBits, maxUint8Length.
    destruct Hn; [left; apply Z.ltb_lt | right; apply Z.ltb_lt]; lia.
  - intros Hn.
    assert ((n <? 1) || (1024 <? n) = true) as Hguard.
    { apply orb_true_iff.
      destruct Hn; [left; apply Z.ltb_lt | right; apply Z.ltb_lt]; lia. }
    unfold GetRandomUint8, GetRandomUint16, maxUint8Length, maxUint16Length.
    rewrite Hguard. split; reflexivity.
Qed.

Lemma accessors_refuse_counts_examples :
  GetRandomBits (serving (envelope "uint8" [1])) (NewClientWithAPIKey "") 0 []
    = (([], Some (fmt_Errorf "numBits must be between 1 and 8192")), []) /\
  GetRandomUint8 (serving (envelope "uint8" [1])) NewClient 1025 []
    = (([], Some (fmt_Errorf "numBytes must be between 1 and 1024")), []) /\
  GetRandomUint16 (serving (envelope "uint8" [1])) NewClient 1025 []
    = (([], Some (fmt_Errorf "numShorts must be between 1 and 1024")), []).
Proof.
  split.
  - apply (accessors_refuse_counts (serving (envelope "uint8" [1]))
             (NewClientWithAPIKey "") 0 []). left. lia.
  - apply (accessors_refuse_counts (serving (envelope "uint8" [1]))
             NewClient 1025 []). right. lia.
Defined.

(** ** One round trip per accessor *)

Lemma accessor_sent {A B : Type} (r : ret (option QRNGResponse))
    (f : QRNGResponse -> A) (nil : A) (g : A -> B) :
  (match r with
   | ((_, Some err), sent') => ((g nil, Some err), sent')
   | ((Some qr, None), sent') => ((g (f qr), None), sent')
   | ((None, None), sent') => ((g nil, None), sent')
   end).2 = r.2.
Proof. by destruct r as [[[qr|] [err|]] s]. Qed.

(** X2. Each accessor hands at most one request to the transport, and it
    is the request for what was asked: [ceil(n/8)] values of type [uint8]
    for [n] bits, [n] values of [uint8] or [uint16], [blockCount] values
    of the hex type.  The log of earlier requests is never changed. *)
Theorem accessors_send_at_most_one_request (w : World) (c : QRNGClient)
    (n blockSize : Z) (hexType : string) (sent : list http_Request) :
  ((GetRandomBits w c n sent).2 = sent \/
   exists req, (GetRandomBits w c n sent).2 = sent ++ [req] /\
               asks ((n + 7) / 8) "uint8" req) /\
  ((GetRandomUint8 w c n sent).2 = sent \/
   exists req, (GetRandomUint8 w c n sent).2 = sent ++ [req] /\
               asks n "uint8" req) /\
  ((GetRandomUint16 w c n sent).2 = sent \/
   exists req, (GetRandomUint16 w c n sent).2 = sent ++ [req] /\
               asks n "uint16" req) /\
  ((GetRandomHex w c n blockSize hexType sent).2 = sent \/
   exists req, (GetRandomHex w c n blockSize hexType sent).2 = sent ++ [req] /\
               asks n hexType req).
Proof.
  split; [|split; [|split]].
  - unfold GetRandomBits.
    destruct (Z.ltb_spec n 1); [by left|].
    destruct (Z.ltb_spec maxBits n) as [|Hn]; [by left|]. cbn [orb].
    unfold maxBits, maxUint8Length in Hn.
    destruct (requiredBytes_ceil8 n ltac:(lia)) as (-> & _).
    rewrite (accessor_sent _ (fun qr => extractBits (Data qr) n) [] id).
    destruct (doRequest_sent w c ((n + 7) / 8) "uint8" 0 sent)
      as [E|(req & E & Hasks & _)]; [by left | right; by exists req].
  - apply GetRandomUint8_sent.
  - unfold GetRandomUint16.
    destruct ((n <? 1) || (maxUint16Length <? n)); [by left|].
    rewrite (accessor_sent _ (fun qr => convertUint16 (Data qr)) [] id).
    destruct (doRequest_sent w c n "uint16" 0 sent)
      as [E|(req & E & Hasks & _)]; [by left | right; by exists req].
  - unfold GetRandomHex.
    destruct (negb (bool_decide (hexType = "hex8"))
              && negb (bool_decide (hexType = "hex16"))); [by left|].
    destruct ((blockSize <? 1) || (10 <? blockSize)); [by left|].
    rewrite (accessor_sent _
               (fun qr => formatHex (Data qr) hexType blockSize) [] id).
    destruct (doRequest_sent w c n hexType blockSize sent)
      as [E|(req & E & Hasks & _)]; [by left | right; by exists req].
Qed.

(** ** What a successful call guarantees *)

(** X3. Whatever the service does, a [GetRandomBits n] that returns
    without an error returns exactly [n] elements, each 0 or 1: the first
    [n] bits of the data of the envelope the one answer decoded to; and
    [n] was between 1 and 8192. *)
Theorem GetRandomBits_success_shape (w : World) (c : QRNGClient) (n : Z)
    (sent sent' : list http_Request) (bits : list Z) :
  GetRandomBits w c n sent = ((bits, None), sent') ->
  1 <= n <= 8192 /\
  Z.of_nat (List.length bits) = n /\
  Forall (fun b => b = 0 \/ b = 1) bits /\
  exists req qr,
    sent' = sent ++ [req] /\ decoded w sent req qr /\
    bits = unpack_bits (Data qr) n.
Proof.
  unfold GetRandomBits.
  destruct (Z.ltb_spec n 1); [discriminate|].
  destruct (Z.ltb_spec maxBits n) as [|Hn]; [discriminate|]. cbn [orb].
  unfold maxBits, maxUint8Length in Hn.
  destruct (requiredBytes_ceil8 n ltac:(lia)) as (-> & Hceil).
  destruct (doRequest w c ((n + 7) / 8) "uint8" 0 sent)
    as [[[qr|] [e|]] s] eqn:Hdo; try discriminate.
  - apply doRequest_success_inv in Hdo as (req & -> & Hdec & _ & Hlen).
    rewrite extractBits_unpack by lia. intros [= <- <-].
    split; [lia|]. split; [|split; [apply unpack_bits_binary|]].
    + apply unpack_bits_length. unfold ceil8 in Hceil. lia.
    + by exists req, qr.
  - by apply doRequest_nil in Hdo.
Qed.

Lemma GetRandomBits_success_shape_five_bits :
  1 <= 5 <= 8192 /\
  Z.of_nat (List.length [1; 0; 1; 0; 0]) = 5 /\
  Forall (fun b => b = 0 \/ b = 1) [1; 0; 1; 0; 0] /\
  exists req qr,
    (GetRandomBits (serving (envelope "uint8" [165])) NewClient 5 []).2
      = [] ++ [req] /\
    decoded (serving (envelope "uint8" [165])) [] req qr /\
    [1; 0; 1; 0; 0] = unpack_bits (Data qr) 5.
Proof.
  destruct (GetRandomBits (serving (envelope "uint8" [165])) NewClient 5 [])
    as [[out err] s] eqn:E.
  assert ((out, err) = ([1; 0; 1; 0; 0], None)) as [= -> ->].
  { change (out, err) with ((out, err), s).1. rewrite <- E. reflexivity. }
  exact (GetRandomBits_success_shape _ _ _ _ _ _ E).
Defined.

Lemma map_uint8_fitting (data : list Z) :
  Forall (fun v => 0 <= v <= 255) data -> map GoInt.uint8 data = data.
Proof.
  induction 1 as [|v data Hv _ IH]; [done|].
  cbn [map]. rewrite IH. f_equal. unfold GoInt.uint8.
  apply Z.mod_small. change (2 ^ 8) with 256. lia.
Qed.

Lemma map_uint16_fitting (data : list Z) :
  Forall (fun v => 0 <= v <= 65535) data -> map GoInt.uint16 data = data.
Proof.
  induction 1 as [|v data Hv _ IH]; [done|].
  cbn [map]. rewrite IH. f_equal. unfold GoInt.uint16.
  apply Z.mod_small. change (2 ^ 16) with 65536. lia.
Qed.

(** X5. Values that already fit pass through unchanged: on a success
    envelope whose data lies in 0..255 (in 0..65535) [GetRandomUint8]
    ([GetRandomUint16]) returns that data as it is. *)
Theorem fitting_values_pass_unchanged (w : World) (c : QRNGClient) (n : Z)
    (sent : list http_Request) (qr : QRNGResponse) :
  1 <= n <= 1024 -> answers w c sent qr -> Success qr = true ->
  n <= Z.of_nat (List.length (Data qr)) ->
  (Forall (fun v => 0 <= v <= 255) (Data qr) ->
   (GetRandomUint8 w c n sent).1 = (Data qr, None)) /\
  (Forall (fun v => 0 <= v <= 65535) (Data qr) ->
   (GetRandomUint16 w c n sent).1 = (Data qr, None)).
Proof.
  intros Hn Hans Hok Hlen. split; intros Hfit.
  - destruct (GetRandomUint8_answered w c n sent qr Hn Hans Hok Hlen)
      as (req & _ & ->). cbn [fst]. by rewrite map_uint8_fitting.
  - destruct (GetRandomUint16_answered w c n sent qr Hn Hans Hok Hlen)
      as (req & _ & ->). cbn [fst]. by rewrite map_uint16_fitting.
Qed.

Lemma fitting_values_pass_unchanged_examples :
  (GetRandomUint8 (serving (envelope "uint8" [123; 255])) NewClient 2 []).1
    = ([123; 255], None) /\
  (GetRandomUint16 (serving (envelope "uint16" [32767; 65535]))
     (NewClientWithAPIKey "---") 2 []).1 = ([32767; 65535], None).
Proof.
  split.
  - apply (fitting_values_pass_unchanged
             (serving (envelope "uint8" [123; 255])) NewClient 2 []
             (envelope "uint8" [123; 255]));
      [lia | by apply serving_answers | reflexivity | by vm_compute |].
    repeat constructor; lia.
  - apply (fitting_values_pass_unchanged
             (serving (envelope "uint16" [32767; 65535]))
             (NewClientWithAPIKey "---") 2 []
             (envelope "uint16" [32767; 65535]));
      [lia | apply serving_answers; intros _; discriminate
      | reflexivity | by vm_compute |].
    repeat constructor; lia.
Defined.

(** ** Failures of the round trip *)

Lemma errors_Is_refl (e : error) : errors_Is e e = true.
Proof. destruct e; cbn; by rewrite decide_True. Qed.

Lemma errors_Is_wrapped (text : string) (cause : error) :
  errors_Is (fmt_Errorf_w text cause) cause = true.
Proof.
  cbn. destruct (decide (fmt_Errorf_w text cause = cause)); [done|].
  apply errors_Is_refl.
Qed.

Lemma doRequest_transport_fails (w : World) (c : QRNGClient) (length : Z)
    (dataType : string) (blockSize : Z) (sent : list http_Request)
    (err : error) :
  transport_fails w c sent err ->
  exists req,
    asks length dataType req /\
    doRequest w c length dataType blockSize sent
      = ((None, Some (fmt_Errorf_w ("request failed: " +:+ error_text err)
                        err)), sent ++ [req]).
Proof.
  intros (Hkey & Hurl & Hdo). unfold doRequest.
  assert (requiresAPIKey c && bool_decide (APIKey c = "") = false) as ->.
  { destruct (requiresAPIKey c); [|done]. cbn.
    apply bool_decide_eq_false. by apply Hkey. }
  cbv zeta. rewrite Hurl, Hdo.
  eexists. split; [apply query_asks | reflexivity].
Qed.

(** X6. When the transport fails a request, [doRequest] has handed over
    that one request and returns no envelope but an error that says
    "request failed", carries the text of the cause and wraps it, so that
    [errors.Is] finds the cause; the accessors return it with an empty
    slice. *)
Theorem transport_failure_is_reported (w : World) (c : QRNGClient)
    (length : Z) (dataType : string) (blockSize : Z)
    (sent : list http_Request) (err : error) :
  transport_fails w c sent err ->
  exists req e,
    doRequest w c length dataType blockSize sent
      = ((None, Some e), sent ++ [req]) /\
    error_text e = "request failed: " +:+ error_text err /\
    errors_Is e err = true /\
    (1 <= length <= 1024 ->
     (GetRandomUint8 w c length sent).1 = ([], Some e) /\
     (GetRandomUint16 w c length sent).1 = ([], Some e)).
Proof.
  intros Hfail.
  destruct (doRequest_transport_fails w c length dataType blockSize sent err
              Hfail) as (req & _ & Hdo).
  exists req, (fmt_Errorf_w ("request failed: " +:+ error_text err) err).
  split; [exact Hdo|]. split; [done|]. split; [apply errors_Is_wrapped|].
  intros Hn.
  destruct (doRequest_transport_fails w c length "uint8" 0 sent err Hfail)
    as (r8 & _ & H8).
  destruct (doRequest_transport_fails w c length "uint16" 0 sent err Hfail)
    as (r16 & _ & H16).
  unfold GetRandomUint8, GetRandomUint16, maxUint8Length, maxUint16Length.
  destruct (Z.ltb_spec length 1); [lia|].
  destruct (Z.ltb_spec 1024 length); [lia|]. cbn [orb].
  by rewrite H8, H16.
Qed.

Lemma transport_failure_is_reported_timeout :
  exists req e,
    doRequest (failing (errors_New "context deadline exceeded")) NewClient
        3 "uint8" 0 []
      = ((None, Some e), [] ++ [req]) /\
    error_text e = "request failed: context deadline exceeded" /\
    errors_Is e (errors_New "context deadline exceeded") = true /\
    (1 <= 3 <= 1024 ->
     (GetRandomUint8 (failing (errors_New "context deadline exceeded"))
        NewClient 3 []).1 = ([], Some e) /\
     (GetRandomUint16 (failing (errors_New "context deadline exceeded"))
        NewClient 3 []).1 = ([], Some e)).
Proof.
  apply (transport_failure_is_reported
           (failing (errors_New "context deadline exceeded")) NewClient
           3 "uint8" 0 [] (errors_New "context deadline exceeded")).
  split; [discriminate|]. by split.
Defined.

(** X7. An answer with a status other than 200 is never decoded: whatever
    its body would decode to, [doRequest] returns no envelope but the
    error "unexpected status code", with the code and the body as text. *)
Theorem other_status_is_an_error (w : World) (c : QRNGClient)
    (length : Z) (dataType : string) (blockSize : Z)
    (sent : list http_Request) (code : Z) (body : string) :
  answers_status w c sent code body -> code <> 200 ->
  exists req,
    doRequest w c length dataType blockSize sent
      = ((None, Some (fmt_Errorf ("unexpected status code " +:+ Itoa code
                                  +:+ ": " +:+ body))),
         sent ++ [req]).
Proof.
  intros (Hkey & Hurl & Hdo) Hcode. unfold doRequest.
  assert (requiresAPIKey c && bool_decide (APIKey c = "") = false) as ->.
  { destruct (requiresAPIKey c); [|done]. cbn.
    apply bool_decide_eq_false. by apply Hkey. }
  cbv zeta. rewrite Hurl, Hdo. cbn [StatusCode Body].
  destruct (Z.eqb_spec code http_StatusOK) as [E|_]; [done|].
  cbn [negb]. by eexists.
Qed.

Lemma other_status_is_an_error_unauthorized :
  exists req,
    doRequest (serving_status 401 (envelope "uint16" [42]))
        (NewClientWithAPIKey "wrong") 1 "uint16" 0 []
      = ((None, Some (fmt_Errorf "unexpected status code 401: envelope")),
         [] ++ [req]).
Proof.
  apply (other_status_is_an_error
           (serving_status 401 (envelope "uint16" [42]))
           (NewClientWithAPIKey "wrong") 1 "uint16" 0 [] 401 "envelope").
  - split; [intros _; discriminate|]. by split.
  - lia.
Defined.

(** ** The query *)

(** The request [doRequest] hands over is a GET of the client's endpoint
    whose query has [size] exactly for a type that starts with "hex" and a
    positive block size. *)
Lemma doRequest_sent_query (w : World) (c : QRNGClient) (length : Z)
    (dataType : string) (blockSize : Z) (sent : list http_Request)
    (req : http_Request) :
  (doRequest w c length dataType blockSize sent).2 = sent ++ [req] ->
  Method req = "GET" /\ Endpoint req = APIEndpoint c /\
  Query req !! "size"
    = (if HasPrefix dataType "hex" && (0 <? blockSize)
       then Some [Itoa blockSize] else None).
Proof.
  unfold doRequest. cbv zeta.
  destruct (requiresAPIKey c && bool_decide (APIKey c = ""));
    [by intros ?%sent_one_more|].
  destruct (http_NewRequest w _ _); [by intros ?%sent_one_more|].
  match goal with
  | |- context [client_Do w _ sent ?r] => set (built := r)
  end.
  assert ((match client_Do w
                   match HTTPClient c with
                   | Some cl => cl
                   | None => http_DefaultClient
                   end sent built with
           | inl err =>
               ((None : option QRNGResponse,
                 Some (fmt_Errorf_w ("request failed: " +:+ error_text err)
                         err)), sent ++ [built])
           | inr resp => _
           end).2 = sent ++ [built]) as ->.
  { destruct (client_Do w _ sent built); [reflexivity|].
    repeat case_match; reflexivity. }
  intros E%app_inv_head. injection E as <-.
  split; [done|]. split; [done|]. subst built. cbn [Query].
  unfold values_Add.
  destruct (HasPrefix dataType "hex" && (0 <? blockSize)); by simplify_map_eq.
Qed.

(** X8. The block size travels with hex requests only: a request that
    [GetRandomHex] hands over is a GET of the client's endpoint with
    [size] set to the block size, and a request of [GetRandomBits],
    [GetRandomUint8] or [GetRandomUint16] has no [size] at all. *)
Theorem size_is_sent_for_hex_only (w : World) (c : QRNGClient)
    (n blockSize : Z) (hexType : string) (sent : list http_Request)
    (req : http_Request) :
  ((GetRandomHex w c n blockSize hexType sent).2 = sent ++ [req] ->
   Method req = "GET" /\ Endpoint req = APIEndpoint c /\
   Query req !! "size" = Some [Itoa blockSize]) /\
  ((GetRandomBits w c n sent).2 = sent ++ [req] \/
   (GetRandomUint8 w c n sent).2 = sent ++ [req] \/
   (GetRandomUint16 w c n sent).2 = sent ++ [req] ->
   Method req = "GET" /\ Endpoint req = APIEndpoint c /\
   Query req !! "size" = None).
Proof.
  split.
  - unfold GetRandomHex.
    destruct (bool_decide (hexType = "hex8")) eqn:H8;
      [|destruct (bool_decide (hexType = "hex16")) eqn:H16];
      cbn [negb andb]; [| |by intros ?%sent_one_more].
    all: destruct (Z.ltb_spec blockSize 1); [by intros ?%sent_one_more|].
    all: destruct (Z.ltb_spec 10 blockSize); [by intros ?%sent_one_more|].
    all: cbn [orb].
    all: rewrite (accessor_sent _
                    (fun qr => formatHex (Data qr) hexType blockSize) [] id).
    all: intros Hreq; apply doRequest_sent_query in Hreq
           as (Hm & He & Hsize).
    all: split; [done|]; split; [done|]; rewrite Hsize.
    + apply bool_decide_eq_true in H8 as ->.
      destruct (Z.ltb_spec 0 blockSize); [done | lia].
    + apply bool_decide_eq_true in H16 as ->.
      destruct (Z.ltb_spec 0 blockSize); [done | lia].
  - intros [Hreq|[Hreq|Hreq]].
    + unfold GetRandomBits in Hreq.
      destruct ((n <? 1) || (maxBits <? n)); [by apply sent_one_more in Hreq|].
      rewrite (accessor_sent _ (fun qr => extractBits (Data qr) n) [] id)
        in Hreq.
      by apply doRequest_sent_query in Hreq.
    + unfold GetRandomUint8 in Hreq.
      destruct ((n <? 1) || (maxUint8Length <? n));
        [by apply sent_one_more in Hreq|].
      rewrite (accessor_sent _ (fun qr => convertUint8 (Data qr)) [] id)
        in Hreq.
      by apply doRequest_sent_query in Hreq.
    + unfold GetRandomUint16 in Hreq.
      destruct ((n <? 1) || (maxUint16Length <? n));
        [by apply sent_one_more in Hreq|].
      rewrite (accessor_sent _ (fun qr => convertUint16 (Data qr)) [] id)
        in Hreq.
      by apply doRequest_sent_query in Hreq.
Qed.

Lemma size_is_sent_for_hex_only_examples :
  exists hex bytes,
    (GetRandomHex (serving (envelope "hex8" [1])) NewClient 1 3 "hex8" []).2
      = [] ++ [hex] /\
    Query hex !! "size" = Some ["3"] /\
    (GetRandomUint8 (serving (envelope "uint8" [1])) NewClient 1 []).2
      = [] ++ [bytes] /\
    Query bytes !! "size" = None.
Proof.
  destruct (doRequest_answered (serving (envelope "hex8" [1])) NewClient
              1 "hex8" 3 [] (envelope "hex8" [1])) as (hex & _ & _ & Hhex).
  { by apply serving_answers. }
  destruct (GetRandomUint8_answered (serving (envelope "uint8" [1])) NewClient
              1 [] (envelope "uint8" [1])) as (bytes & _ & Hbytes);
    [lia | by apply serving_answers | reflexivity | by vm_compute |].
  assert ((GetRandomHex (serving (envelope "hex8" [1])) NewClient
             1 3 "hex8" []).2 = [] ++ [hex]) as Hsent.
  { unfold GetRandomHex. cbn [bool_decide negb andb orb Z.ltb].
    change (bool_decide ("hex8" = "hex8")) with true.
    cbn [negb andb]. change (3 <? 1) with false. change (10 <? 3) with false.
    cbn [orb]. by rewrite Hhex. }
  exists hex, bytes.
  split; [exact Hsent|]. split.
  - apply (size_is_sent_for_hex_only (serving (envelope "hex8" [1]))
             NewClient 1 3 "hex8" [] hex), Hsent.
  - split; [by rewrite Hbytes|].
    apply (size_is_sent_for_hex_only (serving (envelope "uint8" [1]))
             NewClient 1 3 "hex8" [] bytes).
    right. left. by rewrite Hbytes.
Defined.

(** ** Bytes into an integer *)

Lemma wrap_congruent (z : Z) : exists k, GoInt.wrap z = z + k * 2 ^ 64.
Proof.
  exists (- ((z + 2 ^ 63) / 2 ^ 64)). unfold GoInt.wrap.
  rewrite Z.mod_eq by discriminate. lia.
Qed.

Lemma wrap_shifted (z k : Z) : GoInt.wrap (z + k * 2 ^ 64) = GoInt.wrap z.
Proof.
  unfold GoInt.wrap.
  replace (z + k * 2 ^ 64 + 2 ^ 63) with (z + 2 ^ 63 + k * 2 ^ 64) by lia.
  by rewrite Z.mod_add by discriminate.
Qed.

Lemma land_above_byte (m b : Z) : 0 <= b < 256 -> Z.land (256 * m) b = 0.
Proof.
  intros Hb. apply Z.bits_inj_0. intros n. rewrite Z.land_spec.
  destruct (Z.lt_ge_cases n 8) as [Hlow|Hhigh].
  - replace (256 * m) with (m * 2 ^ 8) by (change (2 ^ 8) with 256; lia).
    by rewrite Z.mul_pow2_bits_low.
  - rewrite <- (Z.mod_small b (2 ^ 8)) by (change (2 ^ 8) with 256; lia).
    rewrite Z.mod_pow2_bits_high by lia. apply andb_false_r.
Qed.

(** One round of the loop: the wrapped shift leaves the low byte free,
    so the [|] adds the byte, and nothing overflows by it. *)
Lemma bytesToInt_round (acc b : Z) :
  0 <= b < 256 ->
  Z.lor (GoInt.shl_by acc 8) b = GoInt.wrap (256 * acc + b).
Proof.
  intros Hb. unfold GoInt.shl_by, GoInt.bits.
  change (64 <=? 8) with false. cbv iota.
  rewrite Z.shiftl_mul_pow2 by lia. change (2 ^ 8) with 256.
  destruct (wrap_congruent (acc * 256)) as (k & Hk).
  pose proof (wrap_in_range (acc * 256)) as Hr. rewrite Hk in *.
  replace (acc * 256 + k * 2 ^ 64) with (256 * (acc + k * 2 ^ 56)) in *
    by (change (2 ^ 64) with (256 * 2 ^ 56); lia).
  rewrite <- Z.add_nocarry_lor by (by apply land_above_byte).
  replace (256 * acc + b)
    with (256 * (acc + k * 2 ^ 56) + b + (- k) * 2 ^ 64)
    by (change (2 ^ 64) with (256 * 2 ^ 56); lia).
  rewrite wrap_shifted, wrap_exact; [done|].
  unfold GoInt.in_range, GoInt.min_int, GoInt.max_int in *.
  change (2 ^ 63) with (256 * 2 ^ 55) in *. lia.
Qed.

Lemma be_fold_congruent (bytes : list Z) (x k : Z) :
  exists k',
    fold_left (fun acc b => 256 * acc + b) bytes (x + k * 2 ^ 64)
    = fold_left (fun acc b => 256 * acc + b) bytes x + k' * 2 ^ 64.
Proof.
  revert x k. induction bytes as [|b bytes IH]; intros x k; cbn [fold_left].
  { by exists k. }
  destruct (IH (256 * x + b) (256 * k)) as (k' & Hk').
  exists k'. rewrite <- Hk'. f_equal. lia.
Qed.

Lemma bytesToInt_from_wrap (bytes : list Z) (acc : Z) :
  GoInt.in_range acc -> Forall (fun b => 0 <= b < 256) bytes ->
  bytesToInt_from acc bytes
  = GoInt.wrap (fold_left (fun a b => 256 * a + b) bytes acc).
Proof.
  intros Hacc Hbytes. revert acc Hacc.
  induction Hbytes as [|b bytes Hb _ IH]; intros acc Hacc;
    cbn [bytesToInt_from fold_left].
  { by rewrite wrap_exact. }
  rewrite bytesToInt_round by done.
  rewrite IH by apply wrap_in_range.
  destruct (wrap_congruent (256 * acc + b)) as (k & ->).
  destruct (be_fold_congruent bytes (256 * acc + b) k) as (k' & ->).
  apply wrap_shifted.
Qed.

Lemma be_fold_bound (bytes : list Z) (acc : Z) (k : nat) :
  Forall (fun b => 0 <= b < 256) bytes -> 0 <= acc < 256 ^ Z.of_nat k ->
  0 <= fold_left (fun a b => 256 * a + b) bytes acc
    < 256 ^ Z.of_nat (k + List.length bytes).
Proof.
  intros Hbytes. revert acc k.
  induction Hbytes as [|b bytes Hb _ IH]; intros acc k Hacc;
    cbn [fold_left List.length].
  { by rewrite Nat.add_0_r. }
  replace (k + S (List.length bytes))%nat
    with (S k + List.length bytes)%nat by lia.
  apply IH. rewrite Nat2Z.inj_succ, Z.pow_succ_r by lia. lia.
Qed.

(** X9. [bytesToInt] reads its bytes most significant first: it is the
    big-endian value of the sequence wrapped to an [int], hence that
    value itself, between 0 and [256^n], for up to seven bytes. *)
Theorem bytesToInt_big_endian (bytes : list Z) :
  Forall (fun b => 0 <= b < 256) bytes ->
  bytesToInt bytes = GoInt.wrap (be_value bytes) /\
  ((List.length bytes <= 7)%nat ->
   bytesToInt bytes = be_value bytes /\
   0 <= be_value bytes < 256 ^ Z.of_nat (List.length bytes)).
Proof.
  intros Hbytes.
  assert (bytesToInt bytes = GoInt.wrap (be_value bytes)) as Hwrap.
  { apply bytesToInt_from_wrap; [by vm_compute | done]. }
  split; [done|]. intros Hlen.
  pose proof (be_fold_bound bytes 0 0 Hbytes ltac:(cbn; lia)) as Hbound.
  cbn [Nat.add] in Hbound. fold (be_value bytes) in Hbound.
  split; [|done]. rewrite Hwrap. apply wrap_exact.
  assert (256 ^ Z.of_nat (List.length bytes) <= 256 ^ 7)
    by (apply Z.pow_le_mono_r; lia).
  unfold GoInt.in_range, GoInt.min_int, GoInt.max_int.
  change (2 ^ 63) with (128 * 256 ^ 7). lia.
Qed.

Lemma bytesToInt_big_endian_two_bytes :
  bytesToInt [5; 9] = GoInt.wrap (be_value [5; 9]) /\
  ((List.length [5; 9] <= 7)%nat ->
   bytesToInt [5; 9] = be_value [5; 9] /\
   0 <= be_value [5; 9] < 256 ^ Z.of_nat (List.length [5; 9])).
Proof.
  apply (bytesToInt_big_endian [5; 9]). repeat constructor; lia.
Defined.

Lemma be_value_snoc (bytes : list Z) (b : Z) :
  be_value (bytes ++ [b]) = 256 * be_value bytes + b.
Proof. unfold be_value. by rewrite fold_left_app. Qed.

Lemma be_bytes_spec (n : nat) (r : Z) :
  0 <= r < 256 ^ Z.of_nat n ->
  be_value (be_bytes n r) = r /\
  Forall (fun b => 0 <= b < 256) (be_bytes n r) /\
  List.length (be_bytes n r) = n.
Proof.
  revert r. induction n as [|n IH]; intros r Hr.
  { cbn in Hr. assert (r = 0) as -> by lia. by repeat split. }
  rewrite Nat2Z.inj_succ, Z.pow_succ_r in Hr by lia.
  cbn [be_bytes].
  pose proof (Z.div_mod r 256 ltac:(lia)).
  pose proof (Z.mod_pos_bound r 256 ltac:(lia)).
  destruct (IH (r / 256)) as (Hval & Hfit & Hlen).
  { split; [apply Z.div_pos; lia | apply Z.div_lt_upper_bound; lia]. }
  split; [|split].
  - rewrite be_value_snoc, Hval. lia.
  - apply Forall_app. split; [done|]. constructor; [lia | constructor].
  - rewrite length_app, Hlen. cbn. lia.
Qed.

(** X10. Writing a number as [n] big-endian bytes and reading them with
    [bytesToInt] gives the number back, for every non-negative [int]
    below [256^n]. *)
Theorem bytesToInt_be_bytes (n : nat) (r : Z) :
  0 <= r < 256 ^ Z.of_nat n -> r <= GoInt.max_int ->
  bytesToInt (be_bytes n r) = r.
Proof.
  intros Hr Hmax.
  destruct (be_bytes_spec n r Hr) as (Hval & Hfit & _).
  unfold bytesToInt. rewrite bytesToInt_from_wrap; [|by vm_compute|done].
  fold (be_value (be_bytes n r)). rewrite Hval. apply wrap_exact.
  unfold GoInt.in_range, GoInt.min_int, GoInt.max_int in *. lia.
Qed.

Lemma bytesToInt_be_bytes_1289 :
  be_bytes 2 1289 = [5; 9] /\ bytesToInt (be_bytes 2 1289) = 1289.
Proof.
  split; [reflexivity|].
  apply (bytesToInt_be_bytes 2 1289); by vm_compute.
Defined.

(** ** Bits and bytes agree *)

Lemma bits_fold_shift (bits : list Z) (acc : Z) :
  fold_left (fun a b => 2 * a + b) bits acc
  = acc * 2 ^ Z.of_nat (List.length bits) + bits_value bits.
Proof.
  unfold bits_value. revert acc.
  induction bits as [|b bits IH]; intros acc; cbn [fold_left List.length].
  { cbn. lia. }
  rewrite IH, (IH (2 * 0 + b)), Nat2Z.inj_succ, Z.pow_succ_r by lia. lia.
Qed.

Lemma msb_first_low_byte (v : Z) : msb_first v = msb_first (v mod 256).
Proof.
  unfold msb_first. cbn [map]. change 256 with (2 ^ 8).
  by rewrite !Z.mod_pow2_bits_low by lia.
Qed.

Lemma bits_value_byte (x : Z) :
  0 <= x < 256 -> bits_value (msb_first x) = x.
Proof.
  intros Hx.
  assert (forallb (fun k => bits_value (msb_first (Z.of_nat k)) =? Z.of_nat k)
            (seq 0 256) = true) as Hall by (by vm_compute).
  rewrite forallb_forall in Hall.
  specialize (Hall (Z.to_nat x)). rewrite Z2Nat.id in Hall by lia.
  apply Z.eqb_eq, Hall, in_seq. lia.
Qed.

Lemma bits_value_msb_first (v : Z) : bits_value (msb_first v) = v mod 256.
Proof.
  rewrite msb_first_low_byte. apply bits_value_byte.
  apply Z.mod_pos_bound. lia.
Qed.

(** The bits of a byte sequence denote the number its bytes denote. *)
Lemma bits_fold_unpacked (data : list Z) (acc : Z) :
  fold_left (fun a b => 2 * a + b) (concat (map msb_first data)) acc
  = fold_left (fun a b => 256 * a + b) (map GoInt.uint8 data) acc.
Proof.
  revert acc. induction data as [|v data IH]; intros acc; [done|].
  cbn [map concat fold_left].
  rewrite fold_left_app, (bits_fold_shift (msb_first v) acc).
  rewrite bits_value_msb_first, IH.
  f_equal. unfold msb_first, GoInt.uint8. cbn [map List.length].
  change (2 ^ Z.of_nat 8) with 256. change (2 ^ 8) with 256. lia.
Qed.

(** X11. The two readings of the service's bytes agree: the bits that
    [extractBits] takes from a whole sequence of byte values denote,
    most significant first, the big-endian number of those bytes, which
    for up to seven bytes is the integer [bytesToInt] assembles. *)
Theorem extracted_bits_denote_the_bytes (data : list Z) :
  Forall (fun b => 0 <= b < 256) data -> (1 <= List.length data)%nat ->
  bits_value (extractBits data (8 * Z.of_nat (List.length data)))
    = be_value data /\
  ((List.length data <= 7)%nat ->
   bits_value (extractBits data (8 * Z.of_nat (List.length data)))
     = bytesToInt data).
Proof.
  intros Hfit Hlen.
  assert (bits_value (extractBits data (8 * Z.of_nat (List.length data)))
          = be_value data) as Hbits.
  { rewrite extractBits_unpack by lia. unfold unpack_bits.
    rewrite take_ge by (rewrite length_unpacked; lia).
    unfold bits_value, be_value. rewrite bits_fold_unpacked.
    f_equal. apply map_uint8_fitting.
    eapply Forall_impl; [exact Hfit|]. cbn. lia. }
  split; [done|]. intros Hshort. rewrite Hbits.
  unfold bytesToInt. rewrite bytesToInt_from_wrap; [|by vm_compute|done].
  fold (be_value data). symmetry. apply wrap_exact.
  pose proof (be_fold_bound data 0 0 Hfit ltac:(cbn; lia)) as Hbound.
  cbn [Nat.add] in Hbound. fold (be_value data) in Hbound.
  assert (256 ^ Z.of_nat (List.length data) <= 256 ^ 7)
    by (apply Z.pow_le_mono_r; lia).
  unfold GoInt.in_range, GoInt.min_int, GoInt.max_int.
  change (2 ^ 63) with (128 * 256 ^ 7). lia.
Qed.

Lemma extracted_bits_denote_the_bytes_example :
  bits_value (extractBits [165; 3] (8 * Z.of_nat (List.length [165; 3])))
    = be_value [165; 3] /\
  ((List.length [165; 3] <= 7)%nat ->
   bits_value (extractBits [165; 3] (8 * Z.of_nat (List.length [165; 3])))
     = bytesToInt [165; 3]).
Proof.
  apply (extracted_bits_denote_the_bytes [165; 3]).
  - repeat constructor; lia.
  - cbn. lia.
Defined.

(** ** Hexadecimal strings of any value *)

(** X12. No string of [GetRandomHex] is shorter than the width of its
    type, [2 * blockSize] for [hex8] and 4 for [hex16], whatever [int]
    values the service sends, negative ones included. *)
Theorem hex_strings_reach_the_width (w : World) (c : QRNGClient)
    (blockCount blockSize : Z) (hexType : string)
    (sent : list http_Request) (qr : QRNGResponse) (width : Z) :
  1 <= blockSize <= 10 ->
  (hexType = "hex8" /\ width = 2 * blockSize) \/
  (hexType = "hex16" /\ width = 4) ->
  answers w c sent qr -> Success qr = true ->
  blockCount <= Z.of_nat (List.length (Data qr)) ->
  Forall GoInt.in_range (Data qr) ->
  exists out,
    (GetRandomHex w c blockCount blockSize hexType sent).1 = (out, None) /\
    List.length out = List.length (Data qr) /\
    Forall (fun s => width <= strlen s) out.
Proof.
  intros Hsize Htype Hans Hok Hcount Hints.
  destruct (GetRandomHex_answered w c blockCount blockSize hexType sent qr)
    as (req & ->); [done| |done|done|done|].
  { destruct Htype as [[-> _]|[-> _]]; [by left | by right]. }
  eexists. split; [reflexivity|]. split; [by rewrite length_map|].
  apply Forall_map. eapply Forall_impl; [exact Hints|].
  intros v Hv. cbn.
  destruct Htype as [[-> ->]|[-> ->]].
  - rewrite bool_decide_eq_true_2 by done.
    apply Sprintf_0x_min_width; [lia | done].
  - rewrite bool_decide_eq_false_2 by done.
    apply Sprintf_0x_min_width; [lia | done].
Qed.

Lemma hex_strings_reach_the_width_example :
  exists out,
    (GetRandomHex (serving (envelope "hex16" [-1; 7; 1048576])) NewClient
       3 1 "hex16" []).1 = (out, None) /\
    List.length out = List.length [-1; 7; 1048576] /\
    Forall (fun s => 4 <= strlen s) out.
Proof.
  apply (hex_strings_reach_the_width
           (serving (envelope "hex16" [-1; 7; 1048576])) NewClient
           3 1 "hex16" [] (envelope "hex16" [-1; 7; 1048576]) 4).
  - lia.
  - right. by split.
  - by apply serving_answers.
  - reflexivity.
  - by vm_compute.
  - repeat constructor; by vm_compute.
Defined.

(** X13. The strings of [GetRandomHex] lose nothing: read back as
    hexadecimal, the string of every non-negative value of the data is
    that value, also when it needs more digits than the width. *)
Theorem hex_strings_read_back (w : World) (c : QRNGClient)
    (blockCount blockSize : Z) (hexType : string)
    (sent : list http_Request) (qr : QRNGResponse) :
  1 <= blockSize <= 10 -> hexType = "hex8" \/ hexType = "hex16" ->
  answers w c sent qr -> Success qr = true ->
  blockCount <= Z.of_nat (List.length (Data qr)) ->
  Forall (fun v => 0 <= v <= GoInt.max_int) (Data qr) ->
  exists out,
    (GetRandomHex w c blockCount blockSize hexType sent).1 = (out, None) /\
    map parse_hex out = map Some (Data qr).
Proof.
  intros Hsize Htype Hans Hok Hcount Hnn.
  destruct (GetRandomHex_answered w c blockCount blockSize hexType sent qr)
    as (req & ->); [done..|].
  eexists. split; [reflexivity|].
  rewrite map_map. apply map_ext_Forall.
  eapply Forall_impl; [exact Hnn|].
  intros v Hv. cbn. apply Sprintf_0x_parse; [|done].
  destruct (bool_decide (hexType = "hex8")); lia.
Qed.

Lemma hex_strings_read_back_example :
  exists out,
    (GetRandomHex (serving (envelope "hex8" [0; 255; 70000])) NewClient
       3 1 "hex8" []).1 = (out, None) /\
    map parse_hex out = map Some [0; 255; 70000].
Proof.
  apply (hex_strings_read_back
           (serving (envelope "hex8" [0; 255; 70000])) NewClient
           3 1 "hex8" [] (envelope "hex8" [0; 255; 70000])).
  - lia.
  - by left.
  - by apply serving_answers.
  - reflexivity.
  - by vm_compute.
  - repeat constructor; by vm_compute.
Defined.


(** ** Draws of the sampler *)

Lemma sample_loop_accepts (w : World) (c : QRNGClient) (rounds : nat)
    (min rangeSize b : Z) (sent : list http_Request) (qr : QRNGResponse) :
  1 <= b <= 62 -> draws_as w c b (List.length sent) qr ->
  draw_of qr b < rangeSize ->
  exists req,
    sample_loop w c (S rounds) min rangeSize ((b + 7) / 8) (2 ^ b - 1) sent
    = (Returns (GoInt.add min (draw_of qr b), None), sent ++ [req]).
Proof.
  intros Hb (Hans & Hok & Hlen) Hdraw. cbn [sample_loop].
  assert (1 <= (b + 7) / 8 <= 1024) as Hbytes.
  { pose proof (Z.div_mod (b + 7) 8 ltac:(lia)).
    pose proof (Z.mod_pos_bound (b + 7) 8 ltac:(lia)). lia. }
  destruct (GetRandomUint8_answered w c ((b + 7) / 8) sent qr
              Hbytes (Hans sent eq_refl) Hok Hlen) as (req & _ & ->).
  exists req. fold (draw_of qr b).
  by destruct (Z.ltb_spec (draw_of qr b) rangeSize); [|lia].
Qed.

Lemma sample_loop_rejects (w : World) (c : QRNGClient) (rounds : nat)
    (min rangeSize b : Z) (sent : list http_Request) (qr : QRNGResponse) :
  1 <= b <= 62 -> draws_as w c b (List.length sent) qr ->
  rangeSize <= draw_of qr b ->
  exists req,
    sample_loop w c (S rounds) min rangeSize ((b + 7) / 8) (2 ^ b - 1) sent
    = sample_loop w c rounds min rangeSize ((b + 7) / 8) (2 ^ b - 1)
        (sent ++ [req]).
Proof.
  intros Hb (Hans & Hok & Hlen) Hdraw. cbn [sample_loop].
  assert (1 <= (b + 7) / 8 <= 1024) as Hbytes.
  { pose proof (Z.div_mod (b + 7) 8 ltac:(lia)).
    pose proof (Z.mod_pos_bound (b + 7) 8 ltac:(lia)). lia. }
  destruct (GetRandomUint8_answered w c ((b + 7) / 8) sent qr
              Hbytes (Hans sent eq_refl) Hok Hlen) as (req & _ & ->).
  exists req. fold (draw_of qr b).
  by destruct (Z.ltb_spec (draw_of qr b) rangeSize); [lia|].
Qed.

Lemma sample_loop_after_rejections (w : World) (c : QRNGClient)
    (min rangeSize b : Z) (rejected : list QRNGResponse)
    (accepted : QRNGResponse) :
  1 <= b <= 62 -> draw_of accepted b < rangeSize ->
  forall (rounds : nat) (sent : list http_Request),
    (forall i qr, rejected !! i = Some qr ->
                  draws_as w c b (List.length sent + i) qr /\
                  rangeSize <= draw_of qr b) ->
    draws_as w c b (List.length sent + List.length rejected) accepted ->
    (List.length rejected < rounds)%nat ->
    exists sent',
      sample_loop w c rounds min rangeSize ((b + 7) / 8) (2 ^ b - 1) sent
      = (Returns (GoInt.add min (draw_of accepted b), None), sent') /\
      List.length sent' = (List.length sent + List.length rejected + 1)%nat.
Proof.
  intros Hb Hacc.
  induction rejected as [|qr rejected IH]; intros rounds sent Hrej Hlast Hn.
  - destruct rounds as [|rounds]; [cbn in Hn; lia|].
    cbn [List.length] in Hlast. rewrite Nat.add_0_r in Hlast.
    destruct (sample_loop_accepts w c rounds min rangeSize b sent accepted
                Hb Hlast Hacc) as (req & ->).
    eexists. split; [reflexivity|]. rewrite length_app. cbn. lia.
  - destruct rounds as [|rounds]; [cbn in Hn; lia|].
    destruct (Hrej 0%nat qr eq_refl) as (Hfirst & Hout).
    rewrite Nat.add_0_r in Hfirst.
    destruct (sample_loop_rejects w c rounds min rangeSize b sent qr
                Hb Hfirst Hout) as (req & ->).
    destruct (IH rounds (sent ++ [req])) as (sent' & -> & Hlen).
    + intros i q Hq. rewrite length_app. cbn [List.length].
      replace (List.length sent + 1 + i)%nat
        with (List.length sent + S i)%nat by lia.
      by apply Hrej.
    + rewrite length_app. cbn [List.length] in *.
      by replace (List.length sent + 1 + List.length rejected)%nat
        with (List.length sent + S (List.length rejected))%nat by lia.
    + cbn [List.length] in Hn. lia.
    + eexists. split; [reflexivity|].
      rewrite Hlen, length_app. cbn [List.length]. lia.
Qed.

(** X14. Rejection costs one request per draw and nothing else: when the
    service answers the first draws with envelopes whose masked reading
    is not below the range size and the next one with an envelope whose
    reading is, [GetRandomNumber] returns [min] plus that reading, having
    handed over one request for each of them. *)
Theorem rejected_draws_then_an_accepted_one (w : World) (c : QRNGClient)
    (rounds : nat) (min max b : Z) (sent : list http_Request)
    (rejected : list QRNGResponse) (accepted : QRNGResponse) :
  GoInt.in_range min -> GoInt.in_range max -> min <= max ->
  max - min + 1 <= 2 ^ 62 -> (62 <= rounds)%nat ->
  (List.length rejected < rounds)%nat ->
  bitSize_loop rounds 1 (rangeSize_of min max) = Returns b ->
  (forall i qr, rejected !! i = Some qr ->
                draws_as w c b (List.length sent + i) qr /\
                max - min + 1 <= draw_of qr b) ->
  draws_as w c b (List.length sent + List.length rejected) accepted ->
  draw_of accepted b < max - min + 1 ->
  exists sent',
    GetRandomNumber w c rounds min max sent
      = (Returns (min + draw_of accepted b, None), sent') /\
    List.length sent' = (List.length sent + List.length rejected + 1)%nat.
Proof.
  intros Hmin Hmax Hle Hsize Hrounds Hn Hb Hrej Hlast Hacc.
  destruct (GetRandomNumber_draws w c rounds min max sent
              Hmin Hmax Hle Hsize Hrounds)
    as (b' & Hb' & Hrange & _ & _ & ->).
  rewrite Hb in Hb'. injection Hb' as <-.
  destruct (sample_loop_after_rejections w c min (max - min + 1) b
              rejected accepted Hrange Hacc rounds sent Hrej Hlast Hn)
    as (sent' & -> & Hlen).
  exists sent'. split; [|done]. do 3 f_equal.
  unfold GoInt.add. apply wrap_exact.
  assert (0 <= draw_of accepted b).
  { unfold draw_of. apply Z.land_nonneg. right.
    pose proof (pow2_le_62 b ltac:(lia)). lia. }
  unfold GoInt.in_range in *. lia.
Qed.

Lemma rejected_draws_then_an_accepted_one_example :
  exists sent',
    GetRandomNumber
        (serving_each [envelope "uint8" [127]; envelope "uint8" [100]]
                      (envelope "uint8" [5; 9]))
        NewClient 62 1 100 []
      = (Returns (1 + draw_of (envelope "uint8" [5; 9]) 7, None), sent') /\
    List.length sent' = 3%nat.
Proof.
  refine (rejected_draws_then_an_accepted_one
           (serving_each [envelope "uint8" [127]; envelope "uint8" [100]]
                         (envelope "uint8" [5; 9]))
           NewClient 62 1 100 7 []
           [envelope "uint8" [127]; envelope "uint8" [100]]
           (envelope "uint8" [5; 9]) _ _ _ _ _ _ _ _ _ _).
  - by vm_compute.
  - by vm_compute.
  - lia.
  - by vm_compute.
  - lia.
  - cbn [List.length]. lia.
  - reflexivity.
  - intros [|[|i]] qr [= <-].
    + split; [|by vm_compute]. split; [|split; [reflexivity | by vm_compute]].
      intros [|? ?] [=]. split; [done|]. split; [done|].
      exists "0". by split.
    + split; [|by vm_compute]. split; [|split; [reflexivity | by vm_compute]].
      intros [|? [|? ?]] [=]. split; [done|]. split; [done|].
      exists "1". by split.
  - split; [|split; [reflexivity | by vm_compute]].
    intros [|? [|? [|? ?]]] [=]. split; [done|]. split; [done|].
    exists "2". by split.
  - by vm_compute.
Defined.

(** A service that keeps answering with rejected draws keeps the sampler
    going round for round. *)
Lemma sample_loop_all_rejected (w : World) (c : QRNGClient)
    (min rangeSize b : Z) :
  1 <= b <= 62 ->
  (forall n, exists qr, draws_as w c b n qr /\ rangeSize <= draw_of qr b) ->
  forall (rounds : nat) (sent : list http_Request),
    exists sent',
      sample_loop w c rounds min rangeSize ((b + 7) / 8) (2 ^ b - 1) sent
      = (Looping, sent') /\
      List.length sent' = (List.length sent + rounds)%nat.
Proof.
  intros Hb Hall. induction rounds as [|rounds IH]; intros sent.
  { exists sent. split; [reflexivity | lia]. }
  destruct (Hall (List.length sent)) as (qr & Hqr & Hout).
  destruct (sample_loop_rejects w c rounds min rangeSize b sent qr
              Hb Hqr Hout) as (req & ->).
  destruct (IH (sent ++ [req])) as (sent' & -> & Hlen).
  exists sent'. split; [reflexivity|].
  rewrite Hlen, length_app. cbn [List.length]. lia.
Qed.

(** X15. Nothing bounds the rejection loop: against a service whose
    every answer reads as a draw that is not below the range size,
    [GetRandomNumber] is still looping after any number of rounds, and
    has handed over one request per round. *)
Theorem rejection_is_unbounded (w : World) (c : QRNGClient)
    (rounds : nat) (min max b : Z) (sent : list http_Request) :
  GoInt.in_range min -> GoInt.in_range max -> min <= max ->
  max - min + 1 <= 2 ^ 62 -> (62 <= rounds)%nat ->
  bitSize_loop rounds 1 (rangeSize_of min max) = Returns b ->
  (forall n, exists qr,
      draws_as w c b n qr /\ max - min + 1 <= draw_of qr b) ->
  exists sent',
    GetRandomNumber w c rounds min max sent = (Looping, sent') /\
    List.length sent' = (List.length sent + rounds)%nat.
Proof.
  intros Hmin Hmax Hle Hsize Hrounds Hb Hall.
  destruct (GetRandomNumber_draws w c rounds min max sent
              Hmin Hmax Hle Hsize Hrounds)
    as (b' & Hb' & Hrange & _ & _ & ->).
  rewrite Hb in Hb'. injection Hb' as <-.
  by apply sample_loop_all_rejected.
Qed.

Lemma rejection_is_unbounded_odd_byte :
  exists sent',
    GetRandomNumber (serving (envelope "uint8" [127])) NewClient 62 5 5 []
      = (Looping, sent') /\
    List.length sent' = 62%nat.
Proof.
  refine (rejection_is_unbounded (serving (envelope "uint8" [127])) NewClient
            62 5 5 1 [] _ _ _ _ _ _ _).
  - by vm_compute.
  - by vm_compute.
  - lia.
  - by vm_compute.
  - lia.
  - reflexivity.
  - intros n. exists (envelope "uint8" [127]). split; [|by vm_compute].
    split; [|split; [reflexivity | by vm_compute]].
    intros sent _. by apply serving_answers.
Defined.

(** ** Ranges the width loop cannot cover *)

Lemma bitSize_loop_keeps_looping (rounds : nat) (start rangeSize : Z) :
  2 ^ 62 < rangeSize -> 0 <= start ->
  start + Z.of_nat rounds <= GoInt.max_int + 1 ->
  bitSize_loop rounds start rangeSize = Looping.
Proof.
  intros Hbig. revert start.
  induction rounds as [|rounds IH]; intros start Hstart Hfit; [done|].
  cbn [bitSize_loop].
  assert (exists p, GoInt.shl 1 start = Some p /\ p < rangeSize)
    as (p & -> & Hp).
  { destruct (Z.le_gt_cases start 62).
    - exists (2 ^ start). split; [apply shl_1_small; lia|].
      pose proof (pow2_le_62 start). lia.
    - destruct (shl_1_large start) as (p & E & Hp0); [lia|].
      exists p. split; [done|]. lia. }
  destruct (Z.ltb_spec p rangeSize); [|lia].
  destruct rounds as [|rounds]; [done|].
  rewrite bitSize_next.
  - apply IH; lia.
  - unfold GoInt.in_range, GoInt.min_int, GoInt.max_int in *. lia.
  - lia.
Qed.

(** X16. A range of more than [2^62] values that still fits an [int]
    passes both checks and then hangs in the width loop: no power of two
    of an [int] covers it, so after any number of rounds (below the
    [2^63] at which [bitSize] itself would overflow) [GetRandomNumber] is
    still looping and has handed nothing to the transport. *)
Theorem wide_ranges_hang (w : World) (c : QRNGClient) (rounds : nat)
    (min max : Z) (sent : list http_Request) :
  GoInt.in_range min -> GoInt.in_range max -> min <= max ->
  2 ^ 62 < max - min + 1 <= GoInt.max_int ->
  Z.of_nat rounds < 2 ^ 63 ->
  GetRandomNumber w c rounds min max sent = (Looping, sent).
Proof.
  intros Hmin Hmax Hle Hsize Hrounds.
  assert (rangeSize_of min max = max - min + 1) as Hexact.
  { unfold rangeSize_of, GoInt.add, GoInt.sub.
    rewrite wrap_add_wrap, wrap_exact; [done|].
    unfold GoInt.in_range, GoInt.min_int, GoInt.max_int in *. lia. }
  unfold GetRandomNumber. rewrite Hexact.
  destruct (Z.ltb_spec max min); [lia|].
  destruct (Z.leb_spec (max - min + 1) 0); [lia|].
  rewrite bitSize_loop_keeps_looping; [done|lia|lia|].
  unfold GoInt.max_int. lia.
Qed.

Lemma wide_ranges_hang_example :
  GetRandomNumber (serving (envelope "uint8" [0])) NewClient 1000
      0 (2 ^ 62) []
    = (Looping, []).
Proof.
  apply (wide_ranges_hang (serving (envelope "uint8" [0])) NewClient 1000
           0 (2 ^ 62) []); (by vm_compute) || lia.
Defined.

(** ** Every value of the range *)

Lemma land_mask_small (r b : Z) :
  0 <= b -> 0 <= r < 2 ^ b -> Z.land r (2 ^ b - 1) = r.
Proof.
  intros Hb Hr. replace (2 ^ b - 1) with (Z.ones b)
    by (rewrite Z.ones_equiv; lia).
  rewrite Z.land_ones by done. by apply Z.mod_small.
Qed.

Lemma serving_draws_as (qr : QRNGResponse) (c : QRNGClient) (b : Z)
    (n : nat) :
  (requiresAPIKey c = true -> APIKey c <> "") -> Success qr = true ->
  (b + 7) / 8 <= Z.of_nat (List.length (Data qr)) ->
  draws_as (serving qr) c b n qr.
Proof.
  intros Hkey Hok Hlen. split; [|done].
  intros sent _. by apply serving_answers.
Qed.

(** X17. The sampler can return every value of its range: for each [v]
    in [[min, max]] there are byte values which, sent by the service as
    the first answer, make [GetRandomNumber] return [v]. *)
Theorem every_value_can_be_drawn (c : QRNGClient) (rounds : nat)
    (min max v : Z) (sent : list http_Request) :
  GoInt.in_range min -> GoInt.in_range max -> min <= v <= max ->
  max - min + 1 <= 2 ^ 62 -> (62 <= rounds)%nat ->
  (requiresAPIKey c = true -> APIKey c <> "") ->
  exists data,
    Forall (fun x => 0 <= x <= 255) data /\
    (GetRandomNumber (serving (envelope "uint8" data)) c rounds min max
       sent).1 = Returns (v, None).
Proof.
  intros Hmin Hmax Hv Hsize Hrounds Hkey.
  assert (forall w, exists b,
             1 <= b <= 62 /\ max - min + 1 <= 2 ^ b /\
             GetRandomNumber w c rounds min max sent
             = sample_loop w c rounds min (max - min + 1)
                 ((b + 7) / 8) (2 ^ b - 1) sent /\
             bitSize_loop rounds 1 (rangeSize_of min max) = Returns b)
    as Hdraws.
  { intros w.
    destruct (GetRandomNumber_draws w c rounds min max sent
                Hmin Hmax ltac:(lia) Hsize Hrounds)
      as (b & Hb & Hrange & Hcover & _ & Hrun).
    by exists b. }
  destruct (Hdraws (serving (envelope "uint8" [])))
    as (b & Hb & Hcover & _ & Hloop).
  set (n := Z.to_nat ((b + 7) / 8)).
  set (r := v - min).
  assert (0 <= (b + 7) / 8) as Hn by (apply Z.div_pos; lia).
  assert (b <= 8 * Z.of_nat n) as Hwide.
  { subst n. rewrite Z2Nat.id by done.
    pose proof (Z.div_mod (b + 7) 8 ltac:(lia)).
    pose proof (Z.mod_pos_bound (b + 7) 8 ltac:(lia)). lia. }
  assert (0 <= r < 256 ^ Z.of_nat n) as Hr.
  { split; [subst r; lia|].
    apply Z.lt_le_trans with (2 ^ b); [subst r; lia|].
    change 256 with (2 ^ 8). rewrite <- Z.pow_mul_r by lia.
    apply Z.pow_le_mono_r; lia. }
  destruct (be_bytes_spec n r Hr) as (Hval & Hfit & Hlen).
  assert (Forall (fun x => 0 <= x <= 255) (be_bytes n r)) as Hfit'.
  { eapply Forall_impl; [exact Hfit|]. cbn. lia. }
  exists (be_bytes n r). split; [done|].
  destruct (Hdraws (serving (envelope "uint8" (be_bytes n r))))
    as (b' & _ & _ & -> & Hloop').
  rewrite Hloop in Hloop'. injection Hloop' as <-.
  assert (draw_of (envelope "uint8" (be_bytes n r)) b = r) as Hdraw.
  { unfold draw_of. cbn [Data envelope].
    rewrite map_uint8_fitting by done.
    unfold bytesToInt. rewrite bytesToInt_from_wrap; [|by vm_compute|done].
    fold (be_value (be_bytes n r)). rewrite Hval, wrap_exact.
    - apply land_mask_small; [lia|]. subst r. lia.
    - subst r. unfold GoInt.in_range, GoInt.min_int, GoInt.max_int in *.
      change (2 ^ 63) with (2 * 2 ^ 62). lia. }
  destruct rounds as [|rounds]; [lia|].
  destruct (sample_loop_accepts (serving (envelope "uint8" (be_bytes n r)))
              c rounds min (max - min + 1) b sent
              (envelope "uint8" (be_bytes n r)) Hb)
    as (req & ->).
  - apply serving_draws_as; [done | reflexivity |].
    cbn [Data envelope]. rewrite Hlen. subst n. by rewrite Z2Nat.id.
  - rewrite Hdraw. subst r. lia.
  - cbn [fst]. rewrite Hdraw. do 2 f_equal. unfold GoInt.add.
    rewrite wrap_exact; [subst r; lia|].
    subst r. unfold GoInt.in_range in *. lia.
Qed.

Lemma every_value_can_be_drawn_57 :
  exists data,
    Forall (fun x => 0 <= x <= 255) data /\
    (GetRandomNumber (serving (envelope "uint8" data)) NewClient 62 1 100
       []).1 = Returns (57, None).
Proof.
  apply (every_value_can_be_drawn NewClient 62 1 100 57 []);
    (by vm_compute) || lia.
Defined.

(** ** Failed draws and the draw that is returned *)

(** X18. The sampler retries rejected draws only: when the transport
    fails its first request, [GetRandomNumber] returns 0 with the wrapped
    failure at once, having handed over that one request. *)
Theorem sampler_reports_a_failed_draw (w : World) (c : QRNGClient)
    (rounds : nat) (min max : Z) (sent : list http_Request) (err : error) :
  GoInt.in_range min -> GoInt.in_range max -> min <= max ->
  max - min + 1 <= 2 ^ 62 -> (62 <= rounds)%nat ->
  transport_fails w c sent err ->
  exists req,
    GetRandomNumber w c rounds min max sent
    = (Returns (0, Some (fmt_Errorf_w ("request failed: " +:+ error_text err)
                           err)), sent ++ [req]).
Proof.
  intros Hmin Hmax Hle Hsize Hrounds Hfail.
  destruct (GetRandomNumber_draws w c rounds min max sent
              Hmin Hmax Hle Hsize Hrounds)
    as (b & _ & Hrange & _ & _ & ->).
  destruct rounds as [|rounds]; [lia|]. cbn [sample_loop].
  assert (1 <= (b + 7) / 8 <= 1024) as Hbytes.
  { pose proof (Z.div_mod (b + 7) 8 ltac:(lia)).
    pose proof (Z.mod_pos_bound (b + 7) 8 ltac:(lia)). lia. }
  destruct (doRequest_transport_fails w c ((b + 7) / 8) "uint8" 0 sent err
              Hfail) as (req & _ & Hdo).
  exists req. unfold GetRandomUint8, maxUint8Length.
  destruct (Z.ltb_spec ((b + 7) / 8) 1); [lia|].
  destruct (Z.ltb_spec 1024 ((b + 7) / 8)); [lia|].
  cbn [orb]. by rewrite Hdo.
Qed.

Lemma sampler_reports_a_failed_draw_example :
  exists req,
    GetRandomNumber (failing (errors_New "connection refused")) NewClient
        62 1 100 []
    = (Returns (0, Some (fmt_Errorf_w "request failed: connection refused"
                           (errors_New "connection refused"))),
       [] ++ [req]).
Proof.
  refine (sampler_reports_a_failed_draw
            (failing (errors_New "connection refused")) NewClient
            62 1 100 [] (errors_New "connection refused") _ _ _ _ _ _).
  - by vm_compute.
  - by vm_compute.
  - lia.
  - by vm_compute.
  - lia.
  - split; [discriminate|]. by split.
Defined.

Lemma sample_loop_returns_last (w : World) (c : QRNGClient) (rounds : nat)
    (min rangeSize requiredBytes mask : Z) (sent sent' : list http_Request)
    (v : Z) :
  sample_loop w c rounds min rangeSize requiredBytes mask sent
    = (Returns (v, None), sent') ->
  exists earlier req qr,
    sent' = earlier ++ [req] /\ (exists new, earlier = sent ++ new) /\
    decoded w earlier req qr /\
    v = GoInt.add min
          (Z.land (bytesToInt (map GoInt.uint8 (Data qr))) mask) /\
    Z.land (bytesToInt (map GoInt.uint8 (Data qr))) mask < rangeSize.
Proof.
  revert sent. induction rounds as [|rounds IH]; intros sent;
    cbn [sample_loop]; [discriminate|].
  destruct (GetRandomUint8 w c requiredBytes sent) as [[bytes [err|]] s]
    eqn:Hget; [discriminate|].
  apply GetRandomUint8_success_inv in Hget
    as (req & qr & -> & Hdec & _ & ->).
  destruct (Z.ltb_spec
              (Z.land (bytesToInt (map GoInt.uint8 (Data qr))) mask)
              rangeSize) as [Hlt|_].
  - intros [= <- <-]. exists sent, req, qr.
    split; [done|]. split; [exists []; by rewrite app_nil_r|]. done.
  - intros Hrest. apply IH in Hrest
      as (earlier & req' & qr' & -> & (new & ->) & Hdec' & Hv & Hlt).
    exists ((sent ++ [req]) ++ new), req', qr'.
    split; [done|]. split; [|done].
    exists ([req] ++ new). by rewrite app_assoc.
Qed.

(** X19. A number that [GetRandomNumber] returns is [min] plus the
    masked reading of the data of the last answer, a reading below the
    range size; the request of that answer is the last of the log, which
    only grew. *)
Theorem a_number_is_the_last_draw (w : World) (c : QRNGClient)
    (rounds : nat) (min max : Z) (sent sent' : list http_Request) (v : Z) :
  GoInt.in_range min -> GoInt.in_range max ->
  GetRandomNumber w c rounds min max sent = (Returns (v, None), sent') ->
  exists b earlier req qr,
    bitSize_loop rounds 1 (rangeSize_of min max) = Returns b /\
    sent' = earlier ++ [req] /\ (exists new, earlier = sent ++ new) /\
    decoded w earlier req qr /\
    v = min + draw_of qr b /\ 0 <= draw_of qr b < max - min + 1.
Proof.
  intros Hmin Hmax. unfold GetRandomNumber.
  destruct (Z.ltb_spec max min) as [|Hle]; [discriminate|].
  destruct (Z.leb_spec (rangeSize_of min max) 0) as [|Hpos]; [discriminate|].
  pose proof (rangeSize_of_exact min max Hmin Hmax Hle Hpos) as Hsize.
  destruct (bitSize_loop rounds 1 (rangeSize_of min max)) as [b| |] eqn:Hb;
    [|discriminate..].
  pose proof Hb as Hspec.
  apply bitSize_loop_returns in Hspec as (Hrange & _ & _);
    [|lia|by vm_compute|done].
  unfold GetRandomNumber_draw.
  destruct (maxBits <? b); [discriminate|].
  rewrite shl_1_small by lia.
  assert (GoInt.sub (2 ^ b) 1 = 2 ^ b - 1) as ->.
  { unfold GoInt.sub. apply wrap_exact.
    pose proof (pow2_le_62 b ltac:(lia)).
    unfold GoInt.in_range, GoInt.min_int, GoInt.max_int.
    change (2 ^ 63) with (2 * 2 ^ 62). lia. }
  intros Hrun. apply sample_loop_returns_last in Hrun
    as (earlier & req & qr & -> & Hgrew & Hdec & -> & Hlt).
  fold (draw_of qr b) in *. rewrite Hsize in Hlt.
  assert (0 <= draw_of qr b) as Hnn.
  { unfold draw_of. apply Z.land_nonneg. right.
    pose proof (pow2_le_62 b ltac:(lia)). lia. }
  exists b, earlier, req, qr. do 4 (split; [done|]).
  split; [|lia]. unfold GoInt.add. apply wrap_exact.
  unfold GoInt.in_range in *. lia.
Qed.

Lemma a_number_is_the_last_draw_example :
  exists b earlier req qr,
    bitSize_loop 8 1 (rangeSize_of 0 255) = Returns b /\
    (GetRandomNumber (serving (envelope "uint8" [127])) NewClient
       8 0 255 []).2 = earlier ++ [req] /\
    (exists new, earlier = [] ++ new) /\
    decoded (serving (envelope "uint8" [127])) earlier req qr /\
    127 = 0 + draw_of qr b /\ 0 <= draw_of qr b < 255 - 0 + 1.
Proof.
  assert (GoInt.in_range 0) as Hmin by (by vm_compute).
  assert (GoInt.in_range 255) as Hmax by (by vm_compute).
  destruct (GetRandomNumber (serving (envelope "uint8" [127])) NewClient
              8 0 255 []) as [r s] eqn:E.
  assert (r = Returns (127, None)) as ->
    by (change r with (r, s).1; rewrite <- E; reflexivity).
  cbn [snd].
  exact (a_number_is_the_last_draw (serving (envelope "uint8" [127]))
           NewClient 8 0 255 [] s 127 Hmin Hmax E).
Defined.

(** ** The earlier client *)

Lemma legacy_doRequest_answered (w : World) (c : Legacy.QRNGClient)
    (length : Z) (dataType : string) (sent : list http_Request)
    (qr : QRNGResponse) :
  legacy_answers w c sent qr ->
  exists req,
    Legacy.doRequest w c length dataType sent =
      (if negb (Success qr) then
         if negb (bool_decide (Error qr = ""))
         then (None, Some (fmt_Errorf ("api error: " +:+ Error qr)))
         else (None, Some (errors_New
                             "api request failed without specific error"))
       else if Z.of_nat (List.length (Data qr)) <? length then
         (None, Some (fmt_Errorf
                        ("insufficient data returned: expected "
                         +:+ Itoa length +:+ ", got "
                         +:+ Itoa (Z.of_nat (List.length (Data qr))))))
       else (Some qr, None),
       sent ++ [req]).
Proof.
  intros (Hurl & body & Hdo & Hjson). unfold Legacy.doRequest.
  cbv zeta. rewrite Hurl, Hdo. cbn [StatusCode Body].
  rewrite Z.eqb_refl. cbn [negb]. rewrite Hjson.
  eexists. repeat case_match; reflexivity.
Qed.

Lemma legacy_serving_answers (qr : QRNGResponse) (c : Legacy.QRNGClient)
    (sent : list http_Request) :
  legacy_answers (serving qr) c sent qr.
Proof. split; [done|]. exists "envelope". by split. Qed.

(** The checking loop copies data that fits, and stops at the first value
    that does not, naming it and its index. *)
Lemma checked_bytes_fitting (data filled : list Z) :
  Forall (fun v => 0 <= v <= 255) data ->
  Legacy.checked_bytes (List.length filled) data
    (filled ++ replicate (List.length data) 0) = inr (filled ++ data).
Proof.
  intros Hfit. revert filled.
  induction Hfit as [|v data Hv _ IH]; intros filled;
    cbn [Legacy.checked_bytes List.length replicate].
  { reflexivity. }
  destruct (Z.ltb_spec v 0); [lia|]. destruct (Z.ltb_spec 255 v); [lia|].
  cbn [orb].
  replace (<[List.length filled := GoInt.uint8 v]>
             (filled ++ 0 :: replicate (List.length data) 0))
    with ((filled ++ [v]) ++ replicate (List.length data) 0).
  - replace (S (List.length filled)) with (List.length (filled ++ [v]))
      by (rewrite length_app; cbn; lia).
    rewrite IH, <- app_assoc. reflexivity.
  - rewrite insert_app_r_alt by lia.
    rewrite Nat.sub_diag, <- app_assoc. cbn. do 2 f_equal.
    unfold GoInt.uint8. symmetry. apply Z.mod_small.
    change (2 ^ 8) with 256. lia.
Qed.

Lemma checked_bytes_stops (pre post : list Z) (v : Z) (i : nat)
    (buf : list Z) :
  Forall (fun x => 0 <= x <= 255) pre -> v < 0 \/ 255 < v ->
  Legacy.checked_bytes i (pre ++ v :: post) buf
  = inl (fmt_Errorf ("invalid byte value " +:+ Itoa v +:+ " at index "
                     +:+ Itoa (Z.of_nat (i + List.length pre)))).
Proof.
  intros Hpre Hv. revert i buf.
  induction Hpre as [|x pre Hx _ IH]; intros i buf;
    cbn [Legacy.checked_bytes app List.length].
  - rewrite Nat.add_0_r.
    destruct (Z.ltb_spec v 0); [done|].
    destruct (Z.ltb_spec 255 v); [done | lia].
  - destruct (Z.ltb_spec x 0); [lia|]. destruct (Z.ltb_spec 255 x); [lia|].
    cbn [orb]. rewrite IH.
    by replace (S i + List.length pre)%nat
      with (i + S (List.length pre))%nat by lia.
Qed.

(** X20. The earlier [GetRandomUint8] checks what it receives: data
    within 0..255 is returned as it is, and the first value outside it
    ends the call with no bytes and the error "invalid byte value",
    which names the value and its index. *)
Theorem legacy_bytes_are_checked (w : World) (c : Legacy.QRNGClient)
    (n : Z) (sent : list http_Request) (qr : QRNGResponse) :
  1 <= n <= 1024 -> legacy_answers w c sent qr -> Success qr = true ->
  n <= Z.of_nat (List.length (Data qr)) ->
  (Forall (fun v => 0 <= v <= 255) (Data qr) ->
   (Legacy.GetRandomUint8 w c n sent).1 = (Data qr, None)) /\
  (forall pre v post,
      Data qr = pre ++ v :: post ->
      Forall (fun x => 0 <= x <= 255) pre -> v < 0 \/ 255 < v ->
      (Legacy.GetRandomUint8 w c n sent).1
      = ([], Some (fmt_Errorf
                     ("invalid byte value " +:+ Itoa v +:+ " at index "
                      +:+ Itoa (Z.of_nat (List.length pre)))))).
Proof.
  intros Hn Hans Hok Hlen.
  destruct (legacy_doRequest_answered w c n "uint8" sent qr Hans)
    as (req & Hdo).
  rewrite Hok in Hdo. cbn [negb] in Hdo.
  destruct (Z.ltb_spec (Z.of_nat (List.length (Data qr))) n); [lia|].
  assert (Legacy.GetRandomUint8 w c n sent
          = match Legacy.checked_bytes 0 (Data qr)
                    (replicate (List.length (Data qr)) 0) with
            | inl err => (([], Some err), sent ++ [req])
            | inr randomBytes => ((randomBytes, None), sent ++ [req])
            end) as ->.
  { unfold Legacy.GetRandomUint8, maxUint8Length.
    destruct (Z.ltb_spec n 1); [lia|].
    destruct (Z.ltb_spec 1024 n); [lia|]. cbn [orb]. by rewrite Hdo. }
  split.
  - intros Hfit.
    pose proof (checked_bytes_fitting (Data qr) [] Hfit) as Hcopy.
    cbn [List.length app] in Hcopy. by rewrite Hcopy.
  - intros pre v post Hdata Hpre Hv. rewrite Hdata at 1.
    by rewrite (checked_bytes_stops pre post v 0 _ Hpre Hv).
Qed.

Lemma legacy_bytes_are_checked_example :
  (Legacy.GetRandomUint8 (serving (envelope "uint8" [123; 255]))
     Legacy.NewClient 2 []).1 = ([123; 255], None) /\
  (Legacy.GetRandomUint8 (serving (envelope "uint8" [7; 256; 9]))
     Legacy.NewClient 2 []).1
  = ([], Some (fmt_Errorf "invalid byte value 256 at index 1")).
Proof.
  split.
  - apply (legacy_bytes_are_checked (serving (envelope "uint8" [123; 255]))
             Legacy.NewClient 2 [] (envelope "uint8" [123; 255]));
      [lia | apply legacy_serving_answers | reflexivity | by vm_compute |].
    repeat constructor; lia.
  - apply (proj2 (legacy_bytes_are_checked
                    (serving (envelope "uint8" [7; 256; 9]))
                    Legacy.NewClient 2 [] (envelope "uint8" [7; 256; 9])
                    ltac:(lia) (legacy_serving_answers _ _ _) eq_refl
                    ltac:(by vm_compute)) [7] 256 [9]);
      [reflexivity | repeat constructor; lia | right; lia].
Defined.

Lemma bits_of_byte_agrees (idx : list Z) (i v : Z) (bits : list Z) (n : Z) :
  match extractBits_byte (i :: idx) v bits n with
  | inl r => Legacy.bits_of_byte (i :: idx) v bits n = r /\
             Z.of_nat (List.length r) = n
  | inr r => Legacy.bits_of_byte (i :: idx) v bits n = r /\
             Z.of_nat (List.length r) <> n
  end.
Proof.
  revert i bits. induction idx as [|j idx IH]; intros i bits;
    cbn [extractBits_byte Legacy.bits_of_byte].
  - destruct (Z.eqb_spec
                (Z.of_nat (List.length (bits ++ [Z.land (GoInt.shr v i) 1])))
                n); by split.
  - destruct (Z.eqb_spec
                (Z.of_nat (List.length (bits ++ [Z.land (GoInt.shr v i) 1])))
                n); [by split|].
    apply IH.
Qed.

Lemma bits_of_data_agrees (data bits : list Z) (n : Z) :
  Legacy.bits_of_data data bits n = extractBits_from data bits n.
Proof.
  revert bits. induction data as [|v data IH]; intros bits; [done|].
  cbn [Legacy.bits_of_data extractBits_from].
  pose proof (bits_of_byte_agrees [6; 5; 4; 3; 2; 1; 0] 7 v bits n) as Hbyte.
  destruct (extractBits_byte [7; 6; 5; 4; 3; 2; 1; 0] v bits n) as [r|r];
    destruct Hbyte as (-> & Hlen).
  - by rewrite Hlen, Z.eqb_refl.
  - destruct (Z.eqb_spec (Z.of_nat (List.length r)) n); [done|]. apply IH.
Qed.

(** X21. Moving the bit loops into [extractBits] changed nothing: the
    inline loops of the earlier [GetRandomBits], which leave by [break],
    produce the same slice for every data and every bit count, and on the
    same envelope the earlier accessor returns the bits the current one
    does. *)
Theorem legacy_bits_agree :
  (forall (data : list Z) (n : Z),
      Legacy.bits_of_data data [] n = extractBits data n) /\
  (forall (w : World) (old : Legacy.QRNGClient) (c : QRNGClient) (n : Z)
          (sent : list http_Request) (qr : QRNGResponse),
      1 <= n <= 8192 ->
      legacy_answers w old sent qr -> answers w c sent qr ->
      Success qr = true ->
      (n + 7) / 8 <= Z.of_nat (List.length (Data qr)) ->
      (Legacy.GetRandomBits w old n sent).1 = (GetRandomBits w c n sent).1 /\
      (GetRandomBits w c n sent).1 = (unpack_bits (Data qr) n, None)).
Proof.
  split; [intros data n; apply bits_of_data_agrees|].
  intros w old c n sent qr Hn Hold Hans Hok Hlen.
  destruct (requiredBytes_ceil8 n Hn) as (Hbytes & _).
  destruct (legacy_doRequest_answered w old ((n + 7) / 8) "uint8" sent qr
              Hold) as (req & Hdo).
  destruct (doRequest_answered w c ((n + 7) / 8) "uint8" 0 sent qr Hans)
    as (req' & _ & _ & Hdo').
  rewrite Hok in Hdo, Hdo'. cbn [negb] in Hdo, Hdo'.
  destruct (Z.ltb_spec (Z.of_nat (List.length (Data qr))) ((n + 7) / 8));
    [lia|].
  unfold Legacy.GetRandomBits, GetRandomBits.
  destruct (Z.ltb_spec n 1); [lia|].
  destruct (Z.ltb_spec maxBits n) as [Hbig|_].
  { unfold maxBits, maxUint8Length in Hbig. lia. }
  cbn [orb]. rewrite Hbytes, Hdo, Hdo'. cbn [fst].
  rewrite bits_of_data_agrees. fold (extractBits (Data qr) n).
  by rewrite extractBits_unpack by lia.
Qed.

Lemma legacy_bits_agree_example :
  (Legacy.GetRandomBits (serving (envelope "uint8" [165; 192]))
     Legacy.NewClient 11 []).1
  = (GetRandomBits (serving (envelope "uint8" [165; 192])) NewClient 11 []).1
  /\
  (GetRandomBits (serving (envelope "uint8" [165; 192])) NewClient 11 []).1
  = ([1; 0; 1; 0; 0; 1; 0; 1; 1; 1; 0], None).
Proof.
  apply (proj2 legacy_bits_agree (serving (envelope "uint8" [165; 192]))
           Legacy.NewClient NewClient 11 [] (envelope "uint8" [165; 192])).
  - lia.
  - apply legacy_serving_answers.
  - by apply serving_answers.
  - reflexivity.
  - by vm_compute.
Defined.

Lemma legacy_sample_loop_returns (w : World) (c : Legacy.QRNGClient)
    (rounds : nat) (min rangeSize requiredBytes mask : Z)
    (sent sent' : list http_Request) (v : Z) :
  Legacy.sample_loop w c rounds min rangeSize requiredBytes mask sent
    = (Returns (v, None), sent') ->
  exists draw, v = GoInt.add min (Z.land draw mask) /\
               Z.land draw mask < rangeSize.
Proof.
  revert sent. induction rounds as [|rounds IH]; intros sent;
    cbn [Legacy.sample_loop]; [discriminate|].
  destruct (Legacy.GetRandomUint8 w c requiredBytes sent)
    as [[bytes [err|]] s]; [discriminate|].
  destruct (Z.ltb_spec (Z.land (Legacy.randInt_from 0 bytes) mask) rangeSize).
  - intros [= <- <-]. by eexists.
  - apply IH.
Qed.

(** X22. The earlier [GetRandomNumber] keeps the same bound: whatever
    the service sends, a value it returns without an error lies in
    [[min, max]]. *)
Theorem legacy_sampler_within_bounds (w : World) (c : Legacy.QRNGClient)
    (rounds : nat) (min max : Z) (sent sent' : list http_Request) (v : Z) :
  GoInt.in_range min -> GoInt.in_range max -> min <= max ->
  Legacy.GetRandomNumber w c rounds min max sent
    = (Returns (v, None), sent') ->
  min <= v <= max.
Proof.
  intros Hmin Hmax Hle. unfold Legacy.GetRandomNumber.
  destruct (Z.ltb_spec max min); [lia|].
  destruct (Z.leb_spec (rangeSize_of min max) 0) as [|Hpos]; [discriminate|].
  pose proof (rangeSize_of_exact min max Hmin Hmax Hle Hpos) as Hsize.
  destruct (bitSize_loop rounds 1 (rangeSize_of min max)) as [b| |] eqn:Hb;
    [|discriminate..].
  apply bitSize_loop_returns in Hb as (Hb & _ & _);
    [|lia|by vm_compute|done].
  destruct (maxBits <? b); [discriminate|].
  rewrite shl_1_small by lia.
  intros Hret. apply legacy_sample_loop_returns in Hret as (draw & -> & Hlt).
  assert (0 <= Z.land draw (GoInt.sub (2 ^ b) 1)) as Hnn.
  { apply Z.land_nonneg. right. unfold GoInt.sub.
    pose proof (pow2_le_62 b ltac:(lia)).
    rewrite wrap_exact; [lia|].
    unfold GoInt.in_range, GoInt.min_int, GoInt.max_int.
    change (2 ^ 63) with (2 * 2 ^ 62). lia. }
  unfold GoInt.add. rewrite wrap_exact; [lia|].
  unfold GoInt.in_range in *. lia.
Qed.

Lemma legacy_sampler_within_bounds_example :
  (Legacy.GetRandomNumber (serving (envelope "uint8" [57])) Legacy.NewClient
     8 1 100 []).1 = Returns (58, None) /\ 1 <= 58 <= 100.
Proof.
  assert (GoInt.in_range 1) as Hmin by (by vm_compute).
  assert (GoInt.in_range 100) as Hmax by (by vm_compute).
  assert (1 <= 100) as Hle by lia.
  split; [reflexivity|].
  destruct (Legacy.GetRandomNumber (serving (envelope "uint8" [57]))
              Legacy.NewClient 8 1 100 []) as [r s] eqn:E.
  assert (r = Returns (58, None)) as ->
    by (change r with (r, s).1; rewrite <- E; reflexivity).
  exact (legacy_sampler_within_bounds _ _ _ _ _ _ _ _ Hmin Hmax Hle E).
Defined.

(** X23. The earlier [doRequest] reports the same failures in its own
    words: an envelope that is not a success gives "api error" with the
    message of the envelope, or "api request failed without specific
    error" when there is none; data shorter than asked for gives
    "insufficient data returned"; and a status other than 200 gives
    "unexpected status code" with the code only, the body unread. *)
Theorem legacy_failures (w : World) (c : Legacy.QRNGClient)
    (length : Z) (dataType : string) (sent : list http_Request) :
  (forall qr, legacy_answers w c sent qr ->
     (Success qr = false -> Error qr <> "" ->
      (Legacy.doRequest w c length dataType sent).1
        = (None, Some (fmt_Errorf ("api error: " +:+ Error qr)))) /\
     (Success qr = false -> Error qr = "" ->
      (Legacy.doRequest w c length dataType sent).1
        = (None, Some (errors_New
                         "api request failed without specific error"))) /\
     (Success qr = true -> Z.of_nat (List.length (Data qr)) < length ->
      (Legacy.doRequest w c length dataType sent).1
        = (None, Some (fmt_Errorf
                         ("insufficient data returned: expected "
                          +:+ Itoa length +:+ ", got "
                          +:+ Itoa (Z.of_nat (List.length (Data qr)))))))) /\
  (forall code body,
     (forall q, http_NewRequest w (Legacy.APIEndpoint c) q = None) ->
     (forall cl req, client_Do w cl sent req
                     = inr {| StatusCode := code; Body := body |}) ->
     code <> 200 ->
     (Legacy.doRequest w c length dataType sent).1
       = (None, Some (fmt_Errorf ("unexpected status code: " +:+ Itoa code)))).
Proof.
  split.
  - intros qr Hans.
    destruct (legacy_doRequest_answered w c length dataType sent qr Hans)
      as (req & ->). cbn [fst].
    split; [|split].
    + intros -> Hmsg. cbn [negb]. by rewrite bool_decide_eq_false_2.
    + intros -> Hmsg. cbn [negb]. by rewrite bool_decide_eq_true_2.
    + intros -> Hshort. cbn [negb].
      destruct (Z.ltb_spec (Z.of_nat (List.length (Data qr))) length);
        [done | lia].
  - intros code body Hurl Hdo Hcode. unfold Legacy.doRequest.
    cbv zeta. rewrite Hurl, Hdo. cbn [StatusCode].
    destruct (Z.eqb_spec code http_StatusOK) as [E|_]; [done|].
    reflexivity.
Qed.

Lemma legacy_failures_examples :
  (Legacy.doRequest (serving (failed_envelope "quota exceeded" []))
     Legacy.NewClient 1 "uint8" []).1
    = (None, Some (fmt_Errorf "api error: quota exceeded")) /\
  (Legacy.doRequest (serving (envelope "uint8" [7])) Legacy.NewClient
     2 "uint8" []).1
    = (None, Some (fmt_Errorf "insufficient data returned: expected 2, got 1"))
  /\
  (Legacy.doRequest (serving_status 503 (envelope "uint8" [7]))
     Legacy.NewClient 1 "uint8" []).1
    = (None, Some (fmt_Errorf "unexpected status code: 503")).
Proof.
  split; [|split].
  - apply (proj1 (legacy_failures
                    (serving (failed_envelope "quota exceeded" []))
                    Legacy.NewClient 1 "uint8" [])
                 (failed_envelope "quota exceeded" [])
                 (legacy_serving_answers _ _ _));
      [reflexivity | discriminate].
  - apply (proj1 (legacy_failures (serving (envelope "uint8" [7]))
                    Legacy.NewClient 2 "uint8" [])
                 (envelope "uint8" [7]) (legacy_serving_answers _ _ _));
      [reflexivity | by vm_compute].
  - apply (proj2 (legacy_failures (serving_status 503 (envelope "uint8" [7]))
                    Legacy.NewClient 1 "uint8" [])
                 503 (inr "envelope")); [done | done | lia].
Defined.

(** ** Requests that cannot be made and answers that cannot be read *)

(** X24. An endpoint that does not parse stops [doRequest] before the
    transport is used, with an error that wraps the cause; and an answer
    with status 200 whose body cannot be read, or does not decode, gives
    an error that wraps the cause as well.  None of them returns an
    envelope. *)
Theorem unusable_requests_and_answers (w : World) (c : QRNGClient)
    (length : Z) (dataType : string) (blockSize : Z)
    (sent : list http_Request) (cause : error) :
  (requiresAPIKey c = true -> APIKey c <> "") ->
  ((forall q, http_NewRequest w (APIEndpoint c) q = Some cause) ->
   doRequest w c length dataType blockSize sent
     = ((None, Some (fmt_Errorf_w
                       ("request creation failed: " +:+ error_text cause)
                       cause)), sent)) /\
  ((forall q, http_NewRequest w (APIEndpoint c) q = None) ->
   (forall cl req, client_Do w cl sent req
                   = inr {| StatusCode := 200; Body := inl cause |}) ->
   (doRequest w c length dataType blockSize sent).1
     = (None, Some (fmt_Errorf_w
                      ("failed reading response: " +:+ error_text cause)
                      cause))) /\
  (forall body,
   (forall q, http_NewRequest w (APIEndpoint c) q = None) ->
   (forall cl req, client_Do w cl sent req
                   = inr {| StatusCode := 200; Body := inr body |}) ->
   json_Unmarshal w body = inl cause ->
   (doRequest w c length dataType blockSize sent).1
     = (None, Some (fmt_Errorf_w
                      ("json parse error: " +:+ error_text cause) cause))).
Proof.
  intros Hkey.
  assert (requiresAPIKey c && bool_decide (APIKey c = "") = false) as Hguard.
  { destruct (requiresAPIKey c); [|done]. cbn.
    apply bool_decide_eq_false. by apply Hkey. }
  split; [|split].
  - intros Hurl. unfold doRequest. cbv zeta. by rewrite Hguard, Hurl.
  - intros Hurl Hdo. unfold doRequest. cbv zeta.
    by rewrite Hguard, Hurl, Hdo.
  - intros body Hurl Hdo Hjson. unfold doRequest. cbv zeta.
    rewrite Hguard, Hurl, Hdo. cbn [StatusCode Body negb Z.eqb].
    change (200 =? http_StatusOK) with true. cbn [negb].
    by rewrite Hjson.
Qed.

Lemma unusable_requests_and_answers_example :
  doRequest
     {| http_NewRequest := fun _ _ =>
          Some (errors_New "missing protocol scheme");
        client_Do := fun _ _ _ => inl (errors_New "unused");
        json_Unmarshal := fun _ => inl (errors_New "unused") |}
     NewClient 1 "uint8" 0 []
  = ((None, Some (fmt_Errorf_w
                    "request creation failed: missing protocol scheme"
                    (errors_New "missing protocol scheme"))), []) /\
  (doRequest
     {| http_NewRequest := fun _ _ => None;
        client_Do := fun _ _ _ =>
          inr {| StatusCode := 200; Body := inr "<html>" |};
        json_Unmarshal := fun _ =>
          inl (errors_New "invalid character '<'") |}
     NewClient 1 "uint8" 0 []).1
  = (None, Some (fmt_Errorf_w "json parse error: invalid character '<'"
                   (errors_New "invalid character '<'"))).
Proof.
  split.
  - apply (proj1 (unusable_requests_and_answers
             {| http_NewRequest := fun _ _ =>
                  Some (errors_New "missing protocol scheme");
                client_Do := fun _ _ _ => inl (errors_New "unused");
                json_Unmarshal := fun _ => inl (errors_New "unused") |}
             NewClient 1 "uint8" 0 [] (errors_New "missing protocol scheme")
             ltac:(discriminate))); done.
  - apply (proj2 (proj2 (unusable_requests_and_answers
             {| http_NewRequest := fun _ _ => None;
                client_Do := fun _ _ _ =>
                  inr {| StatusCode := 200; Body := inr "<html>" |};
                json_Unmarshal := fun _ =>
                  inl (errors_New "invalid character '<'") |}
             NewClient 1 "uint8" 0 [] (errors_New "invalid character '<'")
             ltac:(discriminate))) "<html>"); done.
Defined.

(** ** Bits when the data runs out *)

(** X25. [extractBits] stops at [numBits] bits or at the end of the
    data, whichever comes first: for a count of at least 1 it returns
    [min(numBits, 8 * len(data))] bits, each 0 or 1, and they are a
    prefix of the bits of the whole data. *)
Theorem extractBits_stops_at_the_end (data : list Z) (n : Z) :
  1 <= n ->
  Z.of_nat (List.length (extractBits data n))
    = Z.min n (8 * Z.of_nat (List.length data)) /\
  Forall (fun b => b = 0 \/ b = 1) (extractBits data n) /\
  exists rest,
    extractBits data (8 * Z.of_nat (List.length data) + 1)
    = extractBits data n ++ rest.
Proof.
  intros Hn. rewrite !extractBits_unpack by lia.
  split; [|split; [apply unpack_bits_binary|]].
  - unfold unpack_bits. rewrite length_take, length_unpacked. lia.
  - unfold unpack_bits.
    rewrite (take_ge _ (Z.to_nat (8 * Z.of_nat (List.length data) + 1)))
      by (rewrite length_unpacked; lia).
    exists (drop (Z.to_nat n) (concat (map msb_first data))).
    by rewrite take_drop.
Qed.

Lemma extractBits_stops_at_the_end_example :
  Z.of_nat (List.length (extractBits [255] 12))
    = Z.min 12 (8 * Z.of_nat (List.length [255])) /\
  Forall (fun b => b = 0 \/ b = 1) (extractBits [255] 12) /\
  exists rest,
    extractBits [255] (8 * Z.of_nat (List.length [255]) + 1)
    = extractBits [255] 12 ++ rest.
Proof. apply (extractBits_stops_at_the_end [255] 12). lia. Defined.
